(** * Heating dashboard: telemetry reconciler and alarm registry

    A shallow embedding of the state-handling core of [dashboard2.0.py]
    (the Streamlit dashboard) and of the alarm helpers of the earlier
    prototype [dashboard.py].

    The Python code keeps everything in [st.session_state] and mutates it
    in place; a Python exception leaves the partial updates behind.  The
    embedding therefore threads one [session] record through a small
    state-and-exception monad whose failures keep the state reached so far.

    Decoded JSON is dynamically typed, so telemetry is embedded as a
    [value] tree and each Python primitive used on it ([dict.get], [len],
    indexing, [+], truthiness, [==]) is a function that raises the
    exception Python raises.  Python floats are idealised as rationals
    (no rounding, no NaN, no infinities); an [int] too large for a float
    raises [OverflowError] where Python converts it.  A Python [str] is
    held as its UTF-8 encoding, one [ascii] per byte, and the string
    primitives ([len], indexing, [upper], [strip]) work on the encoded
    characters. *)

From Stdlib Require Import ZArith QArith Lia List.
From stdpp Require Import base option list gmap strings fin_maps.

Import ListNotations.
#[local] Set Warnings "-register-all".
Local Open Scope string_scope.
Local Open Scope list_scope.
Local Open Scope Z_scope.

(** ** Python values *)

Inductive value : Type :=
| VNone
| VBool (b : bool)
| VInt (n : Z)
| VFloat (q : Q)
| VStr (s : string)
| VList (l : list value)
| VDict (d : list (string * value)).

Inductive exn : Type :=
| AttributeError
| TypeError
| IndexError
| KeyError
| OverflowError.

Inductive res (A : Type) : Type :=
| Ok (a : A)
| Raise (e : exn).
Arguments Ok {A} a.
Arguments Raise {A} e.

Definition res_bind {A B} (r : res A) (k : A -> res B) : res B :=
  match r with
  | Ok a => k a
  | Raise e => Raise e
  end.

#[global] Instance res_ret : MRet res := @Ok.
#[global] Instance res_mbind : MBind res := fun A B k r => res_bind r k.

(** [bool] is a subclass of [int]; both mix with [float]. *)
Definition as_num (v : value) : option Q :=
  match v with
  | VBool b => Some (inject_Z (if b then 1 else 0))
  | VInt n => Some (inject_Z n)
  | VFloat q => Some q
  | _ => None
  end.

Definition as_int (v : value) : option Z :=
  match v with
  | VBool b => Some (if b then 1 else 0)
  | VInt n => Some n
  | _ => None
  end.

(** Python truth value, as tested by [if v:], [not v] and [a or b]. *)
Definition truthy (v : value) : bool :=
  match v with
  | VNone => false
  | VBool b => b
  | VInt n => negb (n =? 0)
  | VFloat q => negb (Qeq_bool q 0)
  | VStr s => negb (String.eqb s "")
  | VList l => match l with [] => false | _ => true end
  | VDict d => match d with [] => false | _ => true end
  end.

Fixpoint assoc (k : string) (d : list (string * value)) : option value :=
  match d with
  | [] => None
  | (k', v) :: d' => if String.eqb k k' then Some v else assoc k d'
  end.

(** Python [==] on decoded JSON. Numbers compare by value across
    [bool], [int] and [float]; dicts compare key by key. *)
Fixpoint py_eq (a b : value) : bool :=
  match a, b with
  | VNone, VNone => true
  | VStr s, VStr t => String.eqb s t
  | VList l, VList m =>
      (fix go (l m : list value) : bool :=
         match l, m with
         | [], [] => true
         | x :: l', y :: m' => py_eq x y && go l' m'
         | _, _ => false
         end) l m
  | VDict d, VDict e =>
      (length d =? length e)%nat &&
      (fix go (d : list (string * value)) : bool :=
         match d with
         | [] => true
         | (k, v) :: d' =>
             match assoc k e with
             | Some w => py_eq v w
             | None => false
             end && go d'
         end) d
  | VBool x, (VBool _ | VInt _ | VFloat _)
  | VInt x, (VBool _ | VInt _ | VFloat _)
  | VFloat x, (VBool _ | VInt _ | VFloat _) =>
      match as_num a, as_num b with
      | Some p, Some q => Qeq_bool p q
      | _, _ => false
      end
  | _, _ => false
  end.

(** [d.get(k, default)]: only dicts have [.get]. *)
Definition py_get (v : value) (k : string) (default : value) : res value :=
  match v with
  | VDict d => Ok (match assoc k d with Some x => x | None => default end)
  | _ => Raise AttributeError
  end.

(** [d[k]] with a string key. *)
Definition py_item (v : value) (k : string) : res value :=
  match v with
  | VDict d => match assoc k d with Some x => Ok x | None => Raise KeyError end
  | _ => Raise TypeError
  end.

(** ** Characters of a string

    The characters of a [str] are its code points. In the UTF-8
    encoding every code point starts with a byte that is not of the form
    [10xxxxxx] and goes on with bytes that are (a lone surrogate, which
    [json.loads] can produce, is taken in its three-byte form). *)

Definition byte (c : Ascii.ascii) : N := Ascii.N_of_ascii c.

Definition is_cont (c : Ascii.ascii) : bool :=
  ((128 <=? byte c) && (byte c <? 192))%N.

(** The continuation bytes a string starts with, and the encoded
    characters after them. *)
Fixpoint split_points (s : string) : string * list string :=
  match s with
  | EmptyString => (EmptyString, [])
  | String c s' =>
      let '(p, l) := split_points s' in
      if is_cont c then (String c p, l) else (EmptyString, String c p :: l)
  end.

(** The encoded characters of [s], in order. *)
Definition code_points (s : string) : list string :=
  let '(p, l) := split_points s in
  match p with
  | EmptyString => l
  | _ => p :: l
  end.

(** The code point of one encoded character. *)
Definition decode (c : string) : option N :=
  match map byte (String.list_ascii_of_string c) with
  | [a] => if (a <? 128)%N then Some a else None
  | [a; b] =>
      if ((192 <=? a) && (a <? 224))%N then Some ((a - 192) * 64 + (b - 128))%N else None
  | [a; b; c] =>
      if ((224 <=? a) && (a <? 240))%N
      then Some ((a - 224) * 4096 + (b - 128) * 64 + (c - 128))%N else None
  | [a; b; c; d] =>
      if ((240 <=? a) && (a <? 248))%N
      then Some ((a - 240) * 262144 + (b - 128) * 4096 + (c - 128) * 64 + (d - 128))%N
      else None
  | _ => None
  end.

Definition encode (n : N) : string :=
  String.string_of_list_ascii
    (map Ascii.ascii_of_N
       (if n <? 128 then [n]
        else if n <? 2048 then [192 + n / 64; 128 + n mod 64]
        else if n <? 65536 then [224 + n / 4096; 128 + (n / 64) mod 64; 128 + n mod 64]
        else [240 + n / 262144; 128 + (n / 4096) mod 64; 128 + (n / 64) mod 64;
              128 + n mod 64])%N).

Definition py_len (v : value) : res nat :=
  match v with
  | VList l => Ok (length l)
  | VStr s => Ok (length (code_points s))
  | VDict d => Ok (length d)
  | _ => Raise TypeError
  end.

Definition chars (s : string) : list value := map VStr (code_points s).

(** The elements a [for] loop sees: list items, the characters of a
    string, the keys of a dict. *)
Definition py_iter (v : value) : res (list value) :=
  match v with
  | VList l => Ok l
  | VStr s => Ok (chars s)
  | VDict d => Ok (map (fun kv => VStr (fst kv)) d)
  | _ => Raise TypeError
  end.

(** [v[n]] with a non-negative literal index [n], taken only after
    [len(v) > n] was checked. A dict decoded from JSON has string keys
    only, so an integer subscript is a [KeyError]. *)
Definition py_nth (v : value) (n : nat) : res value :=
  match v with
  | VList l => match nth_error l n with Some x => Ok x | None => Raise IndexError end
  | VStr s => match nth_error (chars s) n with Some x => Ok x | None => Raise IndexError end
  | VDict _ => Raise KeyError
  | _ => Raise TypeError
  end.

(** An [int] converts to a float when it rounds to a finite double,
    that is, when it is below [2**1024 - 2**970] in absolute value;
    beyond that Python raises [OverflowError]. *)
Definition FLOAT_LIMIT : Z := 2 ^ 1024 - 2 ^ 970.

Definition fits_float (v : value) : bool :=
  match as_int v with
  | Some n => Z.abs n <? FLOAT_LIMIT
  | None => true
  end.

(** Arithmetic: [int] results stay [int]; with a [float] on one side
    the other side is converted and the result is a [float]. [+] also
    concatenates two strings or two lists. *)
Definition py_arith (fz : Z -> Z -> Z) (fq : Q -> Q -> Q) (a b : value) : res value :=
  match as_int a, as_int b with
  | Some x, Some y => Ok (VInt (fz x y))
  | _, _ =>
      match as_num a, as_num b with
      | Some p, Some q =>
          if fits_float a && fits_float b then Ok (VFloat (fq p q))
          else Raise OverflowError
      | _, _ => Raise TypeError
      end
  end.

Definition py_add (a b : value) : res value :=
  match a, b with
  | VStr s, VStr t => Ok (VStr (String.append s t))
  | VList l, VList m => Ok (VList (l ++ m))
  | _, _ => py_arith Z.add Qplus a b
  end.

Definition py_sub (a b : value) : res value := py_arith Z.sub Qminus a b.

(** True division [a / d] by a positive [int] literal [d]: an [int]
    quotient too large for a float raises [OverflowError]. *)
Definition py_div (a : value) (d : positive) : res value :=
  match as_int a, as_num a with
  | Some n, _ =>
      if Z.abs n <? FLOAT_LIMIT * Z.pos d then Ok (VFloat (n # d))
      else Raise OverflowError
  | None, Some p => Ok (VFloat (p / inject_Z (Z.pos d)))
  | None, None => Raise TypeError
  end.

(** [a > b] between numbers. *)
Definition py_gt (a b : value) : res bool :=
  match as_num a, as_num b with
  | Some p, Some q => Ok (negb (Qle_bool p q))
  | _, _ => Raise TypeError
  end.

(** [str.upper()] replaces each character by its full upper-case
    mapping in the Unicode character database, which does not depend on
    the neighbouring characters. The two tables below are that mapping
    for Unicode 14.0 (CPython 3.11): the code points that map to more
    than one character, and the others as runs [(first, last, step,
    offset)]; every code point outside them is left as it is. *)
Definition upper_special : list (N * list N) :=
  [
   (223, [83; 83]); (329, [700; 78]); (496, [74; 780]); (912, [921; 776; 769]);
   (944, [933; 776; 769]); (1415, [1333; 1362]); (7830, [72; 817]); (7831, [84; 776]);
   (7832, [87; 778]); (7833, [89; 778]); (7834, [65; 702]); (8016, [933; 787]);
   (8018, [933; 787; 768]); (8020, [933; 787; 769]); (8022, [933; 787; 834]);
   (8064, [7944; 921]); (8065, [7945; 921]); (8066, [7946; 921]); (8067, [7947; 921]);
   (8068, [7948; 921]); (8069, [7949; 921]); (8070, [7950; 921]); (8071, [7951; 921]);
   (8072, [7944; 921]); (8073, [7945; 921]); (8074, [7946; 921]); (8075, [7947; 921]);
   (8076, [7948; 921]); (8077, [7949; 921]); (8078, [7950; 921]); (8079, [7951; 921]);
   (8080, [7976; 921]); (8081, [7977; 921]); (8082, [7978; 921]); (8083, [7979; 921]);
   (8084, [7980; 921]); (8085, [7981; 921]); (8086, [7982; 921]); (8087, [7983; 921]);
   (8088, [7976; 921]); (8089, [7977; 921]); (8090, [7978; 921]); (8091, [7979; 921]);
   (8092, [7980; 921]); (8093, [7981; 921]); (8094, [7982; 921]); (8095, [7983; 921]);
   (8096, [8040; 921]); (8097, [8041; 921]); (8098, [8042; 921]); (8099, [8043; 921]);
   (8100, [8044; 921]); (8101, [8045; 921]); (8102, [8046; 921]); (8103, [8047; 921]);
   (8104, [8040; 921]); (8105, [8041; 921]); (8106, [8042; 921]); (8107, [8043; 921]);
   (8108, [8044; 921]); (8109, [8045; 921]); (8110, [8046; 921]); (8111, [8047; 921]);
   (8114, [8122; 921]); (8115, [913; 921]); (8116, [902; 921]); (8118, [913; 834]);
   (8119, [913; 834; 921]); (8124, [913; 921]); (8130, [8138; 921]); (8131, [919; 921]);
   (8132, [905; 921]); (8134, [919; 834]); (8135, [919; 834; 921]); (8140, [919; 921]);
   (8146, [921; 776; 768]); (8147, [921; 776; 769]); (8150, [921; 834]);
   (8151, [921; 776; 834]); (8162, [933; 776; 768]); (8163, [933; 776; 769]);
   (8164, [929; 787]); (8166, [933; 834]); (8167, [933; 776; 834]); (8178, [8186; 921]);
   (8179, [937; 921]); (8180, [911; 921]); (8182, [937; 834]); (8183, [937; 834; 921]);
   (8188, [937; 921]); (64256, [70; 70]); (64257, [70; 73]); (64258, [70; 76]);
   (64259, [70; 70; 73]); (64260, [70; 70; 76]); (64261, [83; 84]); (64262, [83; 84]);
   (64275, [1348; 1350]); (64276, [1348; 1333]); (64277, [1348; 1339]); (64278, [1358; 1350]);
   (64279, [1348; 1341])
  ]%N.

Definition upper_runs : list (N * N * N * Z) :=
  [
   (97%N, 122%N, 1%N, (-32)); (181%N, 181%N, 1%N, 743); (224%N, 246%N, 1%N, (-32));
   (248%N, 254%N, 1%N, (-32)); (255%N, 255%N, 1%N, 121); (257%N, 303%N, 2%N, (-1));
   (305%N, 305%N, 1%N, (-232)); (307%N, 311%N, 2%N, (-1)); (314%N, 328%N, 2%N, (-1));
   (331%N, 375%N, 2%N, (-1)); (378%N, 382%N, 2%N, (-1)); (383%N, 383%N, 1%N, (-300));
   (384%N, 384%N, 1%N, 195); (387%N, 389%N, 2%N, (-1)); (392%N, 392%N, 1%N, (-1));
   (396%N, 396%N, 1%N, (-1)); (402%N, 402%N, 1%N, (-1)); (405%N, 405%N, 1%N, 97);
   (409%N, 409%N, 1%N, (-1)); (410%N, 410%N, 1%N, 163); (414%N, 414%N, 1%N, 130);
   (417%N, 421%N, 2%N, (-1)); (424%N, 424%N, 1%N, (-1)); (429%N, 429%N, 1%N, (-1));
   (432%N, 432%N, 1%N, (-1)); (436%N, 438%N, 2%N, (-1)); (441%N, 441%N, 1%N, (-1));
   (445%N, 445%N, 1%N, (-1)); (447%N, 447%N, 1%N, 56); (453%N, 453%N, 1%N, (-1));
   (454%N, 454%N, 1%N, (-2)); (456%N, 456%N, 1%N, (-1)); (457%N, 457%N, 1%N, (-2));
   (459%N, 459%N, 1%N, (-1)); (460%N, 460%N, 1%N, (-2)); (462%N, 476%N, 2%N, (-1));
   (477%N, 477%N, 1%N, (-79)); (479%N, 495%N, 2%N, (-1)); (498%N, 498%N, 1%N, (-1));
   (499%N, 499%N, 1%N, (-2)); (501%N, 501%N, 1%N, (-1)); (505%N, 543%N, 2%N, (-1));
   (547%N, 563%N, 2%N, (-1)); (572%N, 572%N, 1%N, (-1)); (575%N, 576%N, 1%N, 10815);
   (578%N, 578%N, 1%N, (-1)); (583%N, 591%N, 2%N, (-1)); (592%N, 592%N, 1%N, 10783);
   (593%N, 593%N, 1%N, 10780); (594%N, 594%N, 1%N, 10782); (595%N, 595%N, 1%N, (-210));
   (596%N, 596%N, 1%N, (-206)); (598%N, 599%N, 1%N, (-205)); (601%N, 601%N, 1%N, (-202));
   (603%N, 603%N, 1%N, (-203)); (604%N, 604%N, 1%N, 42319); (608%N, 608%N, 1%N, (-205));
   (609%N, 609%N, 1%N, 42315); (611%N, 611%N, 1%N, (-207)); (613%N, 613%N, 1%N, 42280);
   (614%N, 614%N, 1%N, 42308); (616%N, 616%N, 1%N, (-209)); (617%N, 617%N, 1%N, (-211));
   (618%N, 618%N, 1%N, 42308); (619%N, 619%N, 1%N, 10743); (620%N, 620%N, 1%N, 42305);
   (623%N, 623%N, 1%N, (-211)); (625%N, 625%N, 1%N, 10749); (626%N, 626%N, 1%N, (-213));
   (629%N, 629%N, 1%N, (-214)); (637%N, 637%N, 1%N, 10727); (640%N, 640%N, 1%N, (-218));
   (642%N, 642%N, 1%N, 42307); (643%N, 643%N, 1%N, (-218)); (647%N, 647%N, 1%N, 42282);
   (648%N, 648%N, 1%N, (-218)); (649%N, 649%N, 1%N, (-69)); (650%N, 651%N, 1%N, (-217));
   (652%N, 652%N, 1%N, (-71)); (658%N, 658%N, 1%N, (-219)); (669%N, 669%N, 1%N, 42261);
   (670%N, 670%N, 1%N, 42258); (837%N, 837%N, 1%N, 84); (881%N, 883%N, 2%N, (-1));
   (887%N, 887%N, 1%N, (-1)); (891%N, 893%N, 1%N, 130); (940%N, 940%N, 1%N, (-38));
   (941%N, 943%N, 1%N, (-37)); (945%N, 961%N, 1%N, (-32)); (962%N, 962%N, 1%N, (-31));
   (963%N, 971%N, 1%N, (-32)); (972%N, 972%N, 1%N, (-64)); (973%N, 974%N, 1%N, (-63));
   (976%N, 976%N, 1%N, (-62)); (977%N, 977%N, 1%N, (-57)); (981%N, 981%N, 1%N, (-47));
   (982%N, 982%N, 1%N, (-54)); (983%N, 983%N, 1%N, (-8)); (985%N, 1007%N, 2%N, (-1));
   (1008%N, 1008%N, 1%N, (-86)); (1009%N, 1009%N, 1%N, (-80)); (1010%N, 1010%N, 1%N, 7);
   (1011%N, 1011%N, 1%N, (-116)); (1013%N, 1013%N, 1%N, (-96)); (1016%N, 1016%N, 1%N, (-1));
   (1019%N, 1019%N, 1%N, (-1)); (1072%N, 1103%N, 1%N, (-32)); (1104%N, 1119%N, 1%N, (-80));
   (1121%N, 1153%N, 2%N, (-1)); (1163%N, 1215%N, 2%N, (-1)); (1218%N, 1230%N, 2%N, (-1));
   (1231%N, 1231%N, 1%N, (-15)); (1233%N, 1327%N, 2%N, (-1)); (1377%N, 1414%N, 1%N, (-48));
   (4304%N, 4346%N, 1%N, 3008); (4349%N, 4351%N, 1%N, 3008); (5112%N, 5117%N, 1%N, (-8));
   (7296%N, 7296%N, 1%N, (-6254)); (7297%N, 7297%N, 1%N, (-6253));
   (7298%N, 7298%N, 1%N, (-6244)); (7299%N, 7300%N, 1%N, (-6242));
   (7301%N, 7301%N, 1%N, (-6243)); (7302%N, 7302%N, 1%N, (-6236));
   (7303%N, 7303%N, 1%N, (-6181)); (7304%N, 7304%N, 1%N, 35266); (7545%N, 7545%N, 1%N, 35332);
   (7549%N, 7549%N, 1%N, 3814); (7566%N, 7566%N, 1%N, 35384); (7681%N, 7829%N, 2%N, (-1));
   (7835%N, 7835%N, 1%N, (-59)); (7841%N, 7935%N, 2%N, (-1)); (7936%N, 7943%N, 1%N, 8);
   (7952%N, 7957%N, 1%N, 8); (7968%N, 7975%N, 1%N, 8); (7984%N, 7991%N, 1%N, 8);
   (8000%N, 8005%N, 1%N, 8); (8017%N, 8023%N, 2%N, 8); (8032%N, 8039%N, 1%N, 8);
   (8048%N, 8049%N, 1%N, 74); (8050%N, 8053%N, 1%N, 86); (8054%N, 8055%N, 1%N, 100);
   (8056%N, 8057%N, 1%N, 128); (8058%N, 8059%N, 1%N, 112); (8060%N, 8061%N, 1%N, 126);
   (8112%N, 8113%N, 1%N, 8); (8126%N, 8126%N, 1%N, (-7205)); (8144%N, 8145%N, 1%N, 8);
   (8160%N, 8161%N, 1%N, 8); (8165%N, 8165%N, 1%N, 7); (8526%N, 8526%N, 1%N, (-28));
   (8560%N, 8575%N, 1%N, (-16)); (8580%N, 8580%N, 1%N, (-1)); (9424%N, 9449%N, 1%N, (-26));
   (11312%N, 11359%N, 1%N, (-48)); (11361%N, 11361%N, 1%N, (-1));
   (11365%N, 11365%N, 1%N, (-10795)); (11366%N, 11366%N, 1%N, (-10792));
   (11368%N, 11372%N, 2%N, (-1)); (11379%N, 11379%N, 1%N, (-1)); (11382%N, 11382%N, 1%N, (-1));
   (11393%N, 11491%N, 2%N, (-1)); (11500%N, 11502%N, 2%N, (-1)); (11507%N, 11507%N, 1%N, (-1));
   (11520%N, 11557%N, 1%N, (-7264)); (11559%N, 11559%N, 1%N, (-7264));
   (11565%N, 11565%N, 1%N, (-7264)); (42561%N, 42605%N, 2%N, (-1));
   (42625%N, 42651%N, 2%N, (-1)); (42787%N, 42799%N, 2%N, (-1)); (42803%N, 42863%N, 2%N, (-1));
   (42874%N, 42876%N, 2%N, (-1)); (42879%N, 42887%N, 2%N, (-1)); (42892%N, 42892%N, 1%N, (-1));
   (42897%N, 42899%N, 2%N, (-1)); (42900%N, 42900%N, 1%N, 48); (42903%N, 42921%N, 2%N, (-1));
   (42933%N, 42947%N, 2%N, (-1)); (42952%N, 42954%N, 2%N, (-1)); (42961%N, 42961%N, 1%N, (-1));
   (42967%N, 42969%N, 2%N, (-1)); (42998%N, 42998%N, 1%N, (-1));
   (43859%N, 43859%N, 1%N, (-928)); (43888%N, 43967%N, 1%N, (-38864));
   (65345%N, 65370%N, 1%N, (-32)); (66600%N, 66639%N, 1%N, (-40));
   (66776%N, 66811%N, 1%N, (-40)); (66967%N, 66977%N, 1%N, (-39));
   (66979%N, 66993%N, 1%N, (-39)); (66995%N, 67001%N, 1%N, (-39));
   (67003%N, 67004%N, 1%N, (-39)); (68800%N, 68850%N, 1%N, (-64));
   (71872%N, 71903%N, 1%N, (-32)); (93792%N, 93823%N, 1%N, (-32));
   (125218%N, 125251%N, 1%N, (-34))
  ].

Definition in_run (n : N) (r : N * N * N * Z) : bool :=
  let '(lo, hi, step, _) := r in
  ((lo <=? n) && (n <=? hi) && ((n - lo) mod step =? 0))%N.

Definition upper_point (n : N) : list N :=
  match List.find (fun e => (fst e =? n)%N) upper_special with
  | Some (_, l) => l
  | None =>
      match List.find (in_run n) upper_runs with
      | Some (_, _, _, d) => [Z.to_N (Z.of_N n + d)]
      | None => [n]
      end
  end.

(** Bytes that are not the encoding of a code point are kept. *)
Definition upper_char (c : string) : string :=
  match decode c with
  | Some n =>
      if String.eqb (encode n) c then String.concat "" (map encode (upper_point n)) else c
  | None => c
  end.

Definition str_upper (s : string) : string :=
  String.concat "" (map upper_char (code_points s)).

Definition py_upper (v : value) : res string :=
  match v with
  | VStr s => Ok (str_upper s)
  | _ => Raise AttributeError
  end.

(** ** Session state *)

Definition LOG_LIMIT : nat := 400.
Definition HISTORY_LEN : nat := 300.
Definition DEFAULT_NUM_SHELVES : nat := 2.
Definition MIN_TEMP : Q := 0.
Definition MAX_TEMP : Q := 120.

(** One entry of [s.shelves]. *)
Record Shelf : Type := mkShelf {
  is_on : value;
  setpoint : value;
  upper : value;
  lower : value
}.

(** One alarm dict [{"shelf", "name", "desc", "ts", "ack"}]. *)
Record Alarm : Type := mkAlarm {
  alarm_shelf : value;
  alarm_name : value;
  alarm_desc : value;
  alarm_ts : Q;
  alarm_ack : value
}.

Record Maintenance : Type := mkMaintenance {
  fan_hours : value;
  element_hours : value;
  fan_life_hours : value;
  element_life_hours : value
}.

(** The text of a log line; every line is stamped with the clock
    reading ([ts_now()]) it was written at. *)
Inductive log_text : Type :=
| LogAlarm (sev : string) (sh nm : value)     (* "Alarm: [sev] S<shelf> <name>" *)
| LogAck (sev : string) (sh nm : value)       (* "Ack: [sev] S<shelf> <name>" *)
| LogCleared (sev : string) (sh nm : value)   (* "Cleared: [sev] S<shelf> <name>" *)
| LogAckAll                                    (* "Ack all alarms" *)
| LogRaw (s : string)                          (* "RAW: <line>" *)
| LogReadError (e : string)                    (* "Serial read error: <e>" *)
| LogMessage (level m : value).                (* "<level>: <msg>" *)

Definition log_line : Type := Q * log_text.

Record Session : Type := mkSession {
  demo_mode : bool;
  num_shelves : nat;
  shelves : list Shelf;
  hist : gmap Z (list value);
  latest_temp : list value;
  alarms : gmap string (list Alarm);
  logs : list log_line;
  maintenance : Maintenance;
  link_open : bool;            (* [s.link and s.link.is_open()] *)
  outbox : list value;         (* objects written to the serial port *)
  last_update_ts : Q;
  last_tick : Q
}.

(** [collections.deque(maxlen=n).append]: the oldest item falls out
    when the deque is full. *)
Definition deque_append {A} (maxlen : nat) (x : A) (d : list A) : list A :=
  if (length d <? maxlen)%nat then d ++ [x] else drop 1 d ++ [x].

Definition default_shelf : Shelf :=
  {| is_on := VBool true; setpoint := VFloat 75; upper := VFloat 77; lower := VFloat 73 |}.

(** [{i: deque(maxlen=HISTORY_LEN) for i in range(count)}] *)
Fixpoint fresh_hist (count : nat) : gmap Z (list value) :=
  match count with
  | O => ∅
  | S n => <[Z.of_nat n := []]> (fresh_hist n)
  end.

(** [init_state] *)
Definition init_state (now : Q) : Session :=
  {| demo_mode := true;
     num_shelves := DEFAULT_NUM_SHELVES;
     shelves := replicate DEFAULT_NUM_SHELVES default_shelf;
     hist := fresh_hist DEFAULT_NUM_SHELVES;
     latest_temp := replicate DEFAULT_NUM_SHELVES VNone;
     alarms := <["CRITICAL" := []]> (<["ERROR" := []]> ∅);
     logs := [];
     maintenance := {| fan_hours := VFloat 0; element_hours := VFloat 0;
                       fan_life_hours := VFloat 2000; element_life_hours := VFloat 3000 |};
     link_open := false;
     outbox := [];
     last_update_ts := 0;
     last_tick := now |}.

(** ** State and exceptions

    A computation runs on the session and either returns or raises; in
    both cases the session it leaves behind is kept. *)

Definition M (A : Type) : Type := Session -> Session * res A.

Definition ret {A} (a : A) : M A := fun s => (s, Ok a).
Definition raise {A} (e : exn) : M A := fun s => (s, Raise e).
Definition bind {A B} (m : M A) (k : A -> M B) : M B :=
  fun s => match m s with
           | (s', Ok a) => k a s'
           | (s', Raise e) => (s', Raise e)
           end.
Definition lift {A} (r : res A) : M A := fun s => (s, r).
Definition gets {A} (f : Session -> A) : M A := fun s => (s, Ok (f s)).
Definition modify (f : Session -> Session) : M unit := fun s => (f s, Ok tt).

#[global] Instance M_ret : MRet M := @ret.
#[global] Instance M_bind : MBind M := fun A B k m => bind m k.

Fixpoint for_each {A} (body : A -> M unit) (l : list A) : M unit :=
  match l with
  | [] => ret tt
  | x :: l' => body x ;; for_each body l'
  end.

(** Field updates of the session. *)
Definition set_alarms (f : gmap string (list Alarm) -> gmap string (list Alarm))
    (s : Session) : Session :=
  mkSession (demo_mode s) (num_shelves s) (shelves s) (hist s) (latest_temp s)
    (f (alarms s)) (logs s) (maintenance s) (link_open s) (outbox s)
    (last_update_ts s) (last_tick s).

Definition set_logs (f : list log_line -> list log_line) (s : Session) : Session :=
  mkSession (demo_mode s) (num_shelves s) (shelves s) (hist s) (latest_temp s)
    (alarms s) (f (logs s)) (maintenance s) (link_open s) (outbox s)
    (last_update_ts s) (last_tick s).

Definition set_shelves (f : list Shelf -> list Shelf) (s : Session) : Session :=
  mkSession (demo_mode s) (num_shelves s) (f (shelves s)) (hist s) (latest_temp s)
    (alarms s) (logs s) (maintenance s) (link_open s) (outbox s)
    (last_update_ts s) (last_tick s).

Definition set_hist (f : gmap Z (list value) -> gmap Z (list value))
    (s : Session) : Session :=
  mkSession (demo_mode s) (num_shelves s) (shelves s) (f (hist s)) (latest_temp s)
    (alarms s) (logs s) (maintenance s) (link_open s) (outbox s)
    (last_update_ts s) (last_tick s).

Definition set_latest_temp (f : list value -> list value) (s : Session) : Session :=
  mkSession (demo_mode s) (num_shelves s) (shelves s) (hist s) (f (latest_temp s))
    (alarms s) (logs s) (maintenance s) (link_open s) (outbox s)
    (last_update_ts s) (last_tick s).

Definition set_maintenance (f : Maintenance -> Maintenance) (s : Session) : Session :=
  mkSession (demo_mode s) (num_shelves s) (shelves s) (hist s) (latest_temp s)
    (alarms s) (logs s) (f (maintenance s)) (link_open s) (outbox s)
    (last_update_ts s) (last_tick s).

Definition set_outbox (f : list value -> list value) (s : Session) : Session :=
  mkSession (demo_mode s) (num_shelves s) (shelves s) (hist s) (latest_temp s)
    (alarms s) (logs s) (maintenance s) (link_open s) (f (outbox s))
    (last_update_ts s) (last_tick s).

Definition set_last_update_ts (t : Q) (s : Session) : Session :=
  mkSession (demo_mode s) (num_shelves s) (shelves s) (hist s) (latest_temp s)
    (alarms s) (logs s) (maintenance s) (link_open s) (outbox s)
    t (last_tick s).

Definition set_last_tick (t : Q) (s : Session) : Session :=
  mkSession (demo_mode s) (num_shelves s) (shelves s) (hist s) (latest_temp s)
    (alarms s) (logs s) (maintenance s) (link_open s) (outbox s)
    (last_update_ts s) t.

(** [st.session_state.logs.append(f"[{ts_now()}] ...")] *)
Definition log (now : Q) (t : log_text) : M unit :=
  modify (set_logs (deque_append LOG_LIMIT (now, t))).

(** [send_to_pi]: written to the port only while the link is open. *)
Definition send_to_pi (obj : value) : M unit :=
  modify (fun s => if link_open s then set_outbox (fun o => o ++ [obj]) s else s).

(** ** Alarm registry ([dashboard2.0.py], "ALARMS (old style)") *)

(** [a["shelf"] == shelf and a["name"] == name] *)
Definition same_key (shelf name : value) (a : Alarm) : bool :=
  py_eq (alarm_shelf a) shelf && py_eq (alarm_name a) name.

(** [st.session_state.alarms.get(sev, [])] *)
Definition bucket (sev : string) (s : Session) : list Alarm :=
  default [] (alarms s !! sev).

Definition _find_alarm (sev : string) (shelf name : value) (s : Session) : option Alarm :=
  List.find (same_key shelf name) (bucket sev s).

(** [alarms.setdefault(sev, [])] followed by [arr.append(rec)]. *)
Definition setdefault_bucket (sev : string) (s : Session) : Session :=
  match alarms s !! sev with
  | Some _ => s
  | None => set_alarms (insert sev []) s
  end.

Definition bucket_append (sev : string) (a : Alarm) (s : Session) : Session :=
  set_alarms (insert sev (bucket sev s ++ [a])) s.

Definition add_alarm (now : Q) (sev : string) (shelf name desc ack : value) : M unit :=
  modify (setdefault_bucket sev) ;;
  found ← gets (_find_alarm sev shelf name);
  match found with
  | Some _ => ret tt
  | None =>
      modify (bucket_append sev (mkAlarm shelf name desc now ack)) ;;
      log now (LogAlarm sev shelf name)
  end.

(** [a["ack"] = True] on the record [_find_alarm] returned, which is
    the first one with the key in its bucket. *)
Definition acked (a : Alarm) : Alarm :=
  mkAlarm (alarm_shelf a) (alarm_name a) (alarm_desc a) (alarm_ts a) (VBool true).

Fixpoint ack_first (shelf name : value) (l : list Alarm) : list Alarm :=
  match l with
  | [] => []
  | a :: l' =>
      if same_key shelf name a then acked a :: l'
      else a :: ack_first shelf name l'
  end.

Definition ack_alarm (now : Q) (sev : string) (shelf name : value) : M unit :=
  found ← gets (_find_alarm sev shelf name);
  match found with
  | Some a =>
      if negb (truthy (alarm_ack a)) then
        modify (fun s => set_alarms (insert sev (ack_first shelf name (bucket sev s))) s) ;;
        log now (LogAck sev shelf name) ;;
        id ← lift (py_add shelf (VInt 1));
        send_to_pi (VDict [("type", VStr "ACK_ALARM"); ("shelf", id); ("name", name)])
      else ret tt
  | None => ret tt
  end.

(** [st.session_state.alarms[sev]] *)
Definition bucket_item (sev : string) : M (list Alarm) :=
  fun s => match alarms s !! sev with
           | Some arr => (s, Ok arr)
           | None => (s, Raise KeyError)
           end.

Definition clear_alarm (now : Q) (sev : string) (shelf name : value) : M unit :=
  arr ← bucket_item sev;
  if existsb (same_key shelf name) arr then
    modify (set_alarms (insert sev (List.filter (fun a => negb (same_key shelf name a)) arr))) ;;
    log now (LogCleared sev shelf name)
  else ret tt.

Definition ack_all_alarms (now : Q) : M unit :=
  for_each (fun sev =>
              arr ← bucket_item sev;
              modify (set_alarms (insert sev (map acked arr))))
           ["CRITICAL"; "ERROR"] ;;
  log now LogAckAll.

(** ** Telemetry reconciler ([process_msg]) *)

(** Python list subscripts: an [int] (or [bool]) in [-len, len), counted
    from the end when negative; [IndexError] outside, [TypeError] for
    any other subscript type. *)
Definition norm_index (len : nat) (idx : value) : res nat :=
  match as_int idx with
  | Some i =>
      if (0 <=? i) && (i <? Z.of_nat len) then Ok (Z.to_nat i)
      else if (- Z.of_nat len <=? i) && (i <? 0) then Ok (Z.to_nat (Z.of_nat len + i))
      else Raise IndexError
  | None => Raise TypeError
  end.

(** [st.session_state.latest_temp[idx] = x] *)
Definition latest_temp_store (idx x : value) : M unit :=
  fun s => match norm_index (length (latest_temp s)) idx with
           | Ok i => (set_latest_temp (<[i := x]>) s, Ok tt)
           | Raise e => (s, Raise e)
           end.

(** [st.session_state.shelves[idx][key] = x], the key given as the
    field update [f]. *)
Definition shelf_store (idx : value) (f : Shelf -> Shelf) : M unit :=
  fun s => match norm_index (length (shelves s)) idx with
           | Ok i => (set_shelves (alter f i) s, Ok tt)
           | Raise e => (s, Raise e)
           end.

(** [st.session_state.hist[idx].append(x)]: [hist] is a dict, so a
    key that is not present (a negative one included) is a [KeyError]. *)
Definition hist_append (idx x : value) : M unit :=
  fun s => match as_int idx with
           | Some i =>
               match hist s !! i with
               | Some d => (set_hist (insert i (deque_append HISTORY_LEN x d)) s, Ok tt)
               | None => (s, Raise KeyError)
               end
           | None => (s, Raise KeyError)
           end.

(** Lines 319-325: reallocate the shelf arrays when the count changed. *)
Definition resize (count : nat) (s : Session) : Session :=
  if negb (count =? num_shelves s)%nat then
    mkSession (demo_mode s) count (replicate count default_shelf) (fresh_hist count)
      (replicate count VNone) (alarms s) (logs s) (maintenance s) (link_open s)
      (outbox s) (last_update_ts s) (last_tick s)
  else s.

(** [a["shelf"] != idx] *)
Definition other_shelf (idx : value) (a : Alarm) : bool :=
  negb (py_eq (alarm_shelf a) idx).

(** Lines 356-359: drop the CRITICAL and ERROR records of one shelf. *)
Definition drop_shelf_alarms (idx : value) : M unit :=
  for_each (fun sev =>
              arr ← bucket_item sev;
              modify (set_alarms (insert sev (List.filter (other_shelf idx) arr))))
           ["CRITICAL"; "ERROR"].

(** Lines 362-369: one element of a STATUS entry's alarm list. *)
Definition status_alarm (now : Q) (idx a : value) : M unit :=
  name ← lift (py_get a "name" (VStr "ALARM"));
  active ← lift (py_get a "active" (VBool false));
  sev0 ← lift (py_get a "severity" (VStr "ERROR"));
  sev ← lift (py_upper sev0);
  desc ← lift (py_get a "desc" name);
  if truthy active then
    ack ← lift (py_get a "ack" (VBool false));
    add_alarm now sev idx name desc ack
  else ret tt.

(** Lines 353-369: the alarm portion of a STATUS entry. *)
Definition status_alarms (now : Q) (idx sh : value) : M unit :=
  drop_shelf_alarms idx ;;
  al ← lift (py_get sh "alarms" (VList []));
  items ← lift (py_iter al);
  for_each (status_alarm now idx) items.

(** Lines 329-369: one [(idx, sh)] of [enumerate(shelves)]. *)
Definition status_entry (now : Q) (ish : nat * value) : M unit :=
  let '(k, sh) := ish in
  incomingShelf ← lift (py_get sh "shelf" (VInt (Z.of_nat k)));
  idx ← lift (py_sub incomingShelf (VInt 1));
  temp ← lift (py_get sh "temp" VNone);
  sp_arr ← lift (py_get sh "setpoint" (VList [VFloat 75; VFloat 77; VFloat 73]));
  n ← lift (py_len sp_arr);
  sp ← lift (if (0 <? n)%nat then py_nth sp_arr 0 else Ok (VFloat 75));
  up ← lift (if (1 <? n)%nat then py_nth sp_arr 1 else py_add sp (VInt 2));
  lo ← lift (if (2 <? n)%nat then py_nth sp_arr 2 else py_sub sp (VInt 2));
  latest_temp_store idx temp ;;
  shelf_store idx (fun b => mkShelf (is_on b) sp (upper b) (lower b)) ;;
  shelf_store idx (fun b => mkShelf (is_on b) (setpoint b) up (lower b)) ;;
  shelf_store idx (fun b => mkShelf (is_on b) (setpoint b) (upper b) lo) ;;
  on ← lift (py_get sh "systemOn" (VBool true));
  shelf_store idx (fun b => mkShelf on (setpoint b) (upper b) (lower b)) ;;
  (match temp with
   | VNone => ret tt
   | _ => hist_append idx temp
   end) ;;
  fh0 ← gets (fun s => fan_hours (maintenance s));
  fh ← lift (py_get sh "fanHours" fh0);
  modify (set_maintenance (fun m =>
    mkMaintenance fh (element_hours m) (fan_life_hours m) (element_life_hours m))) ;;
  eh0 ← gets (fun s => element_hours (maintenance s));
  eh ← lift (py_get sh "elementHours" eh0);
  modify (set_maintenance (fun m =>
    mkMaintenance (fan_hours m) eh (fan_life_hours m) (element_life_hours m))) ;;
  status_alarms now idx sh.

(** [enumerate(l)] *)
Definition enumerate {A} (l : list A) : list (nat * A) := imap (fun i x => (i, x)) l.

(** Lines 372-375: the life ceilings. *)
Definition status_maintenance (msg : value) : M unit :=
  m ← lift (py_get msg "maintenance" (VList [VInt 2000; VInt 3000]));
  match m with
  | VList (m0 :: m1 :: _) =>
      modify (set_maintenance (fun r => mkMaintenance (fan_hours r) (element_hours r) m0 m1))
  | _ => ret tt
  end.

Definition process_status (now : Q) (msg : value) : M unit :=
  shelves_v ← lift (py_get msg "shelves" (VList []));
  count ← lift (py_len shelves_v);
  modify (resize count) ;;
  items ← lift (py_iter shelves_v);
  for_each (status_entry now) (enumerate items) ;;
  status_maintenance msg ;;
  modify (set_last_update_ts now).

Definition process_live_temp (now : Q) (msg : value) : M unit :=
  id ← lift (py_get msg "shelf" (VInt 1));
  i ← lift (py_sub id (VInt 1));
  val ← lift (py_get msg "value" VNone);
  latest_temp_store i val ;;
  hist_append i val ;;
  modify (set_last_update_ts now).

(** Lines 391-394: one element of an ALARM_STATE alarm list. *)
Definition alarm_state_alarm (now : Q) (i a : value) : M unit :=
  sev0 ← lift (py_get a "severity" VNone);
  sev ← lift (py_upper (if truthy sev0 then sev0 else VStr "ERROR"));
  active ← lift (py_get a "active" VNone);
  if truthy active then
    name ← lift (py_item a "name");
    dflt ← lift (py_item a "name");
    desc ← lift (py_get a "desc" dflt);
    ack ← lift (py_get a "ack" (VBool false));
    add_alarm now sev i name desc ack
  else ret tt.

Definition process_alarm_state (now : Q) (msg : value) : M unit :=
  id ← lift (py_get msg "shelf" (VInt 1));
  i ← lift (py_sub id (VInt 1));
  drop_shelf_alarms i ;;
  al ← lift (py_get msg "alarms" (VList []));
  items ← lift (py_iter al);
  for_each (alarm_state_alarm now i) items ;;
  modify (set_last_update_ts now).

(** [time.localtime(ts)] accepts a number, or [None] for the current
    time. The range error the platform raises for a timestamp beyond
    its [time_t] depends on the platform and is not modelled; it comes
    before the log is written. *)
Definition localtime (now : Q) (ts : value) : res Q :=
  match ts with
  | VNone => Ok now
  | _ => match as_num ts with Some q => Ok q | None => Raise TypeError end
  end.

Definition process_log (now : Q) (msg : value) : M unit :=
  ts ← lift (py_get msg "ts" (VFloat now));
  ts_str ← lift (localtime now ts);
  level ← lift (py_get msg "level" (VStr "INFO"));
  m ← lift (py_get msg "msg" (VStr ""));
  modify (set_logs (deque_append LOG_LIMIT (ts_str, LogMessage level m))).

Definition process_msg (now : Q) (msg : value) : M unit :=
  t ← lift (py_get msg "type" VNone);
  if py_eq t (VStr "STATUS") then process_status now msg
  else if py_eq t (VStr "LIVE_TEMP") then process_live_temp now msg
  else if py_eq t (VStr "ALARM_STATE") then process_alarm_state now msg
  else if py_eq t (VStr "LOG") then process_log now msg
  else ret tt.

(** ** Serial input ([SerialLink.read_all], [read_from_pi]) *)

(** What one [readline()] of the batch yields once stripped and handed
    to [json.loads]; the end of the list is the read timeout, an empty
    read. *)
Inductive rx : Type :=
| RxBlank                 (* nothing left after [strip()] *)
| RxRaw (s : string)      (* [json.loads] raises [JSONDecodeError] *)
| RxJson (v : value)      (* [json.loads] returns [v] *)
| RxFail (e : string).    (* [readline] itself raises *)

Fixpoint read_all (now : Q) (max_lines : nat) (port : list rx) : M (list value) :=
  match max_lines with
  | O => ret []
  | S n =>
      match port with
      | [] => ret []
      | RxBlank :: port' => read_all now n port'
      | RxRaw s :: port' => log now (LogRaw s) ;; read_all now n port'
      | RxJson v :: port' => msgs ← read_all now n port'; ret (v :: msgs)
      | RxFail e :: _ => log now (LogReadError e) ;; ret []
      end
  end.

Definition read_from_pi (now : Q) (port : list rx) : M unit :=
  is_open ← gets link_open;
  if (is_open : bool) then
    msgs ← read_all now 200 port;
    for_each (process_msg now) msgs
  else ret tt.

(** ** Demo generator (the [auto_refresh] block) *)

(** [clamp(v, lo, hi) = max(lo, min(hi, v))] with float bounds. *)
Definition clamp (v : value) (lo hi : Q) : res value :=
  match as_num v with
  | Some q =>
      let m := if negb (Qle_bool hi q) then v else VFloat hi in
      match as_num m with
      | Some p => Ok (if negb (Qle_bool p lo) then m else VFloat lo)
      | None => Raise TypeError
      end
  | None => Raise TypeError
  end.

Definition list_item {A} (l : list A) (i : nat) : M A :=
  match l !! i with
  | Some x => ret x
  | None => raise IndexError
  end.

(** [cur > b["upper"] + margin] *)
Definition above (cur : value) (b : Shelf) (margin : Z) : res bool :=
  lim ← py_add (upper b) (VInt margin);
  py_gt cur lim.

Section Demo.

(** [f"{x:.1f}"], Python's fixed-point rendering of a number. *)
Variable fmt_1f : value -> string.

(** The random numbers of one tick: [draws i] is the
    [random.uniform] result used for shelf [i]. *)
Variable draws : nat -> Q.

(** Lines 616-624. *)
Definition demo_alarm_heuristic (now : Q) (i : nat) (cur : value) (b : Shelf) : M unit :=
  let shelf := VInt (Z.of_nat i) in
  hot ← lift (above cur b 6);
  if (hot : bool) then
    add_alarm now "CRITICAL" shelf (VStr "OVERHEAT")
      (VStr (fmt_1f cur +:+ "°C >> " +:+ fmt_1f (upper b) +:+ "°C")) (VBool false) ;;
    clear_alarm now "ERROR" shelf (VStr "OVERTEMP")
  else
    warm ← lift (above cur b 3);
    if (warm : bool) then
      add_alarm now "ERROR" shelf (VStr "OVERTEMP")
        (VStr (fmt_1f cur +:+ "°C > " +:+ fmt_1f (upper b) +:+ "°C")) (VBool false) ;;
      clear_alarm now "CRITICAL" shelf (VStr "OVERHEAT")
    else
      clear_alarm now "ERROR" shelf (VStr "OVERTEMP") ;;
      clear_alarm now "CRITICAL" shelf (VStr "OVERHEAT").

(** Lines 605-624: the body of [for i in range(num_shelves)]. *)
Definition demo_shelf (now : Q) (i : nat) : M unit :=
  bs ← gets shelves;
  b ← list_item bs i;
  lt ← gets latest_temp;
  t ← list_item lt i;
  cur0 ← (if truthy t then ret t
          else sum ← lift (py_add (lower b) (upper b)); lift (py_div sum 2%positive));
  cur1 ← lift (if truthy (is_on b) then py_add cur0 (VFloat (draws i))
               else py_sub cur0 (VFloat (draws i)));
  cur ← lift (clamp cur1 MIN_TEMP MAX_TEMP);
  latest_temp_store (VInt (Z.of_nat i)) cur ;;
  hist_append (VInt (Z.of_nat i)) cur ;;
  demo_alarm_heuristic now i cur b.

(** Lines 626-633. *)
Definition demo_maintenance (now : Q) : M unit :=
  bs ← gets shelves;
  (if existsb (fun b => truthy (is_on b)) bs then
     tick0 ← gets last_tick;
     let delta_h := VFloat ((now - tick0) / 3600) in
     fh0 ← gets (fun s => fan_hours (maintenance s));
     fh ← lift (py_add fh0 delta_h);
     modify (set_maintenance (fun m =>
       mkMaintenance fh (element_hours m) (fan_life_hours m) (element_life_hours m))) ;;
     eh0 ← gets (fun s => element_hours (maintenance s));
     eh ← lift (py_add eh0 delta_h);
     modify (set_maintenance (fun m =>
       mkMaintenance (fan_hours m) eh (fan_life_hours m) (element_life_hours m)))
   else ret tt) ;;
  modify (set_last_tick now) ;;
  modify (set_last_update_ts now).

Definition demo_tick (now : Q) : M unit :=
  n ← gets num_shelves;
  for_each (demo_shelf now) (seq 0 n) ;;
  demo_maintenance now.

(** One scheduler tick: the demo generator or the serial reader,
    never both. *)
Definition tick (now : Q) (port : list rx) : M unit :=
  demo ← gets demo_mode;
  if (demo : bool) then demo_tick now else read_from_pi now port.

End Demo.

(** ** The earlier prototype ([dashboard.py])

    Alarms are kept per shelf, [{i: [] for i in range(NUM_SHELVES)}],
    and a name is raised at most once per shelf. *)
Module Prototype.

Definition NUM_SHELVES : nat := 2.

Record Alarm : Type := mkAlarm {
  name : string;
  severity : string;
  ack : bool;
  desc : string;
  ts : Q
}.

(** The text of a log line; every line is stamped with the time it
    was written at. *)
Inductive log_text : Type :=
| Triggered (shelf : Z) (nm sev : string)   (* "Alarm triggered: Shelf <shelf> <name> (<severity>)" *)
| Acknowledged (shelf : Z) (nm : string).   (* "Alarm acknowledged: Shelf <shelf> <name>" *)

Record State : Type := mkState {
  alarms : gmap Z (list Alarm);
  logs : list (Q * log_text)
}.

Definition init : State :=
  {| alarms := <[1 := []]> (<[0 := []]> ∅); logs := [] |}.

(** [log(msg)] on [deque(maxlen=300)]. *)
Definition log (now : Q) (msg : log_text) (s : State) : State :=
  mkState (alarms s) (deque_append 300 (now, msg) (logs s)).

(** [add_alarm(shelf, name, severity, description)] *)
Definition add_alarm (now : Q) (shelf : Z) (nm sev description : string)
    (s : State) : State * res unit :=
  match alarms s !! shelf with
  | None => (s, Raise KeyError)
  | Some arr =>
      if negb (existsb (fun a => String.eqb (name a) nm) arr) then
        (log now (Triggered shelf nm sev)
           (mkState (<[shelf := arr ++ [mkAlarm nm sev false description now]]> (alarms s))
                    (logs s)),
         Ok tt)
      else (s, Ok tt)
  end.

End Prototype.


(** ** Auxiliary definitions used by the statements *)

(** What [add_alarm] leaves behind when it inserts. *)
Definition raised (now : Q) (sev : string) (shelf name desc ack : value)
    (s : Session) : Session :=
  set_logs (deque_append LOG_LIMIT (now, LogAlarm sev shelf name))
    (set_alarms (insert sev (bucket sev s ++ [mkAlarm shelf name desc now ack])) s).

(** The arguments an alarm-list element hands to [add_alarm]:
    severity, name, description and acknowledged flag; [None] when the
    element is not flagged active. *)
Definition alarm_args : Type := string * value * value * value.

(** What [status_alarm] reads from an element (lines 363-369). *)
Definition status_alarm_args (a : value) : res (option alarm_args) :=
  name ← py_get a "name" (VStr "ALARM");
  active ← py_get a "active" (VBool false);
  sev0 ← py_get a "severity" (VStr "ERROR");
  sev ← py_upper sev0;
  desc ← py_get a "desc" name;
  if truthy active then
    ack ← py_get a "ack" (VBool false);
    Ok (Some (sev, name, desc, ack))
  else Ok None.

(** What [alarm_state_alarm] reads from an element (lines 392-394). *)
Definition alarm_state_args (a : value) : res (option alarm_args) :=
  sev0 ← py_get a "severity" VNone;
  sev ← py_upper (if truthy sev0 then sev0 else VStr "ERROR");
  active ← py_get a "active" VNone;
  if truthy active then
    name ← py_item a "name";
    desc ← py_get a "desc" name;
    ack ← py_get a "ack" (VBool false);
    Ok (Some (sev, name, desc, ack))
  else Ok None.

(** Raise what was read from one element. *)
Definition raise_parsed (now : Q) (idx : value) (p : res (option alarm_args)) : M unit :=
  match p with
  | Raise e => raise e
  | Ok None => ret tt
  | Ok (Some (sev, name, desc, ack)) => add_alarm now sev idx name desc ack
  end.

(** ** Registry keys, in the words of the specification *)

(** The shelf of record [a] is the integer [i]: Python compares
    numbers by value, so [1], [1.0] and [True] are the same shelf. *)
Definition shelf_is (i : Z) (a : Alarm) : bool :=
  match as_num (alarm_shelf a) with
  | Some q => Qeq_bool q (inject_Z i)
  | None => false
  end.

(** The name of record [a] is the string [nm]. *)
Definition name_is (nm : string) (a : Alarm) : bool :=
  match alarm_name a with
  | VStr m => String.eqb m nm
  | _ => false
  end.

(** A record with the key (sev, shelf [i], name [nm]) is registered. *)
Definition has_key (sev : string) (i : Z) (nm : string) (s : Session) : Prop :=
  exists a, a ∈ bucket sev s /\ shelf_is i a = true /\ alarm_name a = VStr nm.

(** The records of a bucket under the key (shelf [i], name [nm]). *)
Definition keyed (i : Z) (nm : string) (l : list Alarm) : list Alarm :=
  List.filter (fun a => shelf_is i a && name_is nm a) l.

(** [a'] is the record [a] acknowledged: the flag is [True], the rest
    is as it was. *)
Definition flagged (a a' : Alarm) : Prop :=
  alarm_ack a' = VBool true
  /\ alarm_shelf a' = alarm_shelf a
  /\ alarm_name a' = alarm_name a
  /\ alarm_desc a' = alarm_desc a
  /\ alarm_ts a' = alarm_ts a.

(** ** Alarm snapshots, in the words of the specification *)

(** The severities a snapshot replaces. *)
Definition covered (sev : string) : bool :=
  String.eqb sev "CRITICAL" || String.eqb sev "ERROR".

(** Name, description and acknowledged flag of the elements flagged
    active under severity [sev], in the order of the snapshot. *)
Definition active_for (sev : string) (parsed : list (option alarm_args))
    : list (value * value * value) :=
  omap (fun p => match p with
                 | Some (sv, name, desc, ack) =>
                     if String.eqb sv sev then Some (name, desc, ack) else None
                 | None => None
                 end) parsed.

(** The elements that get a record: the first one of each name, unless
    the name is among [seen], the names the shelf already has. *)
Fixpoint first_per_name (seen : list value) (l : list (value * value * value))
    : list (value * value * value) :=
  match l with
  | [] => []
  | (name, desc, ack) :: l' =>
      if existsb (fun n => py_eq n name) seen then first_per_name seen l'
      else (name, desc, ack) :: first_per_name (seen ++ [name]) l'
  end.

(** The record raised at [now] for shelf [i] from one element. *)
Definition snapshot_record (now : Q) (i : Z) (x : value * value * value) : Alarm :=
  let '(name, desc, ack) := x in mkAlarm (VInt i) name desc now ack.

(** The names of the records shelf [i] has in a bucket. *)
Definition names_on (i : Z) (l : list Alarm) : list value :=
  map alarm_name (List.filter (shelf_is i) l).

(** An authoritative snapshot [items] for shelf [i], read with
    [args_of] at [now], took session [s] to [s'] with outcome [r]. The
    elements [taken] were read, the first of [rest], if any, could not
    be; [parsed] is what the read ones said. *)
Definition snapshot_applied (args_of : value -> res (option alarm_args))
    (items : list value) (now : Q) (i : Z) (s s' : Session) (r : res unit) : Prop :=
  exists taken rest parsed,
    items = taken ++ rest
    /\ map args_of taken = map Ok parsed
    /\ match r with
       | Ok _ => rest = []
       | Raise e => exists bad rest', rest = bad :: rest' /\ args_of bad = Raise e
       end
    /\ (forall sev, covered sev = true ->
          bucket sev s' =
            List.filter (fun a => negb (shelf_is i a)) (bucket sev s)
            ++ map (snapshot_record now i) (first_per_name [] (active_for sev parsed)))
    /\ (forall sev, covered sev = false ->
          bucket sev s' =
            bucket sev s
            ++ map (snapshot_record now i)
                 (first_per_name (names_on i (bucket sev s)) (active_for sev parsed)))
    /\ (forall sev,
          List.filter (fun a => negb (shelf_is i a)) (bucket sev s')
          = List.filter (fun a => negb (shelf_is i a)) (bucket sev s)).

(** ** Sample telemetry *)

(** An ALARM_STATE message for shelf 1 whose only alarm is an active
    one of severity "warning". *)
Definition msg_door_warning : value :=
  VDict [("type", VStr "ALARM_STATE"); ("shelf", VInt 1);
         ("alarms", VList [VDict [("name", VStr "DOOR_OPEN");
                                  ("severity", VStr "warning");
                                  ("active", VBool true)]])].

(** The session after start-up and that one message. *)
Definition s_door_warning : Session :=
  fst (process_msg 1 msg_door_warning (init_state 0)).

(** A session holding alarms for shelves 0 and 1, and an ALARM_STATE
    snapshot for shelf 1 (index 0). *)
Definition s_two_alarms : Session :=
  set_alarms (fun _ =>
      <["CRITICAL" := [mkAlarm (VInt 0) (VStr "OVERHEAT") (VStr "old") 1 (VBool true)]]>
        (<["ERROR" := [mkAlarm (VInt 0) (VStr "OVERTEMP") (VStr "old") 1 (VBool false);
                       mkAlarm (VInt 1) (VStr "OVERTEMP") (VStr "old") 1 (VBool false)]]> ∅))
    (init_state 0).

Definition snapshot_items : list value :=
  [VDict [("name", VStr "FAN_FAIL"); ("severity", VStr "critical");
          ("active", VBool true); ("ack", VBool true)];
   VDict [("name", VStr "OVERTEMP"); ("severity", VStr "error"); ("active", VBool false)]].

Definition msg_snapshot : value :=
  VDict [("type", VStr "ALARM_STATE"); ("shelf", VInt 1); ("alarms", VList snapshot_items)].

Definition entry_snapshot : value :=
  VDict [("shelf", VInt 1); ("alarms", VList snapshot_items)].

(** [m] keeps the invariant [I] of the session, whether it returns or
    raises. *)
Definition preserves {A} (I : Session -> Prop) (m : M A) : Prop :=
  forall s, I s -> I (fst (m s)).

(** The two life ceilings of the maintenance record. *)
Definition ceilings (s : Session) : value * value :=
  (fan_life_hours (maintenance s), element_life_hours (maintenance s)).


(** A STATUS message of three entries; the first and third carry
    [fanHours], only the first carries [elementHours]. *)
Definition msg_three_hours : value :=
  VDict [("type", VStr "STATUS");
         ("shelves", VList [VDict [("shelf", VInt 1); ("fanHours", VFloat 10);
                                   ("elementHours", VFloat 20)];
                            VDict [("shelf", VInt 2)];
                            VDict [("shelf", VInt 3); ("fanHours", VFloat 12)]]);
         ("maintenance", VList [VInt 5000; VInt 6000])].

(** A STATUS message without a maintenance field. *)
Definition fields_no_ceilings : list (string * value) :=
  [("type", VStr "STATUS");
   ("shelves", VList [VDict [("shelf", VInt 1)]; VDict [("shelf", VInt 2)];
                      VDict [("shelf", VInt 3)]])].

Definition msg_no_ceilings : value := VDict fields_no_ceilings.

(** The session after start-up and [msg_three_hours]. *)
Definition s_three_hours : Session :=
  fst (process_msg 1 msg_three_hours (init_state 0)).

(** The registry holds a record under the key (sev, shelf i, name nm). *)
Definition has_alarm (sev : string) (i : Z) (nm : string) (s : Session) : bool :=
  existsb (same_key (VInt i) (VStr nm)) (bucket sev s).



(** A session that received, while live, a reading of 90 degrees for
    shelf 1 and a snapshot raising both OVERHEAT and OVERTEMP on it. *)
Definition msg_live_90 : value :=
  VDict [("type", VStr "LIVE_TEMP"); ("shelf", VInt 1); ("value", VFloat 90)].

Definition msg_both_alarms : value :=
  VDict [("type", VStr "ALARM_STATE"); ("shelf", VInt 1);
         ("alarms", VList [VDict [("name", VStr "OVERHEAT"); ("severity", VStr "CRITICAL");
                                  ("active", VBool true)];
                           VDict [("name", VStr "OVERTEMP"); ("severity", VStr "ERROR");
                                  ("active", VBool true)]])].

Definition s_both_alarms : Session :=
  fst (for_each (process_msg 1) [msg_live_90; msg_both_alarms] (init_state 0)).

(** Stand-ins for the number rendering and the random draws of a
    sample tick. *)
Definition fmt_sample (v : value) : string := "".
Definition draws_sample (i : nat) : Q := 1 # 10.

(** ** Session invariants *)

(** The per-shelf arrays agree with [num_shelves]: [shelves] and
    [latest_temp] have that many items and [hist] has exactly the keys
    [0 .. num_shelves - 1]. *)
Definition arrays_ok (s : Session) : Prop :=
  length (shelves s) = num_shelves s
  /\ length (latest_temp s) = num_shelves s
  /\ forall i : Z, is_Some (hist s !! i) <-> 0 <= i < Z.of_nat (num_shelves s).

(** The two standing buckets of the registry are there. *)
Definition buckets_ok (s : Session) : Prop :=
  is_Some (alarms s !! "CRITICAL") /\ is_Some (alarms s !! "ERROR").

Definition well_formed (s : Session) : Prop := arrays_ok s /\ buckets_ok s.

(** The log and every history deque are within their [maxlen]. *)
Definition bounded (s : Session) : Prop :=
  (length (logs s) <= LOG_LIMIT)%nat
  /\ forall (i : Z) d, hist s !! i = Some d -> (length d <= HISTORY_LEN)%nat.

(** LIVE_TEMP messages for shelves 2, 3 and 0 of a two-shelf store. *)
Definition fields_live_2 : list (string * value) :=
  [("type", VStr "LIVE_TEMP"); ("shelf", VInt 2); ("value", VFloat 71)].

Definition fields_live_3 : list (string * value) :=
  [("type", VStr "LIVE_TEMP"); ("shelf", VInt 3); ("value", VFloat 71)].

Definition fields_live_0 : list (string * value) :=
  [("type", VStr "LIVE_TEMP"); ("shelf", VInt 0); ("value", VFloat 71)].

(** How lines 332-337 read the [setpoint, upper, lower] array of a
    STATUS entry, by the shape of the entry's "setpoint" field. *)
Definition entry_bounds (d : list (string * value)) : option (value * value * value) :=
  match assoc "setpoint" d with
  | None => Some (VFloat 75, VFloat 77, VFloat 73)
  | Some (VList []) => Some (VFloat 75, VFloat (75 + 2), VFloat (75 - 2))
  | Some (VList [a]) =>
      match py_add a (VInt 2), py_sub a (VInt 2) with
      | Ok u, Ok l => Some (a, u, l)
      | _, _ => None
      end
  | Some (VList [a; b]) =>
      match py_sub a (VInt 2) with
      | Ok l => Some (a, b, l)
      | Raise _ => None
      end
  | Some (VList (a :: b :: c :: _)) => Some (a, b, c)
  | Some _ => None
  end.

(** A STATUS entry for shelf 2 that gives only the setpoint. *)
Definition fields_entry_setpoint : list (string * value) :=
  [("shelf", VInt 2); ("temp", VFloat 70); ("setpoint", VList [VInt 60]);
   ("systemOn", VBool false)].

(** [a'] is the record [a] with, at most, its acknowledged flag raised. *)
Definition same_but_ack (a a' : Alarm) : Prop :=
  alarm_shelf a' = alarm_shelf a
  /\ alarm_name a' = alarm_name a
  /\ alarm_desc a' = alarm_desc a
  /\ alarm_ts a' = alarm_ts a
  /\ (truthy (alarm_ack a) = true -> truthy (alarm_ack a') = true).

(** What [ack_alarm] leaves behind when it acknowledges a record. *)
Definition acknowledged (now : Q) (sev : string) (i : Z) (nm : string) (s : Session) : Session :=
  let s1 := set_logs (deque_append LOG_LIMIT (now, LogAck sev (VInt i) (VStr nm)))
              (set_alarms (insert sev (ack_first (VInt i) (VStr nm) (bucket sev s))) s) in
  if link_open s then
    set_outbox (fun o => o ++ [VDict [("type", VStr "ACK_ALARM"); ("shelf", VInt (i + 1));
                                     ("name", VStr nm)]]) s1
  else s1.

(** ** Sidebar setpoint buttons ([render_setpoint_row]) *)

Definition TEMP_STEP : Q := 1 # 2.

(** [s.shelves[i]["setpoint"] = clamp(s.shelves[i]["setpoint"] -/+ TEMP_STEP,
    MIN_TEMP, MAX_TEMP)], for [i] in [range(num_shelves)]; [up] tells
    the plus button from the minus button. *)
Definition setpoint_click (up : bool) (i : nat) : M unit :=
  bs ← gets shelves;
  b ← list_item bs i;
  v ← lift (if up then py_add (setpoint b) (VFloat TEMP_STEP)
            else py_sub (setpoint b) (VFloat TEMP_STEP));
  c ← lift (clamp v MIN_TEMP MAX_TEMP);
  modify (set_shelves (alter (fun b => mkShelf (is_on b) c (upper b) (lower b)) i)).

(** The latest reading of shelf [i] is a float within the absolute
    range of the demo generator. *)
Definition reading_in_range (i : nat) (s : Session) : Prop :=
  exists q, latest_temp s !! i = Some (VFloat q) /\ (MIN_TEMP <= q <= MAX_TEMP)%Q.

(** A LIVE_TEMP message for shelf identity [n] carrying [v]. *)
Definition live_msg (n : Z) (v : value) : value :=
  VDict [("type", VStr "LIVE_TEMP"); ("shelf", VInt n); ("value", v)].

(** The content of a deque that started as [d] and took the items
    [xs] one after the other. *)
Definition window (maxlen : nat) (d xs : list value) : list value :=
  drop (length (d ++ xs) - maxlen) (d ++ xs).

(** The decoded values among the lines of a batch, in order. *)
Definition json_values (port : list rx) : list value :=
  omap (fun r => match r with RxJson v => Some v | _ => None end) port.

(** The message is a JSON object whose "type" is none of the four
    kinds [process_msg] knows (or is missing). *)
Definition unrecognized (d : list (string * value)) : Prop :=
  let t := default VNone (assoc "type" d) in
  py_eq t (VStr "STATUS") = false
  /\ py_eq t (VStr "LIVE_TEMP") = false
  /\ py_eq t (VStr "ALARM_STATE") = false
  /\ py_eq t (VStr "LOG") = false.

(** Two sessions agree on everything but the log. *)
Definition same_but_logs (s s' : Session) : Prop :=
  s' = set_logs (fun _ => logs s') s.

(** A decoded object of an unknown kind. *)
Definition fields_ping : list (string * value) := [("type", VStr "PING"); ("seq", VInt 7)].

(** ** The prototype's acknowledge ([dashboard.py], [acknowledge_alarm]) *)
Module PrototypeAck.

(** [a["ack"] = True] on a record named [nm]. *)
Definition ack_named (nm : string) (a : Prototype.Alarm) : Prototype.Alarm :=
  if String.eqb (Prototype.name a) nm
  then Prototype.mkAlarm (Prototype.name a) (Prototype.severity a) true
         (Prototype.desc a) (Prototype.ts a)
  else a.

(** One log line per record the loop acknowledges. *)
Definition ack_logs (now : Q) (shelf : Z) (nm : string) (arr : list Prototype.Alarm)
    (lg : list (Q * Prototype.log_text)) : list (Q * Prototype.log_text) :=
  fold_left (fun lg a => if String.eqb (Prototype.name a) nm
                         then deque_append 300 (now, Prototype.Acknowledged shelf nm) lg
                         else lg) arr lg.

(** [acknowledge_alarm(shelf, name)]: every record of the shelf with
    that name is flagged, and each one is logged. *)
Definition acknowledge_alarm (now : Q) (shelf : Z) (nm : string)
    (s : Prototype.State) : Prototype.State * res unit :=
  match Prototype.alarms s !! shelf with
  | None => (s, Raise KeyError)
  | Some arr =>
      (Prototype.mkState (<[shelf := map (ack_named nm) arr]> (Prototype.alarms s))
         (ack_logs now shelf nm arr (Prototype.logs s)),
       Ok tt)
  end.

End PrototypeAck.

(** The prototype after one alarm was raised on shelf 0. *)
Definition proto_one_alarm : Prototype.State :=
  fst (Prototype.add_alarm 1 0 "OVERTEMP" "ERROR" "Temperature above safe limit" Prototype.init).

(** ** Barcode counts (the "Barcodes" tab) *)
Module Barcode.

Inductive mode : Type := LOAD | UNLOAD.

(** The code points [str.strip()] removes, those [str.isspace()]
    holds of: the ASCII white space and separators, NEL, the no-break
    space and the Unicode space separators. *)
Definition space_points : list N :=
  [9; 10; 11; 12; 13; 28; 29; 30; 31; 32; 133; 160; 5760;
   8192; 8193; 8194; 8195; 8196; 8197; 8198; 8199; 8200; 8201; 8202;
   8232; 8233; 8239; 8287; 12288]%N.

Definition is_space (c : string) : bool :=
  match decode c with
  | Some n => String.eqb (encode n) c && existsb (N.eqb n) space_points
  | None => false
  end.

(** [not sku.strip()] *)
Definition blank (s : string) : bool := forallb is_space (code_points s).

(** [barcode_counts[sku]] on the [defaultdict(int)]. *)
Definition count (counts : gmap string Z) (sku : string) : Z :=
  default 0 (counts !! sku).

(** Lines 714-718: the form was submitted with [sku]; the image-name
    bookkeeping of line 719 is left out. *)
Definition submit (m : mode) (sku : string) (counts : gmap string Z) : gmap string Z :=
  if blank sku then counts
  else match m with
       | LOAD => <[sku := count counts sku + 1]> counts
       | UNLOAD => <[sku := Z.max 0 (count counts sku - 1)]> counts
       end.

End Barcode.

(** ** Records of shelves beyond a new count *)

(** Every record of [s] for a shelf index at or beyond [count] is
    still in its bucket in [x]. *)
Definition orphans_kept (count : nat) (s x : Session) : Prop :=
  forall sev a j,
    a ∈ bucket sev s -> alarm_shelf a = VInt j -> Z.of_nat count <= j ->
    a ∈ bucket sev x.

(** A three-shelf session with an alarm on the third shelf, and a
    STATUS message that reports two shelves. *)
Definition s_three_shelves : Session :=
  fst (process_msg 1
         (VDict [("type", VStr "STATUS");
                 ("shelves", VList [VDict [("shelf", VInt 1)]; VDict [("shelf", VInt 2)];
                                    VDict [("shelf", VInt 3);
                                           ("alarms", VList [VDict [("name", VStr "FAN_FAIL");
                                                                    ("active", VBool true)]])]])])
         (init_state 0)).

Definition fields_two_shelves : list (string * value) :=
  [("type", VStr "STATUS");
   ("shelves", VList [VDict [("shelf", VInt 1)]; VDict [("shelf", VInt 2)]])].

(** A STATUS entry for shelf identity 5. *)
Definition fields_entry_5 : list (string * value) :=
  [("shelf", VInt 5); ("temp", VFloat 70)].

(** An ALARM_STATE snapshot for shelf 1 whose first element is flagged
    active but has no name. *)
Definition fields_nameless : list (string * value) :=
  [("type", VStr "ALARM_STATE"); ("shelf", VInt 1);
   ("alarms", VList [VDict [("active", VBool true)];
                     VDict [("name", VStr "FAN_FAIL"); ("active", VBool true)]])].

(** The setpoint array of the entry [d] is read without fault as
    setpoint [sp], upper [up] and lower [lo] (lines 332-337). *)
Definition entry_bounds_ok (d : list (string * value)) (sp up lo : value) : Prop :=
  exists sp_arr n,
    py_get (VDict d) "setpoint" (VList [VFloat 75; VFloat 77; VFloat 73]) = Ok sp_arr
    /\ py_len sp_arr = Ok n
    /\ (if (0 <? n)%nat then py_nth sp_arr 0 else Ok (VFloat 75)) = Ok sp
    /\ (if (1 <? n)%nat then py_nth sp_arr 1 else py_add sp (VInt 2)) = Ok up
    /\ (if (2 <? n)%nat then py_nth sp_arr 2 else py_sub sp (VInt 2)) = Ok lo.

(** ** The prototype's simulator (dashboard.py, lines 14-27 and 40-57) *)
Module PrototypeTick.

Record Bounds : Type := mkBounds {
  setpoint : Q;
  upper : Q;
  lower : Q;
  isOn : bool
}.

(** [temps], [bounds] and [history] beside the alarm lists and the
    log of [Prototype.State]. *)
Record Sim : Type := mkSim {
  temps : list Q;
  bounds : list Bounds;
  history : gmap Z (list Q);
  core : Prototype.State
}.

Definition HISTORY_LEN : nat := 120.

Definition default_bounds : Bounds := mkBounds 75 80 73 true.

Definition init : Sim :=
  mkSim [72%Q; 72%Q] [default_bounds; default_bounds]
        (<[1 := []]> (<[0 := []]> ∅)) Prototype.init.

(** [x > y] on floats. *)
Definition gtb (x y : Q) : bool := negb (Qle_bool x y).

(** [if c: add_alarm(i, nm, "ERROR", description)] *)
Definition raise_if (c : bool) (now : Q) (i : Z) (nm description : string)
    (s : Sim) : Sim * res unit :=
  if c then
    let '(c', r) := Prototype.add_alarm now i nm "ERROR" description (core s) in
    (mkSim (temps s) (bounds s) (history s) c', r)
  else (s, Ok tt).

(** Lines 42-57: the loop body for shelf [i], with [delta] the
    value drawn by [random.uniform(-0.3, 0.3)]. *)
Definition shelf_step (now delta : Q) (i : nat) (s : Sim) : Sim * res unit :=
  match bounds s !! i with
  | None => (s, Raise IndexError)
  | Some b =>
      if negb (isOn b) then (s, Ok tt)
      else
        match temps s !! i with
        | None => (s, Raise IndexError)
        | Some t0 =>
            let t := (t0 + delta)%Q in
            let s1 := mkSim (<[i := t]> (temps s)) (bounds s) (history s) (core s) in
            match history s1 !! Z.of_nat i with
            | None => (s1, Raise KeyError)
            | Some h =>
                let s2 := mkSim (temps s1) (bounds s1)
                            (<[Z.of_nat i := deque_append HISTORY_LEN t h]> (history s1))
                            (core s1) in
                let '(s3, r) :=
                  raise_if (gtb t (upper b + 3)) now (Z.of_nat i) "OVERTEMP"
                    "Temperature above safe limit" s2 in
                match r with
                | Raise e => (s3, Raise e)
                | Ok _ =>
                    raise_if (gtb (lower b - 3) t) now (Z.of_nat i) "UNDERTEMP"
                      "Temperature below safe limit" s3
                end
            end
        end
  end.

Fixpoint run_shelves (now : Q) (draws : nat -> Q) (l : list nat) (s : Sim)
    : Sim * res unit :=
  match l with
  | [] => (s, Ok tt)
  | i :: l' =>
      let '(s', r) := shelf_step now (draws i) i s in
      match r with
      | Ok _ => run_shelves now draws l' s'
      | Raise e => (s', Raise e)
      end
  end.

(** [update_dummy_data()]: [for i in range(NUM_SHELVES)]. *)
Definition update_dummy_data (now : Q) (draws : nat -> Q) : Sim -> Sim * res unit :=
  run_shelves now draws (seq 0 Prototype.NUM_SHELVES).

(** Every shelf below [NUM_SHELVES] has its temperature, bounds,
    history and alarm list. *)
Definition shaped (s : Sim) : Prop :=
  length (temps s) = Prototype.NUM_SHELVES
  /\ length (bounds s) = Prototype.NUM_SHELVES
  /\ (forall i : nat, (i < Prototype.NUM_SHELVES)%nat -> is_Some (history s !! Z.of_nat i))
  /\ (forall i : nat, (i < Prototype.NUM_SHELVES)%nat ->
        is_Some (Prototype.alarms (core s) !! Z.of_nat i)).

(** What the store holds for shelf [i]. *)
Definition view : Type :=
  option Q * option Bounds * option (list Q) * option (list Prototype.Alarm).

Definition shelf_view (i : nat) (s : Sim) : view :=
  (temps s !! i, bounds s !! i, history s !! Z.of_nat i,
   Prototype.alarms (core s) !! Z.of_nat i).

(** A record the simulator raises at [now] for a shelf with bounds
    [b] at temperature [t]. *)
Definition dummy_alarm (now : Q) (b : Bounds) (t : Q) (a : Prototype.Alarm) : Prop :=
  Prototype.severity a = "ERROR"
  /\ Prototype.ack a = false
  /\ Prototype.ts a = now
  /\ ((Prototype.name a = "OVERTEMP" /\ (upper b + 3 < t)%Q)
      \/ (Prototype.name a = "UNDERTEMP" /\ (t < lower b - 3)%Q)).

Definition named (nm : string) (a : Prototype.Alarm) : Prop := Prototype.name a = nm.

(** One simulator tick took shelf view [v] to [v'], the shelf's draw
    being [delta]. *)
Definition ticked (now delta : Q) (v v' : view) : Prop :=
  match v with
  | (Some t0, Some b, Some h, Some arr) =>
      if isOn b then
        exists new,
          v' = (Some (t0 + delta)%Q, Some b,
                Some (deque_append HISTORY_LEN (t0 + delta)%Q h), Some (arr ++ new))
          /\ Forall (dummy_alarm now b (t0 + delta)%Q) new
          /\ ((upper b + 3 < t0 + delta)%Q -> Exists (named "OVERTEMP") (arr ++ new))
          /\ ((t0 + delta < lower b - 3)%Q -> Exists (named "UNDERTEMP") (arr ++ new))
      else v' = v
  | _ => False
  end.

End PrototypeTick.

(** A simulator whose first shelf is switched off and whose second
    shelf sits at its upper bound. *)
Definition sim_one_off : PrototypeTick.Sim :=
  PrototypeTick.mkSim [72%Q; 80%Q]
    [PrototypeTick.mkBounds 75 80 73 false; PrototypeTick.default_bounds]
    (<[1 := []]> (<[0 := []]> ∅)) Prototype.init.

(** A session whose fan hours were reported, by a STATUS entry, as an
    integer beyond the float range. *)
Definition s_huge_hours : Session :=
  set_maintenance (fun m =>
    mkMaintenance (VInt (10 ^ 400)) (element_hours m) (fan_life_hours m)
      (element_life_hours m)) (init_state 0).

(** A session with an unacknowledged record in each of CRITICAL,
    ERROR and WARNING. *)
Definition s_three_severities : Session :=
  set_alarms (fun _ =>
      <["CRITICAL" := [mkAlarm (VInt 0) (VStr "OVERHEAT") (VStr "hot") 1 (VBool false)]]>
        (<["ERROR" := [mkAlarm (VInt 1) (VStr "OVERTEMP") (VStr "warm") 1 (VBool false)]]>
           (<["WARNING" := [mkAlarm (VInt 0) (VStr "DOOR_OPEN") (VStr "door") 1 (VBool false)]]>
              ∅)))
    (init_state 0).

(** ALARM_STATE snapshots for shelf 1: one that lists the door
    warning as active and acknowledged, and one that lists nothing. *)
Definition msg_door_acked : value :=
  VDict [("type", VStr "ALARM_STATE"); ("shelf", VInt 1);
         ("alarms", VList [VDict [("name", VStr "DOOR_OPEN");
                                  ("severity", VStr "warning");
                                  ("active", VBool true); ("ack", VBool true)]])].

Definition msg_no_alarms : value :=
  VDict [("type", VStr "ALARM_STATE"); ("shelf", VInt 1); ("alarms", VList [])].

(** The prototype after ERROR "OVERTEMP" was raised on shelf 0. *)
Definition proto_overtemp : Prototype.State :=
  fst (Prototype.add_alarm 1 0 "OVERTEMP" "ERROR" "x" Prototype.init).

(** ** Resizes and batches, in the words of the specification *)

(** The bucket of [sev] in [x] holds the records it held in [s], in
    place, possibly followed by new ones. *)
Definition kept_under (sev : string) (s x : Session) : Prop :=
  exists new, bucket sev x = bucket sev s ++ new.

(** Lines 327-378: what a STATUS message does after the resize. *)
Definition status_rest (now : Q) (msg : value) (entries : list value) : M unit :=
  for_each (status_entry now) (enumerate entries) ;;
  status_maintenance msg ;;
  modify (set_last_update_ts now).


(** What a batch does when its message number [length before]
    faults with [e]: the messages before it are applied, the ones after
    it are not. *)
Definition stops_with (now : Q) (e : exn) (before : list value) (s : Session)
    : Session * res unit :=
  match for_each (process_msg now) before s with
  | (s1, Ok _) => (s1, Raise e)
  | (s1, Raise e') => (s1, Raise e')
  end.

(** A STATUS message that reports three shelves. *)
Definition fields_three_shelves : list (string * value) :=
  [("type", VStr "STATUS");
   ("shelves", VList [VDict [("shelf", VInt 1)]; VDict [("shelf", VInt 2)];
                      VDict [("shelf", VInt 3)]])].


(** The start-up session in live mode with the serial link open. *)
Definition s_connected : Session :=
  let s := init_state 0 in
  mkSession false (num_shelves s) (shelves s) (hist s) (latest_temp s) (alarms s) (logs s)
    (maintenance s) true (outbox s) (last_update_ts s) (last_tick s).

(** * Properties *)

(** ** Running the monad *)

Ltac unfold_m :=
  unfold log in *;
  unfold mbind, M_bind, bind, mret, M_ret, ret, lift, gets, modify, raise in *.


Lemma bind_raise {A B} (m : M A) (k : A -> M B) s s' e :
  m s = (s', Raise e) -> (m ≫= k) s = (s', Raise e).
Proof. intros H. unfold_m. by rewrite H. Qed.


Lemma for_each_app {A} (body : A -> M unit) l1 l2 s :
  for_each body (l1 ++ l2) s =
  match for_each body l1 s with
  | (s', Ok _) => for_each body l2 s'
  | (s', Raise e) => (s', Raise e)
  end.
Proof.
  revert s. induction l1 as [|x l1 IH]; intros s; simpl; [done|].
  unfold_m. destruct (body x s) as [s1 [[]|e]]; [apply IH | done].
Qed.

Lemma Qle_bool_false p q : Qle_bool p q = false -> (q < p)%Q.
Proof.
  intros H. apply Qnot_le_lt. intros Hle. apply Qle_bool_iff in Hle. congruence.
Qed.

(** ** Buckets *)

Lemma bucket_insert_eq sev l s :
  bucket sev (set_alarms (insert sev l) s) = l.
Proof. unfold bucket; simpl. by rewrite lookup_insert_eq. Qed.

Lemma bucket_insert_ne sev sev' l s :
  sev ≠ sev' -> bucket sev' (set_alarms (insert sev l) s) = bucket sev' s.
Proof. intros Hne. unfold bucket; simpl. by rewrite lookup_insert_ne. Qed.

Lemma bucket_set_logs sev f s : bucket sev (set_logs f s) = bucket sev s.
Proof. done. Qed.



Lemma py_eq_int i j : py_eq (VInt i) (VInt j) = bool_decide (i = j).
Proof.
  simpl. case_bool_decide as H.
  - subst. apply Qeq_bool_iff. reflexivity.
  - apply not_true_is_false. intros Heq. apply Qeq_bool_iff in Heq.
    apply H. unfold Qeq in Heq. simpl in Heq. lia.
Qed.


(** ** Raising an alarm *)

Lemma add_alarm_eq now sev shelf name desc ack s :
  add_alarm now sev shelf name desc ack s =
  match _find_alarm sev shelf name s with
  | Some _ => (s, Ok tt)
  | None => (raised now sev shelf name desc ack s, Ok tt)
  end.
Proof.
  unfold add_alarm, raised. unfold_m. unfold setdefault_bucket, _find_alarm, bucket_append.
  destruct (alarms s !! sev) as [arr|] eqn:Hb.
  - destruct (List.find _ _); done.
  - unfold bucket. simpl. rewrite !lookup_insert_eq, Hb. simpl.
    unfold set_logs, set_alarms. simpl. by rewrite insert_insert_eq, lookup_insert_eq.
Qed.

Lemma find_app_None {A} (f : A -> bool) l x :
  List.find f l = None -> List.find f (l ++ [x]) = if f x then Some x else None.
Proof.
  induction l as [|y l IH]; simpl; [done|].
  destruct (f y); [done | apply IH].
Qed.

Lemma find_None_filter {A} (f : A -> bool) l :
  List.find f l = None -> List.filter f l = [].
Proof.
  induction l as [|y l IH]; simpl; [done|].
  destruct (f y); [done | apply IH].
Qed.

(** The code's key test on an integer shelf and a string name, in
    the words of the specification. *)
Lemma py_eq_shelf_is a i : py_eq (alarm_shelf a) (VInt i) = shelf_is i a.
Proof. unfold shelf_is. by destruct (alarm_shelf a). Qed.

Lemma py_eq_name_is a nm : py_eq (alarm_name a) (VStr nm) = name_is nm a.
Proof. unfold name_is. by destruct (alarm_name a). Qed.

Lemma same_key_spec i nm a :
  same_key (VInt i) (VStr nm) a = shelf_is i a && name_is nm a.
Proof. unfold same_key. by rewrite py_eq_shelf_is, py_eq_name_is. Qed.

Lemma name_is_eq nm a : name_is nm a = true <-> alarm_name a = VStr nm.
Proof.
  unfold name_is. destruct (alarm_name a); split; try discriminate.
  - intros H. apply String.eqb_eq in H. by subst.
  - intros [= ->]. apply String.eqb_refl.
Qed.

Lemma find_alarm_Some_has_key sev i nm s a :
  _find_alarm sev (VInt i) (VStr nm) s = Some a -> has_key sev i nm s.
Proof.
  unfold _find_alarm. intros Hf. apply List.find_some in Hf as [Hin Hk].
  rewrite same_key_spec in Hk. apply andb_true_iff in Hk as [Hs Hn].
  exists a. split; [by apply list_elem_of_In|]. split; [done | by apply name_is_eq].
Qed.

Lemma find_alarm_None_no_key sev i nm s :
  _find_alarm sev (VInt i) (VStr nm) s = None <-> ~ has_key sev i nm s.
Proof.
  split.
  - intros Hf (a & Ha & Hs & Hn). unfold _find_alarm in Hf.
    apply list_elem_of_In in Ha. pose proof (List.find_none _ _ Hf a Ha) as Hk.
    rewrite same_key_spec, Hs in Hk. apply name_is_eq in Hn. simpl in Hk. congruence.
  - intros Hn. destruct (_find_alarm sev (VInt i) (VStr nm) s) as [a|] eqn:Hf; [|done].
    exfalso. apply Hn. by eapply find_alarm_Some_has_key.
Qed.

Lemma has_key_find sev i nm s :
  has_key sev i nm s -> exists a, _find_alarm sev (VInt i) (VStr nm) s = Some a.
Proof.
  intros Hk. destruct (_find_alarm sev (VInt i) (VStr nm) s) as [a|] eqn:Hf; [by eexists|].
  by apply find_alarm_None_no_key in Hf.
Qed.

Lemma shelf_is_refl i name desc t ack : shelf_is i (mkAlarm (VInt i) name desc t ack) = true.
Proof. unfold shelf_is. simpl. apply Qeq_bool_iff. reflexivity. Qed.

Lemma existsb_name_In nm (arr : list Prototype.Alarm) :
  existsb (fun a => String.eqb (Prototype.name a) nm) arr = true
  <-> In nm (map Prototype.name arr).
Proof.
  rewrite existsb_exists, in_map_iff. split.
  - intros (a & Ha & Heq). apply String.eqb_eq in Heq. by exists a.
  - intros (a & Heq & Ha). exists a. split; [done|]. by apply String.eqb_eq.
Qed.

Lemma prototype_add_alarm_eq now shelf nm sev description s arr :
  Prototype.alarms s !! shelf = Some arr ->
  Prototype.add_alarm now shelf nm sev description s =
    (if existsb (fun a => String.eqb (Prototype.name a) nm) arr then s
     else Prototype.log now (Prototype.Triggered shelf nm sev)
            (Prototype.mkState
               (<[shelf := arr ++ [Prototype.mkAlarm nm sev false description now]]>
                  (Prototype.alarms s))
               (Prototype.logs s)),
     Ok tt).
Proof.
  intros Hb. unfold Prototype.add_alarm. rewrite Hb. by destruct (existsb _ arr).
Qed.

(** C3. In [dashboard2.0.py], raising an alarm under the key
    (severity, shelf, name) appends one record, carrying the given
    description, acknowledged flag and the current time, together with
    one log line, when no record with that key is registered; when one
    is, the call changes nothing at all. Either way the key is registered
    afterwards, so a second raise with the same key, whatever its
    description, flag and time, is a no-op; after an insertion the key is
    held by exactly one record, which has the first description, flag and
    time. In the prototype [dashboard.py] the key is the shelf and the
    name only: a raise inserts, and logs, when no record of the shelf has
    the name, and changes nothing when one has, whatever its severity. *)
Theorem add_alarm_idempotent (now now' : Q) (sev : string) (i : Z) (nm : string)
    (desc ack desc' ack' : value) (s : Session) :
  let shelf := VInt i in
  let name := VStr nm in
  let record := mkAlarm shelf name desc now ack in
  let s1 := fst (add_alarm now sev shelf name desc ack s) in
  (~ has_key sev i nm s ->
   add_alarm now sev shelf name desc ack s =
     (set_logs (deque_append LOG_LIMIT (now, LogAlarm sev shelf name))
        (set_alarms (insert sev (bucket sev s ++ [record])) s),
      Ok tt)
   /\ keyed i nm (bucket sev s1) = [record])
  /\ (has_key sev i nm s -> add_alarm now sev shelf name desc ack s = (s, Ok tt))
  /\ has_key sev i nm s1
  /\ add_alarm now' sev shelf name desc' ack' s1 = (s1, Ok tt)
  /\ (forall (p : Prototype.State) (arr : list Prototype.Alarm) (psev description : string),
        Prototype.alarms p !! i = Some arr ->
        (In nm (map Prototype.name arr) ->
         Prototype.add_alarm now i nm psev description p = (p, Ok tt))
        /\ (~ In nm (map Prototype.name arr) ->
            Prototype.add_alarm now i nm psev description p =
              (Prototype.mkState
                 (<[i := arr ++ [Prototype.mkAlarm nm psev false description now]]>
                    (Prototype.alarms p))
                 (deque_append 300 (now, Prototype.Triggered i nm psev) (Prototype.logs p)),
               Ok tt))).
Proof.
  cbv zeta.
  set (record := mkAlarm (VInt i) (VStr nm) desc now ack).
  assert (Hins : ~ has_key sev i nm s ->
            add_alarm now sev (VInt i) (VStr nm) desc ack s
            = (raised now sev (VInt i) (VStr nm) desc ack s, Ok tt)).
  { intros Hn. apply find_alarm_None_no_key in Hn. by rewrite add_alarm_eq, Hn. }
  assert (Hnop : has_key sev i nm s ->
            add_alarm now sev (VInt i) (VStr nm) desc ack s = (s, Ok tt)).
  { intros Hk. destruct (has_key_find _ _ _ _ Hk) as [a Hf]. by rewrite add_alarm_eq, Hf. }
  assert (Hb : bucket sev (raised now sev (VInt i) (VStr nm) desc ack s)
               = bucket sev s ++ [record]).
  { unfold raised. by rewrite bucket_set_logs, bucket_insert_eq. }
  assert (Hk1 : has_key sev i nm (fst (add_alarm now sev (VInt i) (VStr nm) desc ack s))).
  { destruct (_find_alarm sev (VInt i) (VStr nm) s) as [a|] eqn:Hf.
    - assert (Hk : has_key sev i nm s) by (by eapply find_alarm_Some_has_key).
      by rewrite (Hnop Hk).
    - apply find_alarm_None_no_key in Hf. rewrite (Hins Hf). simpl fst.
      exists record. rewrite Hb. split; [|split; [apply shelf_is_refl | done]].
      apply elem_of_app. right. by apply list_elem_of_singleton. }
  split; [|split; [done|split; [done|split]]].
  - intros Hn. split; [by rewrite (Hins Hn)|].
    rewrite (Hins Hn). simpl fst. rewrite Hb. unfold keyed.
    rewrite List.filter_app.
    assert (Hnone : List.filter (fun a => shelf_is i a && name_is nm a) (bucket sev s) = []).
    { apply find_alarm_None_no_key in Hn. unfold _find_alarm in Hn.
      rewrite <- (find_None_filter _ _ Hn). apply List.filter_ext.
      intros a. symmetry. apply same_key_spec. }
    rewrite Hnone. simpl. subst record. rewrite shelf_is_refl. unfold name_is. simpl.
    by rewrite String.eqb_refl.
  - destruct (has_key_find _ _ _ _ Hk1) as [a Hf]. by rewrite add_alarm_eq, Hf.
  - intros p arr psev description Hp.
    rewrite (prototype_add_alarm_eq now i nm psev description p arr Hp). split.
    + intros Hin. apply existsb_name_In in Hin. by rewrite Hin.
    + intros Hnin. destruct (existsb _ arr) eqn:Hex; [|done].
      exfalso. by apply Hnin, existsb_name_In.
Qed.

Lemma add_alarm_idempotent_witness :
  add_alarm 5 "ERROR" (VInt 0) (VStr "FAN_FAIL") (VStr "x") (VBool false) (init_state 0) =
    (set_logs (deque_append LOG_LIMIT (5%Q, LogAlarm "ERROR" (VInt 0) (VStr "FAN_FAIL")))
       (set_alarms (insert "ERROR"
          (bucket "ERROR" (init_state 0)
           ++ [mkAlarm (VInt 0) (VStr "FAN_FAIL") (VStr "x") 5 (VBool false)]))
          (init_state 0)),
     Ok tt)
  /\ keyed 0 "FAN_FAIL"
       (bucket "ERROR"
          (fst (add_alarm 5 "ERROR" (VInt 0) (VStr "FAN_FAIL") (VStr "x") (VBool false)
                  (init_state 0))))
     = [mkAlarm (VInt 0) (VStr "FAN_FAIL") (VStr "x") 5 (VBool false)].
Proof.
  apply (add_alarm_idempotent 5 6 "ERROR" 0 "FAN_FAIL" (VStr "x") (VBool false)
           (VStr "y") (VBool true) (init_state 0)).
  intros (a & Ha & _). vm_compute in Ha. by apply elem_of_nil in Ha.
Defined.

(** C3 (as stated) fails for the prototype: with ERROR "OVERTEMP"
    registered on shelf 0, no record has the key (CRITICAL, 0,
    "OVERTEMP"), yet raising that key inserts nothing and the record
    keeps the severity ERROR. *)
Lemma prototype_add_alarm_ignores_severity :
  Prototype.alarms proto_overtemp !! 0
    = Some [Prototype.mkAlarm "OVERTEMP" "ERROR" false "x" 1]
  /\ Prototype.add_alarm 2 0 "OVERTEMP" "CRITICAL" "y" proto_overtemp = (proto_overtemp, Ok tt).
Proof. split; vm_compute; reflexivity. Qed.

(** ** Unknown severities *)

Lemma add_alarm_new_bucket now sev shelf name desc ack s :
  alarms s !! sev = None ->
  add_alarm now sev shelf name desc ack s =
    (raised now sev shelf name desc ack s, Ok tt)
  /\ bucket sev (raised now sev shelf name desc ack s) = [mkAlarm shelf name desc now ack].
Proof.
  intros Hb. rewrite add_alarm_eq. unfold _find_alarm, raised.
  rewrite bucket_set_logs, bucket_insert_eq. unfold bucket. by rewrite Hb.
Qed.

Lemma find_alarm_unknown sev shelf name s :
  alarms s !! sev = None -> _find_alarm sev shelf name s = None.
Proof. intros Hb. unfold _find_alarm, bucket. by rewrite Hb. Qed.

Lemma ack_alarm_unknown now sev shelf name s :
  alarms s !! sev = None -> ack_alarm now sev shelf name s = (s, Ok tt).
Proof.
  intros Hb. unfold ack_alarm. unfold_m. by rewrite find_alarm_unknown.
Qed.

(** C6. Clearing an alarm under a severity that has no bucket yet does
    not return: [st.session_state.alarms[sev]] raises [KeyError], and
    the session is left as it was. *)
Theorem clear_alarm_unknown_severity (now : Q) (sev : string) (shelf name : value)
    (s : Session) :
  alarms s !! sev = None ->
  clear_alarm now sev shelf name s = (s, Raise KeyError).
Proof.
  intros Hb. unfold clear_alarm, bucket_item. unfold_m. by rewrite Hb.
Qed.

Lemma clear_alarm_unknown_severity_witness :
  alarms (init_state 0) !! "WARNING" = None /\
  clear_alarm 1 "WARNING" (VInt 0) (VStr "OVERTEMP") (init_state 0)
    = (init_state 0, Raise KeyError).
Proof.
  assert (H : alarms (init_state 0) !! "WARNING" = None) by reflexivity.
  split; [exact H | exact (clear_alarm_unknown_severity 1 "WARNING" _ _ _ H)].
Defined.

(** ** Acknowledging everything *)

Lemma for_each_cons {A} (body : A -> M unit) x l s :
  for_each body (x :: l) s =
  match body x s with
  | (s', Ok _) => for_each body l s'
  | (s', Raise e) => (s', Raise e)
  end.
Proof. simpl. unfold_m. by destruct (body x s) as [s' [[]|e]]. Qed.

Lemma Forall2_flagged_acked l : Forall2 flagged l (map acked l).
Proof. induction l as [|a l IH]; simpl; constructor; [by repeat split | done]. Qed.

(** C5 (as the code has it). With the two standing buckets present,
    [ack_all_alarms] returns; afterwards the CRITICAL and the ERROR
    bucket hold the same records in the same order, each with its
    acknowledged flag [True] and its shelf, name, description and time
    as before; the bucket of every other severity is as it was; and
    exactly one log line is appended. *)
Theorem ack_all_alarms_known_buckets (now : Q) (s : Session) (crit err : list Alarm) :
  alarms s !! "CRITICAL" = Some crit ->
  alarms s !! "ERROR" = Some err ->
  exists s' crit' err',
    ack_all_alarms now s = (s', Ok tt)
    /\ alarms s' !! "CRITICAL" = Some crit'
    /\ alarms s' !! "ERROR" = Some err'
    /\ Forall2 flagged crit crit'
    /\ Forall2 flagged err err'
    /\ (forall sev, sev ≠ "CRITICAL" -> sev ≠ "ERROR" -> alarms s' !! sev = alarms s !! sev)
    /\ logs s' = deque_append LOG_LIMIT (now, LogAckAll) (logs s).
Proof.
  intros Hc He. exists
    (set_logs (deque_append LOG_LIMIT (now, LogAckAll))
       (set_alarms (fun m => <["ERROR" := map acked err]> (<["CRITICAL" := map acked crit]> m))
          s)),
    (map acked crit), (map acked err).
  split.
  - unfold ack_all_alarms. unfold_m. simpl. unfold_m. unfold bucket_item.
    rewrite Hc. simpl. rewrite lookup_insert_ne by done. rewrite He. simpl. reflexivity.
  - simpl. split; [|split; [|split; [|split; [|split]]]].
    + rewrite lookup_insert_ne by done. by rewrite lookup_insert_eq.
    + by rewrite lookup_insert_eq.
    + apply Forall2_flagged_acked.
    + apply Forall2_flagged_acked.
    + intros sev H1 H2. by rewrite !lookup_insert_ne.
    + done.
Qed.

Lemma ack_all_alarms_known_buckets_witness :
  exists s' crit' err',
    ack_all_alarms 2 s_three_severities = (s', Ok tt)
    /\ alarms s' !! "CRITICAL" = Some crit'
    /\ alarms s' !! "ERROR" = Some err'
    /\ Forall2 flagged [mkAlarm (VInt 0) (VStr "OVERHEAT") (VStr "hot") 1 (VBool false)] crit'
    /\ Forall2 flagged [mkAlarm (VInt 1) (VStr "OVERTEMP") (VStr "warm") 1 (VBool false)] err'
    /\ (forall sev, sev ≠ "CRITICAL" -> sev ≠ "ERROR" ->
        alarms s' !! sev = alarms s_three_severities !! sev)
    /\ logs s' = deque_append LOG_LIMIT (2%Q, LogAckAll) (logs s_three_severities).
Proof.
  apply (ack_all_alarms_known_buckets 2 s_three_severities); vm_compute; reflexivity.
Defined.

(** C5 (as stated) fails: a record raised under the severity "WARNING"
    sits in a bucket of its own, and [ack_all_alarms] returns leaving it
    unacknowledged. *)
Lemma ack_all_alarms_skips_warning :
  bucket "WARNING" s_door_warning
    = [mkAlarm (VInt 0) (VStr "DOOR_OPEN") (VStr "DOOR_OPEN") 1 (VBool false)]
  /\ snd (ack_all_alarms 2 s_door_warning) = Ok tt
  /\ bucket "WARNING" (fst (ack_all_alarms 2 s_door_warning))
    = [mkAlarm (VInt 0) (VStr "DOOR_OPEN") (VStr "DOOR_OPEN") 1 (VBool false)].
Proof. repeat split; vm_compute; reflexivity. Qed.

(** ** Alarm snapshots *)

Lemma status_alarm_eq now idx a s :
  status_alarm now idx a s = raise_parsed now idx (status_alarm_args a) s.
Proof.
  unfold status_alarm, status_alarm_args, raise_parsed.
  unfold mbind, M_bind, res_mbind, bind, lift, res_bind.
  destruct (py_get a "name" (VStr "ALARM")) as [name|]; [|done].
  destruct (py_get a "active" (VBool false)) as [active|]; [|done].
  destruct (py_get a "severity" (VStr "ERROR")) as [sev0|]; [|done].
  destruct (py_upper sev0) as [sev|]; [|done].
  destruct (py_get a "desc" name) as [desc|]; [|done].
  destruct (truthy active); [|done].
  destruct (py_get a "ack" (VBool false)) as [ack|]; done.
Qed.

Lemma alarm_state_alarm_eq now idx a s :
  alarm_state_alarm now idx a s = raise_parsed now idx (alarm_state_args a) s.
Proof.
  unfold alarm_state_alarm, alarm_state_args, raise_parsed.
  unfold mbind, M_bind, res_mbind, bind, lift, res_bind.
  destruct (py_get a "severity" VNone) as [sev0|]; [|done].
  destruct (py_upper _) as [sev|]; [|done].
  destruct (py_get a "active" VNone) as [active|]; [|done].
  destruct (truthy active); [|done].
  destruct (py_item a "name") as [name|]; [|done].
  destruct (py_get a "desc" name) as [desc|]; [|done].
  destruct (py_get a "ack" (VBool false)) as [ack|]; done.
Qed.

Lemma for_each_ext {A} (f g : A -> M unit) l s :
  (forall x s, f x s = g x s) -> for_each f l s = for_each g l s.
Proof.
  intros Hfg. revert s. induction l as [|x l IH]; intros s; [done|].
  rewrite !for_each_cons, Hfg. destruct (g x s) as [s' [[]|e]]; [apply IH | done].
Qed.

Lemma for_each_map {A B} (g : A -> B) (f : B -> M unit) l s :
  for_each (fun x => f (g x)) l s = for_each f (map g l) s.
Proof.
  revert s. induction l as [|x l IH]; intros s; [done|].
  simpl map. rewrite !for_each_cons. destruct (f (g x) s) as [s' [[]|e]]; [apply IH | done].
Qed.

Lemma add_alarm_grows now sev shelf name desc ack s s' r sev' :
  add_alarm now sev shelf name desc ack s = (s', r) ->
  r = Ok tt
  /\ exists new,
       bucket sev' s' = bucket sev' s ++ new
       /\ (new = [] \/ (sev' = sev /\ new = [mkAlarm shelf name desc now ack])).
Proof.
  rewrite add_alarm_eq. destruct (_find_alarm sev shelf name s).
  - intros [= <- <-]. split; [done|]. exists []. split; [by rewrite app_nil_r | by left].
  - intros [= <- <-]. split; [done|]. unfold raised. rewrite bucket_set_logs.
    destruct (decide (sev = sev')) as [->|Hne].
    + rewrite bucket_insert_eq. eexists. split; [done | by right].
    + rewrite bucket_insert_ne by done. exists []. split; [by rewrite app_nil_r | by left].
Qed.


Lemma drop_shelf_alarms_ok idx s crit err :
  alarms s !! "CRITICAL" = Some crit ->
  alarms s !! "ERROR" = Some err ->
  drop_shelf_alarms idx s =
    (set_alarms (fun m => <["ERROR" := List.filter (other_shelf idx) err]>
                            (<["CRITICAL" := List.filter (other_shelf idx) crit]> m)) s,
     Ok tt).
Proof.
  intros Hc He. unfold drop_shelf_alarms. rewrite for_each_cons.
  unfold_m. unfold bucket_item at 1. rewrite Hc. rewrite for_each_cons.
  unfold bucket_item. unfold set_alarms at 1 2. simpl alarms.
  rewrite lookup_insert_ne by done. rewrite He. done.
Qed.

Lemma filter_filter_same {A} (f : A -> bool) l :
  List.filter f (List.filter f l) = List.filter f l.
Proof.
  induction l as [|x l IH]; [done|]. simpl.
  destruct (f x) eqn:Hx; simpl; [by rewrite Hx, IH | done].
Qed.

Lemma filter_none {A} (f : A -> bool) l :
  Forall (fun x => f x = false) l -> List.filter f l = [].
Proof.
  induction 1 as [|x l Hx _ IH]; [done|]. simpl. by rewrite Hx.
Qed.


Lemma other_shelf_shelf_is i a : other_shelf (VInt i) a = negb (shelf_is i a).
Proof. unfold other_shelf. by rewrite py_eq_shelf_is. Qed.

Lemma shelf_is_record now i x : shelf_is i (snapshot_record now i x) = true.
Proof. destruct x as [[name desc] ack]. apply shelf_is_refl. Qed.

Lemma find_None_existsb {A} (f : A -> bool) l :
  List.find f l = None <-> existsb f l = false.
Proof.
  induction l as [|x l IH]; simpl; [done|].
  destruct (f x); simpl; [split; discriminate | done].
Qed.

Lemma existsb_same_key_names i name l :
  existsb (same_key (VInt i) name) l = existsb (fun n => py_eq n name) (names_on i l).
Proof.
  unfold names_on. induction l as [|a l IH]; [done|]. simpl.
  unfold same_key at 1. rewrite py_eq_shelf_is.
  destruct (shelf_is i a); simpl; [by rewrite IH | done].
Qed.

Lemma names_on_app i l1 l2 : names_on i (l1 ++ l2) = names_on i l1 ++ names_on i l2.
Proof. unfold names_on. by rewrite List.filter_app, map_app. Qed.

Lemma names_on_others i l :
  names_on i (List.filter (fun a => negb (shelf_is i a)) l) = [].
Proof.
  unfold names_on. induction l as [|a l IH]; [done|]. simpl.
  destruct (shelf_is i a) eqn:Ha; simpl; [done|]. by rewrite Ha.
Qed.

Lemma filter_others_records now i l :
  List.filter (fun a => negb (shelf_is i a)) (map (snapshot_record now i) l) = [].
Proof.
  induction l as [|x l IH]; [done|]. simpl. by rewrite shelf_is_record.
Qed.

(** What the loop over the elements of a snapshot leaves: it reads a
    prefix of them, stops at the first one it cannot read, and appends a
    record for the first element of each name the shelf does not have
    yet. *)
Lemma raise_loop_exact now i ps :
  forall s s' r,
    for_each (raise_parsed now (VInt i)) ps s = (s', r) ->
    exists parsed rest,
      ps = map Ok parsed ++ rest
      /\ match r with
         | Ok _ => rest = []
         | Raise e => exists rest', rest = Raise e :: rest'
         end
      /\ forall sev,
           bucket sev s' =
             bucket sev s
             ++ map (snapshot_record now i)
                  (first_per_name (names_on i (bucket sev s)) (active_for sev parsed)).
Proof.
  induction ps as [|p ps IH]; intros s s' r Hrun.
  - injection Hrun as <- <-. exists [], []. split; [done|]. split; [done|].
    intros sev. simpl. by rewrite app_nil_r.
  - rewrite for_each_cons in Hrun.
    destruct p as [[[[[sv name] desc] ack]|]|e]; simpl raise_parsed in Hrun.
    + rewrite add_alarm_eq in Hrun.
      destruct (_find_alarm sv (VInt i) name s) as [a|] eqn:Hf.
      * destruct (IH _ _ _ Hrun) as (parsed & rest & -> & Hr & Hb).
        exists (Some (sv, name, desc, ack) :: parsed), rest.
        split; [done|]. split; [done|]. intros sev. rewrite Hb. do 2 f_equal.
        simpl active_for. destruct (String.eqb sv sev) eqn:Heq; [|done].
        apply String.eqb_eq in Heq as ->. simpl first_per_name.
        assert (Hex : existsb (fun n => py_eq n name) (names_on i (bucket sev s)) = true).
        { rewrite <- existsb_same_key_names. apply not_false_iff_true.
          intros Hex. apply find_None_existsb in Hex. unfold _find_alarm in Hf. congruence. }
        by rewrite Hex.
      * destruct (IH _ _ _ Hrun) as (parsed & rest & -> & Hr & Hb).
        exists (Some (sv, name, desc, ack) :: parsed), rest.
        split; [done|]. split; [done|]. intros sev. rewrite Hb.
        unfold raised. rewrite bucket_set_logs. simpl active_for.
        destruct (String.eqb sv sev) eqn:Heq.
        -- apply String.eqb_eq in Heq as ->. rewrite bucket_insert_eq.
           simpl first_per_name.
           assert (Hex : existsb (fun n => py_eq n name) (names_on i (bucket sev s)) = false).
           { rewrite <- existsb_same_key_names. by apply find_None_existsb. }
           rewrite Hex, names_on_app. unfold names_on at 2. simpl List.filter.
           rewrite shelf_is_refl. simpl. by rewrite <- app_assoc.
        -- apply String.eqb_neq in Heq. by rewrite bucket_insert_ne.
    + destruct (IH _ _ _ Hrun) as (parsed & rest & -> & Hr & Hb).
      exists (None :: parsed), rest. split; [done|]. split; [done|].
      intros sev. by rewrite Hb.
    + injection Hrun as <- <-. exists [], (Raise e :: ps).
      split; [done|]. split; [by eexists|]. intros sev. simpl. by rewrite app_nil_r.
Qed.

(** The shared shape of both snapshot paths: drop the shelf's
    CRITICAL and ERROR records, then raise what the elements say. *)
Lemma snapshot_exact args_of items now i s s' r :
  is_Some (alarms s !! "CRITICAL") ->
  is_Some (alarms s !! "ERROR") ->
  (drop_shelf_alarms (VInt i) ;; for_each (raise_parsed now (VInt i)) (map args_of items)) s
    = (s', r) ->
  snapshot_applied args_of items now i s s' r.
Proof.
  intros [crit Hc] [err He] Hrun.
  unfold mbind, M_bind, bind in Hrun.
  rewrite (drop_shelf_alarms_ok (VInt i) s crit err Hc He) in Hrun.
  set (s1 := set_alarms _ s) in Hrun.
  assert (Hfilter : forall l, List.filter (other_shelf (VInt i)) l
                              = List.filter (fun a => negb (shelf_is i a)) l).
  { intros l. apply List.filter_ext. intros a. apply other_shelf_shelf_is. }
  assert (Hdrop : forall sev,
            bucket sev s1 = if covered sev
                            then List.filter (fun a => negb (shelf_is i a)) (bucket sev s)
                            else bucket sev s).
  { intros sev. unfold bucket, s1, covered. simpl.
    destruct (String.eqb sev "ERROR") eqn:HE.
    - apply String.eqb_eq in HE as ->. rewrite lookup_insert_eq, He. simpl.
      apply Hfilter.
    - apply String.eqb_neq in HE. rewrite lookup_insert_ne by done.
      destruct (String.eqb sev "CRITICAL") eqn:HC.
      + apply String.eqb_eq in HC as ->. rewrite lookup_insert_eq, Hc. simpl.
        apply Hfilter.
      + apply String.eqb_neq in HC. by rewrite lookup_insert_ne. }
  destruct (raise_loop_exact now i _ _ _ _ Hrun) as (parsed & rest & Hps & Hr & Hb).
  apply List.map_eq_app in Hps as (taken & rest_items & -> & Htaken & Hrest).
  exists taken, rest_items, parsed.
  split; [done|]. split; [done|]. split; [|split; [|split]].
  - destruct r as [[]|e].
    + rewrite Hr in Hrest. by apply List.map_eq_nil in Hrest.
    + destruct Hr as [rest' Hr]. rewrite Hr in Hrest.
      apply List.map_eq_cons in Hrest as (bad & rest'' & -> & Hbad & _).
      by exists bad, rest''.
  - intros sev Hcov. rewrite Hb, Hdrop, Hcov. by rewrite names_on_others.
  - intros sev Hcov. by rewrite Hb, Hdrop, Hcov.
  - intros sev. rewrite Hb, List.filter_app, filter_others_records, app_nil_r, Hdrop.
    destruct (covered sev); [apply filter_filter_same | done].
Qed.

(** C4 (as the code has it). An authoritative alarm snapshot for one
    shelf, either the alarm portion of a STATUS entry or an ALARM_STATE
    message, reads its elements in order and stops at the first one it
    cannot read. Under CRITICAL and ERROR the shelf's old records are
    dropped and the bucket then holds the records of the other shelves,
    as they were, followed by one record for each name flagged active
    under that severity among the elements read, with the description and
    acknowledged flag of the first such element. Under any other
    severity nothing is dropped: the bucket keeps all its records, and an
    active element gets a record only when the shelf has none of that
    name there. In every bucket the records of the other shelves are
    unchanged. *)
Theorem alarm_snapshot_replaces_shelf (now : Q) (i : Z) (s : Session) :
  is_Some (alarms s !! "CRITICAL") ->
  is_Some (alarms s !! "ERROR") ->
  (forall sh al items s' r,
      py_get sh "alarms" (VList []) = Ok al ->
      py_iter al = Ok items ->
      status_alarms now (VInt i) sh s = (s', r) ->
      snapshot_applied status_alarm_args items now i s s' r)
  /\ (forall msg al items s' r,
        py_get msg "shelf" (VInt 1) = Ok (VInt (i + 1)) ->
        py_get msg "alarms" (VList []) = Ok al ->
        py_iter al = Ok items ->
        process_alarm_state now msg s = (s', r) ->
        snapshot_applied alarm_state_args items now i s s' r).
Proof.
  intros Hc He. split.
  - intros sh al items s' r Hal Hit Hrun.
    apply (snapshot_exact _ _ _ _ _ _ _ Hc He).
    rewrite <- Hrun. unfold status_alarms. unfold mbind, M_bind, bind, lift.
    destruct (drop_shelf_alarms (VInt i) s) as [s1 [[]|e]]; [|done].
    rewrite Hal, Hit, <- for_each_map.
    apply for_each_ext. intros; symmetry; apply status_alarm_eq.
  - intros msg al items s' r Hid Hal Hit Hrun.
    unfold process_alarm_state in Hrun. unfold mbind, M_bind, bind, lift in Hrun.
    rewrite Hid in Hrun.
    change (py_sub (VInt (i + 1)) (VInt 1)) with (Ok (VInt (i + 1 - 1))) in Hrun.
    cbv beta iota in Hrun. replace (i + 1 - 1) with i in Hrun by lia.
    destruct (drop_shelf_alarms (VInt i) s) as [s1 [[]|e]] eqn:Hdrop.
    + rewrite Hal, Hit in Hrun.
      destruct (for_each (alarm_state_alarm now (VInt i)) items s1) as [s2 r2] eqn:Hloop.
      assert (Hrep : snapshot_applied alarm_state_args items now i s s2 r2).
      { apply (snapshot_exact _ _ _ _ _ _ _ Hc He).
        unfold mbind, M_bind, bind. rewrite Hdrop, <- Hloop, <- for_each_map.
        symmetry. apply for_each_ext. intros; apply alarm_state_alarm_eq. }
      destruct r2 as [[]|e]; injection Hrun as <- <-; exact Hrep.
    + destruct Hc as [crit Hc], He as [err He].
      rewrite (drop_shelf_alarms_ok _ _ _ _ Hc He) in Hdrop. discriminate.
Qed.

Lemma alarm_snapshot_replaces_shelf_witness :
  snapshot_applied status_alarm_args snapshot_items 5 0 s_two_alarms
    (fst (status_alarms 5 (VInt 0) entry_snapshot s_two_alarms))
    (snd (status_alarms 5 (VInt 0) entry_snapshot s_two_alarms))
  /\ snapshot_applied alarm_state_args snapshot_items 5 0 s_two_alarms
       (fst (process_alarm_state 5 msg_snapshot s_two_alarms))
       (snd (process_alarm_state 5 msg_snapshot s_two_alarms)).
Proof.
  assert (Hc : is_Some (alarms s_two_alarms !! "CRITICAL")) by (eexists; reflexivity).
  assert (He : is_Some (alarms s_two_alarms !! "ERROR")) by (eexists; reflexivity).
  destruct (alarm_snapshot_replaces_shelf 5 0 s_two_alarms Hc He) as [H1 H2].
  split.
  - apply (H1 entry_snapshot (VList snapshot_items) snapshot_items); reflexivity.
  - apply (H2 msg_snapshot (VList snapshot_items) snapshot_items); reflexivity.
Defined.

(** C4 (as stated) fails: shelf 1 has an unacknowledged "DOOR_OPEN"
    under WARNING. A snapshot for the shelf that lists it as active and
    acknowledged leaves the record unacknowledged, and a snapshot that
    lists no alarm at all leaves it in the registry. *)
Lemma alarm_snapshot_keeps_stale_warning :
  bucket "WARNING" s_three_severities
    = [mkAlarm (VInt 0) (VStr "DOOR_OPEN") (VStr "door") 1 (VBool false)]
  /\ snd (process_msg 5 msg_door_acked s_three_severities) = Ok tt
  /\ bucket "WARNING" (fst (process_msg 5 msg_door_acked s_three_severities))
     = [mkAlarm (VInt 0) (VStr "DOOR_OPEN") (VStr "door") 1 (VBool false)]
  /\ snd (process_msg 5 msg_no_alarms s_three_severities) = Ok tt
  /\ bucket "WARNING" (fst (process_msg 5 msg_no_alarms s_three_severities))
     = [mkAlarm (VInt 0) (VStr "DOOR_OPEN") (VStr "door") 1 (VBool false)].
Proof. repeat split; vm_compute; reflexivity. Qed.

Example snapshot_run :
  let s' := fst (process_alarm_state 5 msg_snapshot s_two_alarms) in
  snd (process_alarm_state 5 msg_snapshot s_two_alarms) = Ok tt
  /\ bucket "CRITICAL" s' = [mkAlarm (VInt 0) (VStr "FAN_FAIL") (VStr "FAN_FAIL") 5 (VBool true)]
  /\ bucket "ERROR" s' = [mkAlarm (VInt 1) (VStr "OVERTEMP") (VStr "old") 1 (VBool false)].
Proof. repeat split; vm_compute; reflexivity. Qed.

(** ** Invariants through the monad *)

Lemma preserves_ret {A} I (a : A) : preserves I (ret a).
Proof. by intros s. Qed.

Lemma preserves_raise {A} I e : preserves I (@raise A e).
Proof. by intros s. Qed.

Lemma preserves_lift {A} I (r : res A) : preserves I (lift r).
Proof. by intros s. Qed.

Lemma preserves_gets {A} I (f : Session -> A) : preserves I (gets f).
Proof. by intros s. Qed.

Lemma preserves_modify I f : (forall s, I s -> I (f s)) -> preserves I (modify f).
Proof. intros H s. apply H. Qed.

Lemma preserves_bind {A B} I (m : M A) (k : A -> M B) :
  preserves I m -> (forall a, preserves I (k a)) -> preserves I (m ≫= k).
Proof.
  intros Hm Hk s Hs. unfold mbind, M_bind, bind.
  specialize (Hm s Hs). destruct (m s) as [s1 [a|e]]; [by apply Hk | done].
Qed.

Lemma preserves_for_each {A} I (body : A -> M unit) l :
  (forall x, preserves I (body x)) -> preserves I (for_each body l).
Proof.
  intros Hb. induction l as [|x l IH]; [apply preserves_ret|].
  simpl. apply preserves_bind; [apply Hb | by intros _].
Qed.


Lemma preserves_bucket_item I sev : preserves I (bucket_item sev).
Proof. intros s Hs. unfold bucket_item. by destruct (alarms s !! sev). Qed.

Lemma preserves_latest_temp_store I idx x :
  (forall s f, I s -> I (set_latest_temp f s)) -> preserves I (latest_temp_store idx x).
Proof. intros H s Hs. unfold latest_temp_store. destruct (norm_index _ _); [by apply H | done]. Qed.

Lemma preserves_shelf_store I idx f :
  (forall s g, I s -> I (set_shelves g s)) -> preserves I (shelf_store idx f).
Proof. intros H s Hs. unfold shelf_store. destruct (norm_index _ _); [by apply H | done]. Qed.

Lemma preserves_hist_append I idx x :
  (forall s f, I s -> I (set_hist f s)) -> preserves I (hist_append idx x).
Proof.
  intros H s Hs. unfold hist_append.
  destruct (as_int idx); [|done]. destruct (hist s !! _); [by apply H | done].
Qed.

Lemma preserves_add_alarm I now sev shelf name desc ack :
  (forall s f, I s -> I (set_alarms f s)) ->
  (forall s f, I s -> I (set_logs f s)) ->
  preserves I (add_alarm now sev shelf name desc ack).
Proof.
  intros Ha Hl s Hs. rewrite add_alarm_eq.
  destruct (_find_alarm _ _ _ _); [done|]. simpl. unfold raised. by apply Hl, Ha.
Qed.

Lemma preserves_drop_shelf_alarms I idx :
  (forall s f, I s -> I (set_alarms f s)) -> preserves I (drop_shelf_alarms idx).
Proof.
  intros Ha. apply preserves_for_each. intros sev.
  apply preserves_bind; [apply preserves_bucket_item|].
  intros arr. apply preserves_modify. intros s. apply Ha.
Qed.

Lemma preserves_status_alarms I now idx sh :
  (forall s f, I s -> I (set_alarms f s)) ->
  (forall s f, I s -> I (set_logs f s)) ->
  preserves I (status_alarms now idx sh).
Proof.
  intros Ha Hl. unfold status_alarms.
  apply preserves_bind; [by apply preserves_drop_shelf_alarms|]. intros _.
  apply preserves_bind; [apply preserves_lift|]. intros al.
  apply preserves_bind; [apply preserves_lift|]. intros items.
  apply preserves_for_each. intros a s Hs. rewrite status_alarm_eq.
  destruct (status_alarm_args a) as [[[[[sv name] desc] ack]|]|e]; simpl; try done.
  by apply preserves_add_alarm.
Qed.

(** A session invariant that looks at the maintenance record only
    through [f] survives every step that is not a maintenance update. *)
Ltac frame_step :=
  first
    [ apply preserves_lift | apply preserves_gets | apply preserves_ret
    | apply preserves_latest_temp_store; intros; assumption
    | apply preserves_shelf_store; intros; assumption
    | apply preserves_hist_append; intros; assumption
    | apply preserves_status_alarms; intros; assumption
    | apply preserves_modify; intros; assumption ].

Lemma bind_ok_inv {A B} (m : M A) (k : A -> M B) s s' b :
  (m ≫= k) s = (s', Ok b) -> exists s1 a, m s = (s1, Ok a) /\ k a s1 = (s', Ok b).
Proof.
  unfold mbind, M_bind, bind. destruct (m s) as [s1 [a|e]]; [|discriminate].
  intros H. by exists s1, a.
Qed.

Lemma lift_ok_inv {A} (r : res A) s s' a : lift r s = (s', Ok a) -> s' = s /\ r = Ok a.
Proof. unfold lift. by intros [= -> ->]. Qed.

Lemma modify_ok_inv f s s' a : modify f s = (s', Ok a) -> s' = f s.
Proof. unfold modify. by intros [= <-]. Qed.

Lemma gets_ok_inv {A} (f : Session -> A) s s' a :
  gets f s = (s', Ok a) -> s' = s /\ a = f s.
Proof. unfold gets. by intros [= <- <-]. Qed.

(** Peel the next step off a run that returned. *)
Tactic Notation "run_step" hyp(H) "as" ident(s1) ident(a) ident(H1) :=
  apply bind_ok_inv in H as (s1 & a & H1 & H);
  lazymatch type of H1 with
  | lift _ _ = _ => apply lift_ok_inv in H1 as [-> H1]
  | modify _ _ = _ => apply modify_ok_inv in H1 as ->
  | gets _ _ = _ => apply gets_ok_inv in H1 as [-> ->]
  | _ => idtac
  end.

(** ** Maintenance *)

Lemma status_entry_ceilings now e c :
  preserves (fun s => ceilings s = c) (status_entry now e).
Proof.
  destruct e as [k sh]. unfold status_entry.
  repeat (apply preserves_bind; [frame_step | intros ?]).
  apply preserves_bind; [destruct a1; frame_step | intros ?].
  repeat (apply preserves_bind; [frame_step | intros ?]).
  frame_step.
Qed.

Lemma resize_ceilings count s : ceilings (resize count s) = ceilings s.
Proof. unfold resize. by destruct (negb _). Qed.

Lemma process_msg_status now d s :
  assoc "type" d = Some (VStr "STATUS") ->
  process_msg now (VDict d) s = process_status now (VDict d) s.
Proof. intros Ht. unfold process_msg. unfold_m. simpl. by rewrite Ht. Qed.

(** C9 (as the code has it). A STATUS message that is processed to
    the end overwrites both life ceilings with the first two elements of
    its maintenance list; a maintenance field that is anything else
    leaves them as they were; and a message without the field does not
    leave them alone but sets them to the defaults 2000 and 3000. *)
Theorem status_life_ceilings (now : Q) (d : list (string * value)) (s s' : Session) :
  assoc "type" d = Some (VStr "STATUS") ->
  process_msg now (VDict d) s = (s', Ok tt) ->
  ceilings s' =
    match assoc "maintenance" d with
    | None => (VInt 2000, VInt 3000)
    | Some (VList (m0 :: m1 :: _)) => (m0, m1)
    | Some _ => ceilings s
    end.
Proof.
  intros Ht Hrun. rewrite (process_msg_status _ _ _ Ht) in Hrun.
  unfold process_status in Hrun.
  run_step Hrun as s1 shelves_v Hshelves.
  run_step Hrun as s1 count Hcount.
  run_step Hrun as s1 u Hresize.
  run_step Hrun as s1 items Hitems.
  run_step Hrun as s2 u' Hloop.
  run_step Hrun as s3 u'' Hmaint.
  apply modify_ok_inv in Hrun as ->.
  pose proof (preserves_for_each _ (status_entry now) (enumerate items)
                (fun e => status_entry_ceilings now e (ceilings s))
                (resize count s) (resize_ceilings count s)) as Hinv.
  rewrite Hloop in Hinv. simpl in Hinv.
  unfold status_maintenance in Hmaint.
  run_step Hmaint as s4 m Hm. simpl in Hm.
  change (ceilings (set_last_update_ts now s3)) with (ceilings s3).
  destruct (assoc "maintenance" d) as [m'|]; injection Hm as <-.
  - destruct m' as [| | | | |[|m0 [|m1 l]]|];
      first [ apply modify_ok_inv in Hmaint as -> | injection Hmaint as <- ]; done.
  - by apply modify_ok_inv in Hmaint as ->.
Qed.

Lemma status_life_ceilings_witness :
  ceilings (fst (process_msg 2 msg_no_ceilings s_three_hours)) = (VInt 2000, VInt 3000).
Proof.
  apply (status_life_ceilings 2 fields_no_ceilings s_three_hours
           (fst (process_msg 2 msg_no_ceilings s_three_hours)));
    vm_compute; reflexivity.
Defined.

(** C9 (as stated) fails: after a STATUS message has set the ceilings
    to 5000 and 6000, a STATUS message without any maintenance field is
    processed to the end and leaves them at 2000 and 3000. *)
Lemma status_without_ceilings_resets :
  ceilings s_three_hours = (VInt 5000, VInt 6000)
  /\ assoc "maintenance" fields_no_ceilings = None
  /\ snd (process_msg 2 msg_no_ceilings s_three_hours) = Ok tt
  /\ ceilings (fst (process_msg 2 msg_no_ceilings s_three_hours)) = (VInt 2000, VInt 3000).
Proof. repeat split; vm_compute; reflexivity. Qed.

Lemma preserves_run {A} I (m : M A) s s' r :
  preserves I m -> I s -> m s = (s', r) -> I s'.
Proof. intros Hm Hs Hrun. specialize (Hm s Hs). by rewrite Hrun in Hm. Qed.







(** ** Demo generator *)












Lemma preserves_list_item {A} I (l : list A) i : preserves I (list_item l i).
Proof. unfold list_item. destruct (l !! i); [apply preserves_ret | apply preserves_raise]. Qed.



Lemma preserves_for_each_in {A} I (body : A -> M unit) l :
  (forall x, x ∈ l -> preserves I (body x)) -> preserves I (for_each body l).
Proof.
  induction l as [|x l IH]; intros Hb; [apply preserves_ret|].
  simpl. apply preserves_bind; [apply Hb; left|].
  intros _. apply IH. intros y Hy. apply Hb. by right.
Qed.












(** * Further properties of the code *)

(** ** The shape of the session *)

Lemma preserves_and {A} (I J : Session -> Prop) (m : M A) :
  preserves I m -> preserves J m -> preserves (fun s => I s /\ J s) m.
Proof. intros HI HJ s [H1 H2]. split; [by apply HI | by apply HJ]. Qed.

Lemma fresh_hist_lookup n (i : Z) :
  fresh_hist n !! i = if decide (0 <= i < Z.of_nat n) then Some [] else None.
Proof.
  induction n as [|n IH]; cbn [fresh_hist].
  - rewrite lookup_empty. by rewrite decide_False by lia.
  - destruct (decide (Z.of_nat n = i)) as [Heq|Hne].
    + rewrite Heq, lookup_insert_eq. by rewrite decide_True by lia.
    + rewrite lookup_insert_ne by done. rewrite IH.
      destruct (decide (0 <= i < Z.of_nat n)).
      * by rewrite decide_True by lia.
      * by rewrite decide_False by lia.
Qed.

Lemma arrays_ok_resize count s : arrays_ok s -> arrays_ok (resize count s).
Proof.
  intros Hs. unfold resize. destruct (negb _); [|done].
  unfold arrays_ok; simpl. rewrite !length_replicate.
  split; [done|]. split; [done|]. intros i. rewrite fresh_hist_lookup. split.
  - case_decide; [done|]. by intros [? ?].
  - intros Hi. rewrite decide_True by done. by eexists.
Qed.

Lemma arrays_ok_latest_temp_store idx x : preserves arrays_ok (latest_temp_store idx x).
Proof.
  intros s (H1 & H2 & H3). unfold latest_temp_store.
  destruct (norm_index _ _); [|done]. simpl.
  unfold arrays_ok; simpl. by rewrite length_insert.
Qed.

Lemma arrays_ok_shelf_store idx f : preserves arrays_ok (shelf_store idx f).
Proof.
  intros s (H1 & H2 & H3). unfold shelf_store.
  destruct (norm_index _ _); [|done]. simpl.
  unfold arrays_ok; simpl. by rewrite length_alter.
Qed.

Lemma arrays_ok_hist_append idx x : preserves arrays_ok (hist_append idx x).
Proof.
  intros s (H1 & H2 & H3). unfold hist_append.
  destruct (as_int idx) as [i|]; [|done].
  destruct (hist s !! i) as [d|] eqn:Hd; [|done]. simpl.
  unfold arrays_ok; simpl. split; [done|]. split; [done|]. intros j.
  rewrite <- H3. destruct (decide (i = j)) as [<-|Hne].
  - rewrite lookup_insert_eq, Hd. split; by eexists.
  - by rewrite lookup_insert_ne.
Qed.

Lemma buckets_ok_insert sev l s :
  buckets_ok s -> buckets_ok (set_alarms (insert sev l) s).
Proof.
  intros [Hc He]. unfold buckets_ok; simpl.
  split; apply lookup_insert_is_Some'; by right.
Qed.

Lemma buckets_ok_add_alarm now sev shelf name desc ack :
  preserves buckets_ok (add_alarm now sev shelf name desc ack).
Proof.
  intros s Hs. rewrite add_alarm_eq. destruct (_find_alarm _ _ _ _); [done|].
  simpl. unfold raised. by apply (buckets_ok_insert sev _ s).
Qed.

Lemma buckets_ok_clear_alarm now sev shelf name :
  preserves buckets_ok (clear_alarm now sev shelf name).
Proof.
  intros s Hs. unfold clear_alarm, bucket_item. unfold_m.
  destruct (alarms s !! sev); [|done]. destruct (existsb _ _); [|done].
  simpl. by apply (buckets_ok_insert sev _ s).
Qed.

Lemma buckets_ok_ack_alarm now sev shelf name :
  preserves buckets_ok (ack_alarm now sev shelf name).
Proof.
  intros s Hs. unfold ack_alarm. unfold_m.
  destruct (_find_alarm _ _ _ _) as [a|]; [|done].
  destruct (negb _); [|done]. simpl.
  destruct (py_add shelf (VInt 1)); simpl.
  - unfold send_to_pi, modify. simpl. destruct (link_open s); simpl;
      by apply (buckets_ok_insert sev _ s).
  - by apply (buckets_ok_insert sev _ s).
Qed.

Lemma buckets_ok_insert_step sev (g : list Alarm -> list Alarm) :
  preserves buckets_ok (arr ← bucket_item sev; modify (set_alarms (insert sev (g arr)))).
Proof.
  apply preserves_bind; [apply preserves_bucket_item|]. intros arr.
  apply preserves_modify. intros s. apply buckets_ok_insert.
Qed.

Lemma buckets_ok_ack_all_alarms now : preserves buckets_ok (ack_all_alarms now).
Proof.
  unfold ack_all_alarms. apply preserves_bind.
  - apply preserves_for_each. intros sev. apply (buckets_ok_insert_step sev (map acked)).
  - intros _. by apply preserves_modify.
Qed.

Lemma buckets_ok_drop_shelf_alarms idx : preserves buckets_ok (drop_shelf_alarms idx).
Proof.
  unfold drop_shelf_alarms. apply preserves_for_each. intros sev.
  apply (buckets_ok_insert_step sev (List.filter (other_shelf idx))).
Qed.

Create HintDb arrays.
Create HintDb buckets.

(** Walk a monadic definition, closing each step with the lemmas of
    the invariant at hand. *)
Ltac inv_go tac :=
  repeat first
    [ apply preserves_ret | apply preserves_raise | apply preserves_lift
    | apply preserves_gets | apply preserves_bucket_item | apply preserves_list_item
    | solve [ tac ]
    | apply preserves_modify; intros ? ?; solve [ assumption | tac ]
    | apply preserves_for_each; intros ?
    | apply preserves_bind; [ | intros ? ]
    | match goal with
      | |- preserves _ (match ?x with _ => _ end) => destruct x
      end ].

Lemma arrays_ok_add_alarm now sev shelf name desc ack :
  preserves arrays_ok (add_alarm now sev shelf name desc ack).
Proof. apply preserves_add_alarm; intros; assumption. Qed.

Lemma arrays_ok_clear_alarm now sev shelf name :
  preserves arrays_ok (clear_alarm now sev shelf name).
Proof. unfold clear_alarm, log. inv_go fail. Qed.

Lemma arrays_ok_drop_shelf_alarms idx : preserves arrays_ok (drop_shelf_alarms idx).
Proof. apply preserves_drop_shelf_alarms; intros; assumption. Qed.

Lemma arrays_ok_resize_step count : preserves arrays_ok (modify (resize count)).
Proof. apply preserves_modify. intros s. apply arrays_ok_resize. Qed.

#[local] Hint Resolve arrays_ok_latest_temp_store arrays_ok_shelf_store
  arrays_ok_hist_append arrays_ok_add_alarm arrays_ok_clear_alarm
  arrays_ok_drop_shelf_alarms arrays_ok_resize_step : arrays.

Lemma buckets_ok_resize_step count : preserves buckets_ok (modify (resize count)).
Proof.
  apply preserves_modify. intros s Hs. unfold resize. by destruct (negb _).
Qed.

Lemma buckets_ok_latest_temp_store idx x : preserves buckets_ok (latest_temp_store idx x).
Proof. apply preserves_latest_temp_store; intros; assumption. Qed.

Lemma buckets_ok_shelf_store idx f : preserves buckets_ok (shelf_store idx f).
Proof. apply preserves_shelf_store; intros; assumption. Qed.

Lemma buckets_ok_hist_append idx x : preserves buckets_ok (hist_append idx x).
Proof. apply preserves_hist_append; intros; assumption. Qed.

#[local] Hint Resolve buckets_ok_latest_temp_store buckets_ok_shelf_store
  buckets_ok_hist_append buckets_ok_add_alarm buckets_ok_clear_alarm
  buckets_ok_drop_shelf_alarms buckets_ok_resize_step : buckets.

Lemma arrays_ok_process_msg now msg : preserves arrays_ok (process_msg now msg).
Proof.
  unfold process_msg, process_status, process_live_temp, process_alarm_state, process_log,
    status_maintenance, status_entry, status_alarms, status_alarm, alarm_state_alarm.
  inv_go ltac:(auto with arrays).
Qed.

Lemma buckets_ok_process_msg now msg : preserves buckets_ok (process_msg now msg).
Proof.
  unfold process_msg, process_status, process_live_temp, process_alarm_state, process_log,
    status_maintenance, status_entry, status_alarms, status_alarm, alarm_state_alarm.
  inv_go ltac:(auto with buckets).
Qed.

Lemma preserves_read_all I now n port :
  (forall s f, I s -> I (set_logs f s)) -> preserves I (read_all now n port).
Proof.
  intros Hl. revert port. induction n as [|n IH]; intros port; [apply preserves_ret|].
  destruct port as [|[|raw|v|e] port]; simpl.
  - apply preserves_ret.
  - apply IH.
  - apply preserves_bind; [|intros _; apply IH].
    apply preserves_modify. intros s. apply Hl.
  - apply preserves_bind; [apply IH | intros ?; apply preserves_ret].
  - apply preserves_bind; [|intros _; apply preserves_ret].
    apply preserves_modify. intros s. apply Hl.
Qed.

Lemma arrays_ok_read_from_pi now port : preserves arrays_ok (read_from_pi now port).
Proof.
  unfold read_from_pi. apply preserves_bind; [apply preserves_gets|]. intros [|].
  - apply preserves_bind; [apply preserves_read_all; intros; assumption|]. intros msgs.
    apply preserves_for_each. intros msg. apply arrays_ok_process_msg.
  - apply preserves_ret.
Qed.

Lemma buckets_ok_read_from_pi now port : preserves buckets_ok (read_from_pi now port).
Proof.
  unfold read_from_pi. apply preserves_bind; [apply preserves_gets|]. intros [|].
  - apply preserves_bind; [apply preserves_read_all; intros; assumption|]. intros msgs.
    apply preserves_for_each. intros msg. apply buckets_ok_process_msg.
  - apply preserves_ret.
Qed.

Lemma arrays_ok_demo_tick fmt draws now : preserves arrays_ok (demo_tick fmt draws now).
Proof.
  unfold demo_tick, demo_shelf, demo_maintenance, demo_alarm_heuristic.
  inv_go ltac:(auto with arrays).
Qed.

Lemma buckets_ok_demo_tick fmt draws now : preserves buckets_ok (demo_tick fmt draws now).
Proof.
  unfold demo_tick, demo_shelf, demo_maintenance, demo_alarm_heuristic.
  inv_go ltac:(auto with buckets).
Qed.

Lemma init_state_well_formed t : well_formed (init_state t).
Proof.
  split; [|split; eexists; reflexivity].
  split; [done|]. split; [done|]. intros i.
  change (hist (init_state t)) with (fresh_hist 2). rewrite fresh_hist_lookup.
  change (num_shelves (init_state t)) with 2%nat.
  case_decide; split; try done; first [ by eexists | by intros [? ?] ].
Qed.

(** X1. Every way the session is driven keeps it well formed: a
    scheduler tick in either mode, any single telemetry message, and the
    operator's acknowledge commands leave [shelves] and [latest_temp]
    with [num_shelves] items, [hist] with exactly the keys below
    [num_shelves], and the CRITICAL and ERROR buckets in place, also
    when the step ends in an exception. *)
Theorem well_formed_kept (s : Session) :
  well_formed s ->
  (forall fmt_1f draws now port, well_formed (fst (tick fmt_1f draws now port s)))
  /\ (forall now msg, well_formed (fst (process_msg now msg s)))
  /\ (forall now sev shelf name, well_formed (fst (ack_alarm now sev shelf name s)))
  /\ (forall now, well_formed (fst (ack_all_alarms now s))).
Proof.
  intros [Ha Hb]. split; [|split; [|split]].
  - intros fmt_1f draws now port. unfold tick. unfold_m. simpl.
    destruct (demo_mode s); split;
      first [ by apply arrays_ok_demo_tick | by apply buckets_ok_demo_tick
            | by apply arrays_ok_read_from_pi | by apply buckets_ok_read_from_pi ].
  - intros now msg. split; [by apply arrays_ok_process_msg | by apply buckets_ok_process_msg].
  - intros now sev shelf name. split; [|by apply buckets_ok_ack_alarm].
    revert Ha. generalize s. change (preserves arrays_ok (ack_alarm now sev shelf name)).
    unfold ack_alarm, send_to_pi, log. inv_go fail.
    apply preserves_modify. intros s0 Hs0. by destruct (link_open s0).
  - intros now. split; [|by apply buckets_ok_ack_all_alarms].
    revert Ha. generalize s. change (preserves arrays_ok (ack_all_alarms now)).
    unfold ack_all_alarms, log. inv_go fail.
Qed.

Lemma well_formed_kept_witness :
  well_formed (fst (tick fmt_sample draws_sample 5 [] (init_state 0)))
  /\ well_formed (fst (process_msg 5 msg_three_hours (init_state 0)))
  /\ well_formed (fst (ack_all_alarms 5 (init_state 0))).
Proof.
  destruct (well_formed_kept (init_state 0) (init_state_well_formed 0)) as (H1 & H2 & _ & H4).
  split; [apply H1 | split; [apply H2 | apply H4]].
Defined.

(** ** Bounded log and history *)

Create HintDb bounds.

Lemma deque_append_length {A} n (x : A) d :
  (0 < n)%nat -> (length d <= n)%nat -> (length (deque_append n x d) <= n)%nat.
Proof.
  intros Hn Hd. unfold deque_append. destruct (length d <? n)%nat eqn:Hlt.
  - apply Nat.ltb_lt in Hlt. rewrite length_app. simpl. lia.
  - rewrite length_app, length_drop. simpl. lia.
Qed.

Lemma bounded_log x s : bounded s -> bounded (set_logs (deque_append LOG_LIMIT x) s).
Proof.
  intros [Hl Hh]. split; [|done]. simpl. apply deque_append_length; [|done].
  unfold LOG_LIMIT. lia.
Qed.

Lemma bounded_log_step now t : preserves bounded (log now t).
Proof. apply preserves_modify. intros s. apply bounded_log. Qed.

Lemma bounded_hist_append idx x : preserves bounded (hist_append idx x).
Proof.
  intros s [Hl Hh]. unfold hist_append.
  destruct (as_int idx) as [i|]; [|done].
  destruct (hist s !! i) as [d|] eqn:Hd; [|done]. simpl.
  split; [done|]. simpl. intros j d' Hj.
  destruct (decide (i = j)) as [<-|Hne].
  - rewrite lookup_insert_eq in Hj. injection Hj as <-.
    apply deque_append_length; [unfold HISTORY_LEN; lia | by eapply Hh].
  - rewrite lookup_insert_ne in Hj by done. by eapply Hh.
Qed.

Lemma bounded_resize_step count : preserves bounded (modify (resize count)).
Proof.
  apply preserves_modify. intros s [Hl Hh]. unfold resize. destruct (negb _); [|done].
  split; [done|]. simpl. intros i d. rewrite fresh_hist_lookup.
  case_decide; [|done]. intros [= <-]. simpl. lia.
Qed.

Lemma bounded_latest_temp_store idx x : preserves bounded (latest_temp_store idx x).
Proof. apply preserves_latest_temp_store; intros; assumption. Qed.

Lemma bounded_shelf_store idx f : preserves bounded (shelf_store idx f).
Proof. apply preserves_shelf_store; intros; assumption. Qed.

Lemma bounded_add_alarm now sev shelf name desc ack :
  preserves bounded (add_alarm now sev shelf name desc ack).
Proof.
  intros s Hs. rewrite add_alarm_eq. destruct (_find_alarm _ _ _ _); [done|].
  simpl. unfold raised. by apply bounded_log.
Qed.

#[local] Hint Resolve bounded_log_step bounded_hist_append bounded_resize_step
  bounded_latest_temp_store bounded_shelf_store bounded_add_alarm bounded_log : bounds.

Lemma bounded_clear_alarm now sev shelf name :
  preserves bounded (clear_alarm now sev shelf name).
Proof. unfold clear_alarm. inv_go ltac:(auto with bounds). Qed.

Lemma bounded_drop_shelf_alarms idx : preserves bounded (drop_shelf_alarms idx).
Proof. apply preserves_drop_shelf_alarms; intros; assumption. Qed.

#[local] Hint Resolve bounded_clear_alarm bounded_drop_shelf_alarms : bounds.

Lemma bounded_process_msg now msg : preserves bounded (process_msg now msg).
Proof.
  unfold process_msg, process_status, process_live_temp, process_alarm_state, process_log,
    status_maintenance, status_entry, status_alarms, status_alarm, alarm_state_alarm.
  inv_go ltac:(auto with bounds).
Qed.

Lemma bounded_read_all now n port : preserves bounded (read_all now n port).
Proof.
  revert port. induction n as [|n IH]; intros port; [apply preserves_ret|].
  destruct port as [|[|raw|v|e] port]; simpl.
  - apply preserves_ret.
  - apply IH.
  - apply preserves_bind; [apply bounded_log_step | intros _; apply IH].
  - apply preserves_bind; [apply IH | intros ?; apply preserves_ret].
  - apply preserves_bind; [apply bounded_log_step | intros _; apply preserves_ret].
Qed.

Lemma bounded_init_state t : bounded (init_state t).
Proof.
  split; [simpl; unfold LOG_LIMIT; lia|]. intros i d.
  change (hist (init_state t)) with (fresh_hist 2). rewrite fresh_hist_lookup.
  case_decide; [|done]. intros [= <-]. simpl. lia.
Qed.

(** X2. The log never holds more than [LOG_LIMIT] lines and no
    history deque more than [HISTORY_LEN] samples: a scheduler tick in
    either mode, any telemetry message and the operator's acknowledge and
    clear commands keep both bounds, also when the step ends in an
    exception. *)
Theorem bounded_kept (s : Session) :
  bounded s ->
  (forall fmt_1f draws now port, bounded (fst (tick fmt_1f draws now port s)))
  /\ (forall now msg, bounded (fst (process_msg now msg s)))
  /\ (forall now sev shelf name, bounded (fst (ack_alarm now sev shelf name s)))
  /\ (forall now sev shelf name, bounded (fst (clear_alarm now sev shelf name s)))
  /\ (forall now, bounded (fst (ack_all_alarms now s))).
Proof.
  intros Hs. split; [|split; [|split; [|split]]].
  - intros fmt_1f draws now port. revert s Hs.
    change (preserves bounded (tick fmt_1f draws now port)).
    unfold tick, read_from_pi, demo_tick, demo_shelf, demo_maintenance, demo_alarm_heuristic.
    inv_go ltac:(auto using bounded_read_all, bounded_process_msg with bounds).
  - intros now msg. by apply bounded_process_msg.
  - intros now sev shelf name. revert s Hs.
    change (preserves bounded (ack_alarm now sev shelf name)).
    unfold ack_alarm, send_to_pi. inv_go ltac:(auto with bounds).
    apply preserves_modify. intros s0 Hs0. by destruct (link_open s0).
  - intros now sev shelf name. by apply bounded_clear_alarm.
  - intros now. revert s Hs. change (preserves bounded (ack_all_alarms now)).
    unfold ack_all_alarms. inv_go ltac:(auto with bounds).
Qed.

Lemma bounded_kept_witness :
  bounded (fst (tick fmt_sample draws_sample 5 [] (init_state 0)))
  /\ bounded (fst (process_msg 5 msg_live_90 (init_state 0))).
Proof.
  destruct (bounded_kept (init_state 0) (bounded_init_state 0)) as (H1 & H2 & _).
  split; [apply H1 | apply H2].
Defined.

(** ** Single readings (LIVE_TEMP) *)

Lemma process_msg_live_temp now d s :
  assoc "type" d = Some (VStr "LIVE_TEMP") ->
  process_msg now (VDict d) s = process_live_temp now (VDict d) s.
Proof. intros Ht. unfold process_msg. unfold_m. simpl. by rewrite Ht. Qed.

Lemma norm_index_in_range len i :
  0 <= i < Z.of_nat len -> norm_index len (VInt i) = Ok (Z.to_nat i).
Proof.
  intros Hi. unfold norm_index. simpl.
  destruct (0 <=? i) eqn:H0; [|lia]. destruct (i <? Z.of_nat len) eqn:H1; [done | lia].
Qed.

Lemma norm_index_wrap len i :
  - Z.of_nat len <= i < 0 -> norm_index len (VInt i) = Ok (Z.to_nat (Z.of_nat len + i)).
Proof.
  intros Hi. unfold norm_index. simpl.
  destruct (0 <=? i) eqn:H0; [lia|]. simpl.
  destruct (- Z.of_nat len <=? i) eqn:H1; [|lia]. destruct (i <? 0) eqn:H2; [done | lia].
Qed.

Lemma norm_index_outside len i :
  i < - Z.of_nat len \/ Z.of_nat len <= i -> norm_index len (VInt i) = Raise IndexError.
Proof.
  intros Hi. unfold norm_index. simpl.
  destruct (0 <=? i) eqn:H0, (i <? Z.of_nat len) eqn:H1; simpl; try lia;
    destruct (- Z.of_nat len <=? i) eqn:H2, (i <? 0) eqn:H3; simpl; try done; lia.
Qed.

Lemma live_temp_step now d n s :
  arrays_ok s ->
  assoc "type" d = Some (VStr "LIVE_TEMP") ->
  py_get (VDict d) "shelf" (VInt 1) = Ok (VInt n) ->
  1 <= n <= Z.of_nat (num_shelves s) ->
  exists old,
    hist s !! (n - 1) = Some old
    /\ process_msg now (VDict d) s =
        (set_last_update_ts now
           (set_hist (insert (n - 1)
                        (deque_append HISTORY_LEN (default VNone (assoc "value" d)) old))
              (set_latest_temp (<[Z.to_nat (n - 1) := default VNone (assoc "value" d)]>) s)),
         Ok tt).
Proof.
  intros (Hsh & Hlt & Hh) Ht Hid Hn.
  destruct (proj2 (Hh (n - 1))) as [old Hold]; [lia|].
  exists old. split; [done|]. rewrite (process_msg_live_temp _ _ _ Ht).
  unfold process_live_temp. unfold_m. rewrite Hid. simpl.
  unfold latest_temp_store. rewrite norm_index_in_range by lia.
  unfold hist_append. simpl. by rewrite Hold.
Qed.

(** X3. A LIVE_TEMP message whose shelf identity [n] (1 when the
    message names none) lies within [1 .. num_shelves] is processed
    without fault: the reading, [None] when the message carries no value,
    becomes the latest temperature of shelf [n - 1] and is appended to
    that shelf's history deque; the other shelves' readings, the bounds,
    the alarm registry, the log and the maintenance record are left
    untouched, and the update time is set. *)
Theorem live_temp_in_range (now : Q) (d : list (string * value)) (n : Z) (s : Session) :
  arrays_ok s ->
  assoc "type" d = Some (VStr "LIVE_TEMP") ->
  py_get (VDict d) "shelf" (VInt 1) = Ok (VInt n) ->
  1 <= n <= Z.of_nat (num_shelves s) ->
  let val := default VNone (assoc "value" d) in
  exists s' old,
    process_msg now (VDict d) s = (s', Ok tt)
    /\ hist s !! (n - 1) = Some old
    /\ latest_temp s' = <[Z.to_nat (n - 1) := val]> (latest_temp s)
    /\ hist s' = <[n - 1 := deque_append HISTORY_LEN val old]> (hist s)
    /\ shelves s' = shelves s
    /\ alarms s' = alarms s
    /\ logs s' = logs s
    /\ maintenance s' = maintenance s
    /\ last_update_ts s' = now.
Proof.
  intros Hs Ht Hid Hn val.
  destruct (live_temp_step now d n s Hs Ht Hid Hn) as (old & Hold & Hrun).
  eexists _, old. split; [exact Hrun|]. by repeat split.
Qed.

Lemma live_temp_in_range_witness :
  exists s' old,
    process_msg 5 (VDict fields_live_2) (init_state 0) = (s', Ok tt)
    /\ hist (init_state 0) !! (2 - 1) = Some old
    /\ latest_temp s' = <[Z.to_nat (2 - 1) := VFloat 71]> (latest_temp (init_state 0))
    /\ hist s' = <[2 - 1 := deque_append HISTORY_LEN (VFloat 71) old]> (hist (init_state 0))
    /\ shelves s' = shelves (init_state 0)
    /\ alarms s' = alarms (init_state 0)
    /\ logs s' = logs (init_state 0)
    /\ maintenance s' = maintenance (init_state 0)
    /\ last_update_ts s' = 5%Q.
Proof.
  apply (live_temp_in_range 5 fields_live_2 2 (init_state 0)).
  - apply init_state_well_formed.
  - reflexivity.
  - reflexivity.
  - vm_compute. split; discriminate.
Defined.

(** X4. There is no range check on the shelf identity of a LIVE_TEMP
    message. An identity above the shelf count, or so far below zero that
    the index falls off the front, makes [process_msg] raise [IndexError]
    with the session untouched. An identity [n] with
    [1 - num_shelves <= n <= 0] is a negative list index: the reading
    overwrites the latest temperature of shelf [num_shelves + n - 1],
    counted from the end, and only then the history lookup raises
    [KeyError]. *)
Theorem live_temp_out_of_range (now : Q) (d : list (string * value)) (n : Z) (s : Session) :
  arrays_ok s ->
  assoc "type" d = Some (VStr "LIVE_TEMP") ->
  py_get (VDict d) "shelf" (VInt 1) = Ok (VInt n) ->
  (Z.of_nat (num_shelves s) < n \/ n <= - Z.of_nat (num_shelves s) ->
   process_msg now (VDict d) s = (s, Raise IndexError))
  /\ (1 - Z.of_nat (num_shelves s) <= n <= 0 ->
      process_msg now (VDict d) s =
        (set_latest_temp
           (<[Z.to_nat (Z.of_nat (num_shelves s) + n - 1) := default VNone (assoc "value" d)]>) s,
         Raise KeyError)).
Proof.
  intros (Hsh & Hlt & Hh) Ht Hid.
  rewrite (process_msg_live_temp _ _ _ Ht).
  unfold process_live_temp. unfold_m. rewrite Hid. simpl.
  unfold latest_temp_store. rewrite Hlt. split; intros Hn.
  - rewrite norm_index_outside by lia. done.
  - rewrite norm_index_wrap by lia. unfold hist_append. simpl.
    destruct (hist s !! (n - 1)) as [old|] eqn:Hold.
    + assert (0 <= n - 1) by (apply Hh; by eexists). lia.
    + replace (Z.of_nat (num_shelves s) + (n - 1)) with (Z.of_nat (num_shelves s) + n - 1)
        by lia. done.
Qed.

Lemma live_temp_out_of_range_witness :
  process_msg 5 (VDict fields_live_3) (init_state 0) = (init_state 0, Raise IndexError)
  /\ process_msg 5 (VDict fields_live_0) (init_state 0) =
       (set_latest_temp (<[1%nat := VFloat 71]>) (init_state 0), Raise KeyError).
Proof.
  split.
  - apply (live_temp_out_of_range 5 fields_live_3 3 (init_state 0)
             (proj1 (init_state_well_formed 0)) eq_refl eq_refl).
    left. vm_compute. reflexivity.
  - apply (live_temp_out_of_range 5 fields_live_0 0 (init_state 0)
             (proj1 (init_state_well_formed 0)) eq_refl eq_refl).
    vm_compute. split; discriminate.
Defined.

(** ** Full snapshots (STATUS) *)

Lemma num_shelves_status_entry now e c :
  preserves (fun s => num_shelves s = c) (status_entry now e).
Proof.
  unfold status_entry, status_alarms, status_alarm, drop_shelf_alarms.
  inv_go ltac:(first [ by apply preserves_latest_temp_store
                     | by apply preserves_shelf_store
                     | by apply preserves_hist_append
                     | by apply preserves_add_alarm ]).
Qed.

(** X5. Once a STATUS message with a list of shelf entries has been
    handled, the store's shelf count is the number of entries, whether
    the entries were then processed to the end or one of them raised. *)
Theorem status_sets_shelf_count (now : Q) (d : list (string * value))
    (entries : list value) (s : Session) :
  assoc "type" d = Some (VStr "STATUS") ->
  assoc "shelves" d = Some (VList entries) ->
  num_shelves (fst (process_msg now (VDict d) s)) = length entries.
Proof.
  intros Ht Hsh. rewrite (process_msg_status _ _ _ Ht).
  unfold process_status. unfold mbind at 1, M_bind, bind, lift. simpl. rewrite Hsh.
  unfold mbind at 1, M_bind, bind, lift. simpl.
  unfold mbind at 1, M_bind, bind, modify.
  unfold mbind at 1, M_bind, bind, lift. simpl.
  assert (Hres : num_shelves (resize (length entries) s) = length entries).
  { unfold resize. destruct (length entries =? num_shelves s)%nat eqn:Heq; simpl; [|done].
    by apply Nat.eqb_eq in Heq. }
  revert Hres. generalize (resize (length entries) s). intros s1 Hres.
  change (num_shelves (fst ((for_each (status_entry now) (enumerate entries) ;;
            status_maintenance (VDict d) ;; modify (set_last_update_ts now)) s1))
          = length entries).
  revert s1 Hres. apply (preserves_bind (fun s => num_shelves s = length entries)).
  - apply preserves_for_each. intros e. apply num_shelves_status_entry.
  - intros _. unfold status_maintenance. inv_go fail.
Qed.

Lemma status_sets_shelf_count_witness :
  num_shelves (fst (process_msg 2 msg_no_ceilings (init_state 0))) = 3%nat.
Proof.
  apply (status_sets_shelf_count 2 fields_no_ceilings
           [VDict [("shelf", VInt 1)]; VDict [("shelf", VInt 2)]; VDict [("shelf", VInt 3)]]
           (init_state 0)); reflexivity.
Defined.

Lemma entry_bounds_run d sp up lo :
  entry_bounds d = Some (sp, up, lo) ->
  exists sp_arr n,
    py_get (VDict d) "setpoint" (VList [VFloat 75; VFloat 77; VFloat 73]) = Ok sp_arr
    /\ py_len sp_arr = Ok n
    /\ (if (0 <? n)%nat then py_nth sp_arr 0 else Ok (VFloat 75)) = Ok sp
    /\ (if (1 <? n)%nat then py_nth sp_arr 1 else py_add sp (VInt 2)) = Ok up
    /\ (if (2 <? n)%nat then py_nth sp_arr 2 else py_sub sp (VInt 2)) = Ok lo.
Proof.
  unfold entry_bounds, py_get. intros H.
  destruct (assoc "setpoint" d) as [v|].
  - destruct v as [| | | | |[|a [|b [|c l]]]|]; try discriminate; eexists _, _;
      (split; [reflexivity|]); (split; [reflexivity|]); simpl.
    + by injection H as <- <- <-.
    + destruct (py_add a (VInt 2)) as [u|] eqn:Hu; [|discriminate].
      destruct (py_sub a (VInt 2)) as [l|] eqn:Hl; [|discriminate].
      by injection H as <- <- <-.
    + destruct (py_sub a (VInt 2)) as [l|] eqn:Hl; [|discriminate].
      by injection H as <- <- <-.
    + by injection H as <- <- <-.
  - injection H as <- <- <-. eexists _, _.
    split; [reflexivity|]. split; [reflexivity|]. done.
Qed.

Lemma shelf_store_in_range i f s :
  0 <= i < Z.of_nat (length (shelves s)) ->
  shelf_store (VInt i) f s = (set_shelves (alter f (Z.to_nat i)) s, Ok tt).
Proof. intros Hi. unfold shelf_store. by rewrite norm_index_in_range. Qed.

(** X6. A STATUS entry for a shelf identity [n] within range that is
    processed to the end rewrites that shelf and no other: the power flag
    is the entry's systemOn (on when absent) and the bounds are read from
    its setpoint array, with upper and lower falling back to setpoint + 2
    and setpoint - 2 when the array is short and all three reset to
    75/77/73 when the entry has no array at all. The entry's temp
    becomes the latest reading and is appended to the shelf's history
    only when it is not [None]. *)
Theorem status_entry_bounds (now : Q) (k : nat) (d : list (string * value)) (n : Z)
    (sp up lo : value) (s s' : Session) :
  arrays_ok s ->
  py_get (VDict d) "shelf" (VInt (Z.of_nat k)) = Ok (VInt n) ->
  1 <= n <= Z.of_nat (num_shelves s) ->
  entry_bounds d = Some (sp, up, lo) ->
  status_entry now (k, VDict d) s = (s', Ok tt) ->
  let i := Z.to_nat (n - 1) in
  let temp := default VNone (assoc "temp" d) in
  shelves s' !! i = Some (mkShelf (default (VBool true) (assoc "systemOn" d)) sp up lo)
  /\ (forall j, j ≠ i -> shelves s' !! j = shelves s !! j)
  /\ latest_temp s' = <[i := temp]> (latest_temp s)
  /\ (temp = VNone -> hist s' = hist s)
  /\ (temp ≠ VNone ->
      exists old, hist s !! (n - 1) = Some old
                  /\ hist s' = <[n - 1 := deque_append HISTORY_LEN temp old]> (hist s)).
Proof.
  intros (Hsh & Hlt & Hh) Hid Hn Hb Hrun i temp.
  set (on := default (VBool true) (assoc "systemOn" d)).
  assert (Htv : py_get (VDict d) "temp" VNone = Ok temp) by reflexivity.
  assert (Hov : py_get (VDict d) "systemOn" (VBool true) = Ok on) by reflexivity.
  clearbody temp on.
  destruct (entry_bounds_run _ _ _ _ Hb) as (sp_arr & m & E1 & E2 & E3 & E4 & E5).
  unfold status_entry in Hrun.
  run_step Hrun as s1 incoming Hincoming. rewrite Hid in Hincoming. injection Hincoming as <-.
  run_step Hrun as s1 idx Hidx. simpl in Hidx. injection Hidx as <-.
  run_step Hrun as s1 temp' Htemp. rewrite Htv in Htemp. injection Htemp as <-.
  run_step Hrun as s1 sp_arr' Hsp_arr. rewrite E1 in Hsp_arr. injection Hsp_arr as <-.
  run_step Hrun as s1 m' Hm. rewrite E2 in Hm. injection Hm as <-.
  run_step Hrun as s1 sp' Hsp. rewrite E3 in Hsp. injection Hsp as <-.
  run_step Hrun as s1 up' Hup. rewrite E4 in Hup. injection Hup as <-.
  run_step Hrun as s1 lo' Hlo. rewrite E5 in Hlo. injection Hlo as <-.
  run_step Hrun as s1 u1 Hst1.
  unfold latest_temp_store in Hst1. rewrite norm_index_in_range in Hst1 by lia.
  injection Hst1 as <- _.
  run_step Hrun as s2 u2 Hst2. rewrite shelf_store_in_range in Hst2 by (simpl; lia).
  injection Hst2 as <- _.
  run_step Hrun as s3 u3 Hst3.
  rewrite shelf_store_in_range in Hst3 by (simpl; rewrite length_alter; lia).
  injection Hst3 as <- _.
  run_step Hrun as s4 u4 Hst4.
  rewrite shelf_store_in_range in Hst4 by (simpl; rewrite !length_alter; lia).
  injection Hst4 as <- _.
  run_step Hrun as s5 on' Hon. rewrite Hov in Hon. injection Hon as <-.
  run_step Hrun as s5 u5 Hst5.
  rewrite shelf_store_in_range in Hst5 by (simpl; rewrite !length_alter; lia).
  injection Hst5 as <- _.
  run_step Hrun as s6 u6 Hst6.
  run_step Hrun as s7 fh0 Hfh0.
  run_step Hrun as s7 fh Hfh.
  run_step Hrun as s7 u7 Hset1.
  run_step Hrun as s8 eh0 Heh0.
  run_step Hrun as s8 eh Heh.
  run_step Hrun as s8 u8 Hset2.
  fold i in Hst6, Hrun.
  set (sA := set_shelves _ (set_shelves _ (set_shelves _ (set_shelves _
               (set_latest_temp _ s))))) in Hst6.
  assert (HsA : shelves s6 = shelves sA /\ latest_temp s6 = latest_temp sA).
  { split.
    - eapply (preserves_run (fun x => shelves x = shelves sA)); [|done|exact Hst6].
      destruct temp; first [apply preserves_ret | by apply preserves_hist_append].
    - eapply (preserves_run (fun x => latest_temp x = latest_temp sA)); [|done|exact Hst6].
      destruct temp; first [apply preserves_ret | by apply preserves_hist_append]. }
  destruct HsA as [HsA1 HsA2].
  assert (Hfin : shelves s' = shelves sA /\ latest_temp s' = latest_temp sA
                 /\ hist s' = hist s6).
  { split; [|split].
    - eapply (preserves_run (fun x => shelves x = shelves sA)); [| |exact Hrun];
        [by apply preserves_status_alarms | done].
    - eapply (preserves_run (fun x => latest_temp x = latest_temp sA)); [| |exact Hrun];
        [by apply preserves_status_alarms | done].
    - eapply (preserves_run (fun x => hist x = hist s6)); [| |exact Hrun];
        [by apply preserves_status_alarms | done]. }
  destruct Hfin as (F1 & F2 & F3). rewrite F1, F2, F3.
  assert (Hi : (i < length (shelves s))%nat) by (subst i; lia).
  destruct (lookup_lt_is_Some_2 (shelves s) i Hi) as [b0 Hb0].
  split; [|split; [|split; [|split]]].
  - subst sA. simpl. rewrite !list_lookup_alter. rewrite !decide_True by done.
    rewrite Hb0. done.
  - intros j Hj. subst sA. simpl. by rewrite !list_lookup_alter_ne.
  - done.
  - intros Ht. rewrite Ht in Hst6. by injection Hst6 as <-.
  - intros Ht.
    assert (Hst6' : hist_append (VInt (n - 1)) temp sA = (s6, Ok u6)) by (by destruct temp).
    unfold hist_append in Hst6'. simpl in Hst6'.
    destruct (hist s !! (n - 1)) as [old|] eqn:Hold; [|discriminate].
    exists old. split; [done|]. by injection Hst6' as <-.
Qed.

Lemma status_entry_bounds_witness :
  let s := init_state 0 in
  let s' := fst (status_entry 5 (1%nat, VDict fields_entry_setpoint) s) in
  shelves s' !! 1%nat = Some (mkShelf (VBool false) (VInt 60) (VInt 62) (VInt 58))
  /\ (forall j, j ≠ 1%nat -> shelves s' !! j = shelves s !! j)
  /\ latest_temp s' = <[1%nat := VFloat 70]> (latest_temp s)
  /\ (VFloat 70 = VNone -> hist s' = hist s)
  /\ (VFloat 70 ≠ VNone ->
      exists old, hist s !! (2 - 1) = Some old
                  /\ hist s' = <[2 - 1 := deque_append HISTORY_LEN (VFloat 70) old]> (hist s)).
Proof.
  intros s s'.
  apply (status_entry_bounds 5 1 fields_entry_setpoint 2 (VInt 60) (VInt 62) (VInt 58) s s').
  - apply init_state_well_formed.
  - reflexivity.
  - vm_compute. split; discriminate.
  - reflexivity.
  - vm_compute. reflexivity.
Defined.

(** ** Acknowledging and clearing *)

Lemma same_but_ack_refl a : same_but_ack a a.
Proof. by repeat split. Qed.

Lemma Forall2_same_but_ack_refl l : Forall2 same_but_ack l l.
Proof. induction l; constructor; [apply same_but_ack_refl | done]. Qed.

Lemma same_key_acked shelf name a : same_key shelf name (acked a) = same_key shelf name a.
Proof. done. Qed.

Lemma ack_first_same_but_ack shelf name l :
  Forall2 same_but_ack l (ack_first shelf name l).
Proof.
  induction l as [|a l IH]; simpl; [constructor|].
  destruct (same_key shelf name a).
  - constructor; [by repeat split | apply Forall2_same_but_ack_refl].
  - constructor; [apply same_but_ack_refl | done].
Qed.

Lemma find_ack_first shelf name l a :
  List.find (same_key shelf name) l = Some a ->
  List.find (same_key shelf name) (ack_first shelf name l) = Some (acked a).
Proof.
  induction l as [|b l IH]; simpl; [done|].
  destruct (same_key shelf name b) eqn:Hb; simpl.
  - intros [= ->]. by rewrite same_key_acked, Hb.
  - rewrite Hb. apply IH.
Qed.

Lemma has_alarm_find sev i nm s :
  has_alarm sev i nm s = true <-> is_Some (_find_alarm sev (VInt i) (VStr nm) s).
Proof.
  unfold has_alarm, _find_alarm. generalize (bucket sev s). intros l.
  induction l as [|a l IH]; simpl.
  - split; [done | by intros [? ?]].
  - destruct (same_key (VInt i) (VStr nm) a); [|done]. split; [by eexists | done].
Qed.

Lemma ack_alarm_eq now sev i nm s :
  ack_alarm now sev (VInt i) (VStr nm) s =
  match _find_alarm sev (VInt i) (VStr nm) s with
  | Some a => if truthy (alarm_ack a) then (s, Ok tt) else (acknowledged now sev i nm s, Ok tt)
  | None => (s, Ok tt)
  end.
Proof.
  unfold ack_alarm, acknowledged. unfold_m.
  destruct (_find_alarm sev (VInt i) (VStr nm) s) as [a|]; [|done].
  destruct (truthy (alarm_ack a)); simpl; [done|].
  unfold send_to_pi, modify. simpl. by destruct (link_open s).
Qed.

(** X7. [ack_alarm] on an integer shelf and a string name always
    returns. It neither adds nor removes records: every bucket keeps the
    same records in the same order, each with its shelf, name,
    description and time, and no flag that was set is ever unset. When a
    record with the key exists it is acknowledged afterwards; when none
    exists the session is unchanged; nothing is written to the serial
    port while the link is closed; and a second [ack_alarm] with the same
    key changes nothing (no second log line, no second command). *)
Theorem ack_alarm_monotone (now now' : Q) (sev : string) (i : Z) (nm : string) (s : Session) :
  let s1 := fst (ack_alarm now sev (VInt i) (VStr nm) s) in
  snd (ack_alarm now sev (VInt i) (VStr nm) s) = Ok tt
  /\ (forall sev', Forall2 same_but_ack (bucket sev' s) (bucket sev' s1))
  /\ (has_alarm sev i nm s = true ->
      exists a, _find_alarm sev (VInt i) (VStr nm) s1 = Some a
                /\ truthy (alarm_ack a) = true)
  /\ (has_alarm sev i nm s = false -> s1 = s)
  /\ (link_open s = false -> outbox s1 = outbox s)
  /\ ack_alarm now' sev (VInt i) (VStr nm) s1 = (s1, Ok tt).
Proof.
  intros s1. subst s1. rewrite !(ack_alarm_eq now).
  destruct (_find_alarm sev (VInt i) (VStr nm) s) as [a|] eqn:Hf.
  - destruct (truthy (alarm_ack a)) eqn:Hack; simpl.
    + split; [done|]. split; [intros; apply Forall2_same_but_ack_refl|].
      split; [intros _; by exists a|]. split; [done|]. split; [done|].
      by rewrite ack_alarm_eq, Hf, Hack.
    + set (s1 := acknowledged now sev i nm s).
      assert (Hb : forall sev', bucket sev' s1 =
                if decide (sev = sev')
                then ack_first (VInt i) (VStr nm) (bucket sev s) else bucket sev' s).
      { intros sev'. unfold s1, acknowledged.
        destruct (link_open s), (decide (sev = sev')) as [<-|Hne];
          unfold bucket; simpl;
          first [ by rewrite lookup_insert_eq | by rewrite lookup_insert_ne ]. }
      assert (Hf1 : _find_alarm sev (VInt i) (VStr nm) s1 = Some (acked a)).
      { unfold _find_alarm. rewrite Hb, decide_True by done. by apply find_ack_first. }
      split; [done|]. split; [|split; [|split; [|split]]].
      * intros sev'. rewrite Hb. destruct (decide _) as [<-|];
          [apply ack_first_same_but_ack | apply Forall2_same_but_ack_refl].
      * intros _. by exists (acked a).
      * intros Hno. apply not_true_iff_false in Hno. exfalso. apply Hno.
        apply has_alarm_find. by rewrite Hf.
      * intros Hclosed. unfold s1, acknowledged. by rewrite Hclosed.
      * by rewrite ack_alarm_eq, Hf1.
  - simpl. split; [done|]. split; [intros; apply Forall2_same_but_ack_refl|].
    split.
    { intros Hyes. apply has_alarm_find in Hyes. rewrite Hf in Hyes. by destruct Hyes. }
    split; [done|]. split; [done|].
    by rewrite ack_alarm_eq, Hf.
Qed.

Lemma ack_alarm_monotone_witness :
  has_alarm "ERROR" 0 "OVERTEMP" s_two_alarms = true
  /\ exists a,
       _find_alarm "ERROR" (VInt 0) (VStr "OVERTEMP")
         (fst (ack_alarm 5 "ERROR" (VInt 0) (VStr "OVERTEMP") s_two_alarms)) = Some a
       /\ truthy (alarm_ack a) = true.
Proof.
  assert (H0 : has_alarm "ERROR" 0 "OVERTEMP" s_two_alarms = true) by (vm_compute; reflexivity).
  destruct (ack_alarm_monotone 5 6 "ERROR" 0 "OVERTEMP" s_two_alarms) as (_ & _ & H & _).
  split; [exact H0 | exact (H H0)].
Defined.

Lemma filter_negb_find_None {A} (f : A -> bool) l :
  List.find f (List.filter (fun a => negb (f a)) l) = None.
Proof.
  induction l as [|a l IH]; [done|]. simpl.
  destruct (f a) eqn:Hf; simpl; [done | by rewrite Hf].
Qed.

(** X8. Clearing an alarm whose severity has a bucket always returns
    and removes every record with the key and no other: the bucket keeps
    its remaining records in order, other buckets are untouched, and a log
    line is written only when something was removed. A raise that follows
    always inserts: the key is then held by one fresh record with the new
    description, time and flag, whatever the cleared record's
    acknowledged state was. *)
Theorem clear_then_raise_fresh (now1 now2 : Q) (sev : string) (i : Z) (nm : string)
    (desc ack : value) (arr : list Alarm) (s : Session) :
  alarms s !! sev = Some arr ->
  let not_key := fun a => negb (same_key (VInt i) (VStr nm) a) in
  let s1 := fst (clear_alarm now1 sev (VInt i) (VStr nm) s) in
  let s2 := fst (add_alarm now2 sev (VInt i) (VStr nm) desc ack s1) in
  snd (clear_alarm now1 sev (VInt i) (VStr nm) s) = Ok tt
  /\ bucket sev s1 = List.filter not_key arr
  /\ (forall sev', sev' ≠ sev -> bucket sev' s1 = bucket sev' s)
  /\ logs s1 = (if has_alarm sev i nm s
                then deque_append LOG_LIMIT (now1, LogCleared sev (VInt i) (VStr nm)) (logs s)
                else logs s)
  /\ bucket sev s2 = List.filter not_key arr ++ [mkAlarm (VInt i) (VStr nm) desc now2 ack].
Proof.
  intros Hb not_key s1 s2.
  assert (Hbk : bucket sev s = arr) by (unfold bucket; by rewrite Hb).
  assert (Hclear : clear_alarm now1 sev (VInt i) (VStr nm) s =
            (if has_alarm sev i nm s
             then set_logs (deque_append LOG_LIMIT (now1, LogCleared sev (VInt i) (VStr nm)))
                    (set_alarms (insert sev (List.filter not_key arr)) s)
             else s, Ok tt)).
  { unfold clear_alarm, bucket_item, has_alarm. unfold_m. rewrite Hb, Hbk.
    by destruct (existsb _ arr). }
  assert (Hs1 : bucket sev s1 = List.filter not_key arr).
  { unfold s1. rewrite Hclear. simpl. unfold has_alarm. rewrite Hbk.
    destruct (existsb _ arr) eqn:Hex.
    - by rewrite bucket_set_logs, bucket_insert_eq.
    - rewrite Hbk. symmetry. apply forallb_filter_id. apply forallb_forall.
      intros a Ha. subst not_key. simpl. destruct (same_key _ _ a) eqn:Hk; [|done].
      assert (existsb (same_key (VInt i) (VStr nm)) arr = true)
        by (apply existsb_exists; eauto). congruence. }
  split; [by rewrite Hclear|]. split; [done|]. split; [|split].
  - intros sev' Hne. unfold s1. rewrite Hclear. simpl. destruct (has_alarm _ _ _ _); [|done].
    rewrite bucket_set_logs. by apply bucket_insert_ne.
  - unfold s1. rewrite Hclear. simpl. by destruct (has_alarm _ _ _ _).
  - unfold s2. rewrite add_alarm_eq. unfold _find_alarm. rewrite Hs1.
    subst not_key. rewrite filter_negb_find_None. simpl.
    unfold raised. by rewrite bucket_set_logs, bucket_insert_eq, Hs1.
Qed.

Lemma clear_then_raise_fresh_witness :
  bucket "CRITICAL"
    (fst (add_alarm 6 "CRITICAL" (VInt 0) (VStr "OVERHEAT") (VStr "again") (VBool false)
            (fst (clear_alarm 5 "CRITICAL" (VInt 0) (VStr "OVERHEAT") s_two_alarms))))
  = [mkAlarm (VInt 0) (VStr "OVERHEAT") (VStr "again") 6 (VBool false)].
Proof.
  assert (Hb : alarms s_two_alarms !! "CRITICAL"
               = Some [mkAlarm (VInt 0) (VStr "OVERHEAT") (VStr "old") 1 (VBool true)])
    by reflexivity.
  destruct (clear_then_raise_fresh 5 6 "CRITICAL" 0 "OVERHEAT" (VStr "again") (VBool false)
              _ s_two_alarms Hb) as (_ & _ & _ & _ & H).
  exact H.
Defined.

(** ** Clamping *)

Lemma clamp_cases (v : value) (lo hi : Q) :
  (forall p, as_num v = Some p ->
     exists r q, clamp v lo hi = Ok r /\ as_num r = Some q
       /\ ((lo <= hi)%Q -> (lo <= q <= hi)%Q)
       /\ ((lo < p < hi)%Q -> r = v)
       /\ ((hi <= p)%Q -> (lo < hi)%Q -> r = VFloat hi)
       /\ ((p <= lo)%Q \/ ((hi <= p)%Q /\ (hi <= lo)%Q) -> r = VFloat lo))
  /\ (as_num v = None -> clamp v lo hi = Raise TypeError).
Proof.
  split.
  - intros p Hp. unfold clamp. rewrite Hp.
    destruct (Qle_bool hi p) eqn:H1; simpl.
    + apply Qle_bool_iff in H1.
      destruct (Qle_bool hi lo) eqn:H2; simpl.
      * apply Qle_bool_iff in H2. exists (VFloat lo), lo.
        split; [done|]. split; [done|]. split; [|split; [|split]]; try done.
        -- intros Hle. split; [apply Qle_refl | done].
        -- intros [_ Hlt]. exfalso. apply (Qlt_irrefl p). by eapply Qlt_le_trans.
        -- intros _ Hlt. exfalso. apply (Qlt_irrefl lo). by eapply Qlt_le_trans.
      * apply Qle_bool_false in H2. exists (VFloat hi), hi.
        split; [done|]. split; [done|]. split; [|split; [|split]]; try done.
        -- intros Hle. split; [done | apply Qle_refl].
        -- intros [_ Hlt]. exfalso. apply (Qlt_irrefl p). by eapply Qlt_le_trans.
        -- intros [Hle|[_ Hle]]; exfalso.
           ++ apply (Qlt_irrefl lo). eapply Qlt_le_trans; [exact H2|].
              by eapply Qle_trans.
           ++ apply (Qlt_irrefl lo). by eapply Qlt_le_trans.
    + apply Qle_bool_false in H1. rewrite Hp.
      destruct (Qle_bool p lo) eqn:H2; simpl.
      * apply Qle_bool_iff in H2. exists (VFloat lo), lo.
        split; [done|]. split; [done|]. split; [|split; [|split]]; try done.
        -- intros Hle. split; [apply Qle_refl | done].
        -- intros [Hlt _]. exfalso. apply (Qlt_irrefl p). by eapply Qle_lt_trans.
        -- intros Hle _. exfalso. apply (Qlt_irrefl p). by eapply Qlt_le_trans.
      * apply Qle_bool_false in H2. exists v, p.
        split; [done|]. split; [done|]. split; [|split; [|split]]; try done.
        -- intros _. split; by apply Qlt_le_weak.
        -- intros Hle _. exfalso. apply (Qlt_irrefl p). by eapply Qlt_le_trans.
        -- intros [Hle|[Hle _]]; exfalso.
           ++ apply (Qlt_irrefl p). by eapply Qle_lt_trans.
           ++ apply (Qlt_irrefl p). by eapply Qlt_le_trans.
  - intros Hn. unfold clamp. by rewrite Hn.
Qed.

(** X9. [clamp(v, lo, hi)] on a number returns [v] itself when it
    lies strictly between the bounds, the upper bound when [v] is at or
    above it (and the bounds are in order), and the lower bound when [v]
    is at or below it; so with [lo <= hi] the result is always within
    [lo, hi]. On anything that is not a number it raises [TypeError]. *)
Theorem clamp_within (v : value) (lo hi : Q) :
  (forall p, as_num v = Some p ->
     exists r q, clamp v lo hi = Ok r /\ as_num r = Some q
       /\ ((lo <= hi)%Q -> (lo <= q <= hi)%Q)
       /\ ((lo < p < hi)%Q -> r = v)
       /\ ((hi <= p)%Q -> (lo < hi)%Q -> r = VFloat hi)
       /\ ((p <= lo)%Q \/ ((hi <= p)%Q /\ (hi <= lo)%Q) -> r = VFloat lo))
  /\ (as_num v = None -> clamp v lo hi = Raise TypeError).
Proof.
  split.
  - intros p Hp. exact (proj1 (clamp_cases v lo hi) p Hp).
  - exact (proj2 (clamp_cases v lo hi)).
Qed.

Lemma clamp_within_witness :
  exists r q, clamp (VInt 130) MIN_TEMP MAX_TEMP = Ok r /\ as_num r = Some q
    /\ ((MIN_TEMP <= MAX_TEMP)%Q -> (MIN_TEMP <= q <= MAX_TEMP)%Q)
    /\ ((MIN_TEMP < inject_Z 130 < MAX_TEMP)%Q -> r = VInt 130)
    /\ ((MAX_TEMP <= inject_Z 130)%Q -> (MIN_TEMP < MAX_TEMP)%Q -> r = VFloat MAX_TEMP)
    /\ ((inject_Z 130 <= MIN_TEMP)%Q
        \/ ((MAX_TEMP <= inject_Z 130)%Q /\ (MAX_TEMP <= MIN_TEMP)%Q) -> r = VFloat MIN_TEMP).
Proof.
  apply (proj1 (clamp_within (VInt 130) MIN_TEMP MAX_TEMP) (inject_Z 130)). reflexivity.
Defined.

Lemma clamp_float p lo hi r :
  (lo <= hi)%Q -> clamp (VFloat p) lo hi = Ok r ->
  exists q, r = VFloat q /\ (lo <= q <= hi)%Q.
Proof.
  intros Hle Hc.
  destruct (proj1 (clamp_cases (VFloat p) lo hi) p eq_refl) as (r' & q & Hc' & Hq & Hin & _).
  rewrite Hc in Hc'. injection Hc' as <-.
  assert (Hshape : exists q', r = VFloat q').
  { unfold clamp in Hc. simpl in Hc. destruct (Qle_bool hi p); simpl in Hc.
    - destruct (Qle_bool hi lo); injection Hc as <-; by eexists.
    - destruct (Qle_bool p lo); injection Hc as <-; by eexists. }
  destruct Hshape as [q' ->]. simpl in Hq. injection Hq as <-.
  exists q'. split; [done | by apply Hin].
Qed.

Lemma py_arith_float fz fq a d r :
  py_arith fz fq a (VFloat d) = Ok r -> exists q, r = VFloat q.
Proof.
  unfold py_arith. simpl. destruct (as_int a); destruct (as_num a); try discriminate;
    destruct (fits_float a && fits_float (VFloat d)); try discriminate;
    intros [= <-]; by eexists.
Qed.

Lemma py_add_float a d r : py_add a (VFloat d) = Ok r -> exists q, r = VFloat q.
Proof. destruct a; simpl; try apply py_arith_float. Qed.

Lemma MIN_MAX_TEMP : (MIN_TEMP <= MAX_TEMP)%Q.
Proof. unfold MIN_TEMP, MAX_TEMP. by vm_compute. Qed.

(** X10. A click on a shelf's minus or plus button that returns
    leaves that shelf's setpoint a float within [MIN_TEMP, MAX_TEMP],
    keeps its other fields and every other shelf, and changes nothing
    else in the session. *)
Theorem setpoint_click_clamped (up : bool) (i : nat) (s s' : Session) :
  setpoint_click up i s = (s', Ok tt) ->
  exists b q,
    shelves s !! i = Some b
    /\ shelves s' = <[i := mkShelf (is_on b) (VFloat q) (upper b) (lower b)]> (shelves s)
    /\ (MIN_TEMP <= q <= MAX_TEMP)%Q
    /\ s' = set_shelves (fun _ => shelves s') s.
Proof.
  unfold setpoint_click. intros Hrun.
  run_step Hrun as s1 bs Hbs.
  run_step Hrun as s1 b Hb.
  unfold list_item in Hb. destruct (shelves s !! i) as [b0|] eqn:Hb0; [|discriminate].
  injection Hb as <- <-.
  run_step Hrun as s1 v Hv.
  run_step Hrun as s1 c Hc.
  apply modify_ok_inv in Hrun as ->.
  assert (Hvf : exists p, v = VFloat p).
  { destruct up; [by eapply py_add_float | by eapply py_arith_float]. }
  destruct Hvf as [p ->].
  destruct (clamp_float _ _ _ _ MIN_MAX_TEMP Hc) as (q & -> & Hq).
  exists b0, q. split; [done|]. split; [|split; [done|]].
  - simpl. apply list_eq. intros j. destruct (decide (i = j)) as [<-|Hne].
    + rewrite list_lookup_alter, decide_True by done. rewrite Hb0. simpl.
      rewrite list_lookup_insert_eq; [done|]. by eapply lookup_lt_Some.
    + by rewrite list_lookup_alter_ne, list_lookup_insert_ne.
  - done.
Qed.

Lemma setpoint_click_clamped_witness :
  exists b q,
    shelves (init_state 0) !! 0%nat = Some b
    /\ shelves (fst (setpoint_click true 0 (init_state 0)))
       = <[0%nat := mkShelf (is_on b) (VFloat q) (upper b) (lower b)]> (shelves (init_state 0))
    /\ (MIN_TEMP <= q <= MAX_TEMP)%Q
    /\ fst (setpoint_click true 0 (init_state 0))
       = set_shelves (fun _ => shelves (fst (setpoint_click true 0 (init_state 0))))
           (init_state 0).
Proof.
  apply (setpoint_click_clamped true 0 (init_state 0)). vm_compute. reflexivity.
Defined.

(** ** The random walk of the demo generator *)

Lemma norm_index_nat len j k :
  norm_index len (VInt (Z.of_nat j)) = Ok k -> k = j.
Proof.
  destruct (decide (Z.of_nat j < Z.of_nat len)) as [Hlt|Hge].
  - rewrite norm_index_in_range by lia. intros [= <-]. lia.
  - rewrite norm_index_outside by lia. discriminate.
Qed.

Lemma latest_temp_store_other i j x v :
  i ≠ j ->
  preserves (fun s => latest_temp s !! i = v) (latest_temp_store (VInt (Z.of_nat j)) x).
Proof.
  intros Hne s Hs. unfold latest_temp_store.
  destruct (norm_index _ _) as [k|] eqn:Hk; [|done]. simpl.
  apply norm_index_nat in Hk as ->.
  by rewrite list_lookup_insert_ne.
Qed.

Lemma demo_shelf_reading_frame fmt draws now j i v :
  i ≠ j ->
  preserves (fun s => latest_temp s !! i = v) (demo_shelf fmt draws now j).
Proof.
  intros Hne. unfold demo_shelf, demo_alarm_heuristic, clear_alarm.
  inv_go ltac:(first [ by apply latest_temp_store_other
                     | by apply preserves_hist_append
                     | by apply preserves_add_alarm ]).
Qed.

Lemma demo_shelf_reading fmt draws now i s s' :
  demo_shelf fmt draws now i s = (s', Ok tt) -> reading_in_range i s'.
Proof.
  unfold demo_shelf. intros Hrun.
  run_step Hrun as s1 bs Hbs.
  run_step Hrun as s1 b Hb.
  unfold list_item in Hb. destruct (shelves s !! i) as [b0|]; [|discriminate].
  injection Hb as <- <-.
  run_step Hrun as s2 lt Hlt.
  run_step Hrun as s2 t Ht.
  unfold list_item in Ht. destruct (latest_temp s !! i) as [t0|] eqn:Ht0; [|discriminate].
  injection Ht as <- <-.
  run_step Hrun as s3 cur0 Hcur0.
  assert (s3 = s) as ->.
  { destruct (truthy t0).
    - by injection Hcur0 as <- _.
    - run_step Hcur0 as s4 sum Hsum. by apply lift_ok_inv in Hcur0 as [-> _]. }
  run_step Hrun as s4 cur1 Hcur1.
  run_step Hrun as s4 cur Hcur.
  assert (Hf : exists p, cur1 = VFloat p).
  { destruct (truthy (is_on b0)); [by eapply py_add_float | by eapply py_arith_float]. }
  destruct Hf as [p ->].
  destruct (clamp_float _ _ _ _ MIN_MAX_TEMP Hcur) as (q & -> & Hq).
  run_step Hrun as s4 u1 Hst.
  unfold latest_temp_store in Hst.
  destruct (norm_index _ _) as [k|] eqn:Hk; [|discriminate]. injection Hst as <- _.
  apply norm_index_nat in Hk as ->.
  exists q. split; [|done].
  eapply (preserves_run (fun x => latest_temp x !! i = Some (VFloat q))); [| |exact Hrun].
  - unfold demo_alarm_heuristic, clear_alarm.
    inv_go ltac:(first [ by apply preserves_hist_append | by apply preserves_add_alarm ]).
  - simpl. apply list_lookup_insert_eq. by eapply lookup_lt_Some.
Qed.

(** X11. After a demo tick that ran to its end, the latest reading
    of every shelf of the store is a float within
    [MIN_TEMP, MAX_TEMP] = [0, 120], whatever the readings, bounds and
    random draws were. *)
Theorem demo_tick_readings_in_range (fmt_1f : value -> string) (draws : nat -> Q)
    (now : Q) (s s' : Session) :
  demo_tick fmt_1f draws now s = (s', Ok tt) ->
  forall i, (i < num_shelves s)%nat -> reading_in_range i s'.
Proof.
  intros Hrun i Hi. unfold demo_tick in Hrun.
  run_step Hrun as s1 n Hn.
  run_step Hrun as s1 u Hloop. destruct u.
  assert (Hloop' : forall l s0 s2,
            for_each (demo_shelf fmt_1f draws now) l s0 = (s2, Ok tt) ->
            forall j, j ∈ l -> reading_in_range j s2).
  { induction l as [|x l IH]; intros s0 s2 Hl j Hj; [by apply elem_of_nil in Hj|].
    rewrite for_each_cons in Hl.
    destruct (demo_shelf fmt_1f draws now x s0) as [s3 [[]|e]] eqn:Hx; [|discriminate].
    destruct (decide (j ∈ l)) as [Hin|Hnin]; [by eapply IH|].
    apply elem_of_cons in Hj as [->|Hj]; [|done].
    destruct (demo_shelf_reading _ _ _ _ _ _ Hx) as (q & Hq & Hr).
    exists q. split; [|done].
    eapply (preserves_run (fun st => latest_temp st !! x = Some (VFloat q))); [|exact Hq|exact Hl].
    apply preserves_for_each_in. intros y Hy. apply demo_shelf_reading_frame.
    intros ->. done. }
  destruct (Hloop' _ _ _ Hloop i) as (q & Hq & Hr).
  { apply list_elem_of_In, in_seq. lia. }
  exists q. split; [|done].
  eapply (preserves_run (fun st => latest_temp st !! i = Some (VFloat q))); [|exact Hq|exact Hrun].
  unfold demo_maintenance. inv_go fail.
Qed.

Lemma demo_tick_readings_in_range_witness :
  reading_in_range 0 (fst (demo_tick fmt_sample draws_sample 5 s_both_alarms))
  /\ reading_in_range 1 (fst (demo_tick fmt_sample draws_sample 5 s_both_alarms)).
Proof.
  assert (Hrun : demo_tick fmt_sample draws_sample 5 s_both_alarms
                 = (fst (demo_tick fmt_sample draws_sample 5 s_both_alarms), Ok tt))
    by (vm_compute; reflexivity).
  split; apply (demo_tick_readings_in_range _ _ _ _ _ Hrun); vm_compute; lia.
Defined.

(** ** The history as a sliding window *)

Lemma deque_append_window n (x : value) d :
  (0 < n)%nat -> (length d <= n)%nat ->
  deque_append n x d = drop (length (d ++ [x]) - n) (d ++ [x]).
Proof.
  intros Hn Hd. unfold deque_append. rewrite length_app. simpl.
  destruct (length d <? n)%nat eqn:Hlt.
  - apply Nat.ltb_lt in Hlt. replace (length d + 1 - n)%nat with 0%nat by lia. done.
  - apply Nat.ltb_ge in Hlt. replace (length d + 1 - n)%nat with 1%nat by lia.
    destruct d as [|y d]; [simpl in *; lia|]. done.
Qed.

Lemma window_snoc n d xs x :
  (0 < n)%nat ->
  deque_append n x (window n d xs) = window n d (xs ++ [x]).
Proof.
  intros Hn. unfold window.
  rewrite deque_append_window; [|done|rewrite length_drop; lia].
  rewrite (app_assoc d xs [x]). generalize (d ++ xs). intros l.
  rewrite !length_app, length_drop. simpl.
  destruct (decide (length l < n)%nat) as [Hlt|Hge].
  - replace (length l - n)%nat with 0%nat by lia. simpl.
    by replace (length l - 0 + 1 - n)%nat with (length l + 1 - n)%nat by lia.
  - replace (length l - (length l - n) + 1 - n)%nat with 1%nat by lia.
    replace (length l + 1 - n)%nat with (S (length l - n)) by lia.
    rewrite (drop_app_le l [x] (S _)) by lia.
    replace (S (length l - n)) with (length l - n + 1)%nat by lia.
    rewrite <- (drop_drop l 1 (length l - n)).
    rewrite (drop_app_le (drop _ l) [x] 1); [done|]. rewrite length_drop. lia.
Qed.

(** X12. Readings sent one after the other to one shelf in range are
    all processed without fault, and the shelf's history deque then holds
    exactly the last [HISTORY_LEN] items of its earlier content followed
    by the readings, in order; the latest temperature is the last
    reading. *)
Theorem live_temp_window (now : Q) (n : Z) (vals : list value) (s : Session) :
  arrays_ok s -> bounded s ->
  1 <= n <= Z.of_nat (num_shelves s) ->
  exists s' old,
    for_each (process_msg now) (map (live_msg n) vals) s = (s', Ok tt)
    /\ hist s !! (n - 1) = Some old
    /\ hist s' !! (n - 1) = Some (window HISTORY_LEN old vals)
    /\ (forall v, last vals = Some v -> latest_temp s' !! Z.to_nat (n - 1) = Some v).
Proof.
  intros Ha Hb Hn.
  destruct (proj2 (proj2 (proj2 Ha) (n - 1))) as [old Hold]; [lia|].
  assert (Hlen : (length old <= HISTORY_LEN)%nat) by (by eapply (proj2 Hb)).
  assert (Hw0 : old = window HISTORY_LEN old []).
  { unfold window. rewrite app_nil_r.
    replace (length old - HISTORY_LEN)%nat with 0%nat by lia. done. }
  assert (Hgen : forall vals' s0 pre,
            arrays_ok s0 -> num_shelves s0 = num_shelves s ->
            hist s0 !! (n - 1) = Some (window HISTORY_LEN old pre) ->
            exists s',
              for_each (process_msg now) (map (live_msg n) vals') s0 = (s', Ok tt)
              /\ hist s' !! (n - 1) = Some (window HISTORY_LEN old (pre ++ vals'))
              /\ (forall v, last vals' = Some v ->
                  latest_temp s' !! Z.to_nat (n - 1) = Some v)).
  { induction vals' as [|x vals' IH]; intros s0 pre Ha0 Hn0 Hh0.
    - exists s0. rewrite app_nil_r. by repeat split.
    - simpl map. rewrite for_each_cons.
      destruct (live_temp_step now [("type", VStr "LIVE_TEMP"); ("shelf", VInt n); ("value", x)]
                  n s0 Ha0 eq_refl eq_refl) as (old0 & Hold0 & Hrun); [lia|].
      unfold live_msg at 1. rewrite Hrun. rewrite Hh0 in Hold0. injection Hold0 as <-.
      simpl default in *.
      set (s1 := set_last_update_ts now _) in *.
      assert (Ha1 : arrays_ok s1).
      { pose proof (arrays_ok_process_msg now (live_msg n x) s0 Ha0) as H1.
        unfold live_msg in H1. by rewrite Hrun in H1. }
      destruct (IH s1 (pre ++ [x]) Ha1 Hn0) as (s' & Hrun' & Hh' & Hl').
      { unfold s1. simpl. rewrite lookup_insert_eq. f_equal. apply window_snoc.
        unfold HISTORY_LEN. lia. }
      exists s'. split; [done|]. split; [by rewrite <- app_assoc in Hh'|].
      intros v Hv. destruct vals' as [|y vals'].
      + simpl in Hv. injection Hv as <-. simpl in Hrun'. injection Hrun' as <-.
        unfold s1. simpl. apply list_lookup_insert_eq.
        destruct Ha0 as (_ & Hl0 & _). lia.
      + apply Hl'. by rewrite last_cons_cons in Hv. }
  destruct (Hgen vals s []) as (s' & Hrun & Hh & Hl); [done|done|by rewrite <- Hw0|].
  exists s', old. by repeat split.
Qed.

Lemma live_temp_window_witness :
  exists s' old,
    for_each (process_msg 5) (map (live_msg 1) [VFloat 70; VFloat 71]) (init_state 0)
      = (s', Ok tt)
    /\ hist (init_state 0) !! (1 - 1) = Some old
    /\ hist s' !! (1 - 1) = Some (window HISTORY_LEN old [VFloat 70; VFloat 71])
    /\ (forall v, last [VFloat 70; VFloat 71] = Some v ->
        latest_temp s' !! Z.to_nat (1 - 1) = Some v).
Proof.
  apply (live_temp_window 5 1 [VFloat 70; VFloat 71] (init_state 0)).
  - apply init_state_well_formed.
  - apply bounded_init_state.
  - vm_compute. split; discriminate.
Defined.

(** ** Maintenance accrual in demo mode *)

Lemma py_add_num_float a f d :
  as_num a = Some f -> fits_float a = true -> py_add a (VFloat d) = Ok (VFloat (f + d)).
Proof.
  intros Hf Hfit. destruct a; simpl in Hf; try discriminate; injection Hf as <-;
    unfold py_add, py_arith; simpl as_int; simpl as_num; by rewrite Hfit.
Qed.

Lemma py_add_num_overflow a f d :
  as_num a = Some f -> fits_float a = false -> py_add a (VFloat d) = Raise OverflowError.
Proof.
  intros Hf Hfit. destruct a; simpl in Hf; try discriminate;
    unfold py_add, py_arith; simpl as_int; simpl as_num; by rewrite Hfit.
Qed.

(** X13. The maintenance step of a demo tick, with numeric run-hours.
    When every shelf is off it returns and leaves the maintenance record
    as it is. When at least one shelf is on and both run-hours convert to
    float (they are floats, or ints below the float range) it returns
    having added the time since the previous tick, in hours, to both.
    Whenever it returns, the life ceilings are untouched and the tick time
    and the update time become the current time. An int too large for a
    float makes the step raise [OverflowError] instead: at the fan hours
    with the session untouched, at the element hours with the fan hours
    already advanced; the tick time is then not updated. *)
Theorem demo_maintenance_accrual (now f e : Q) (s : Session) :
  as_num (fan_hours (maintenance s)) = Some f ->
  as_num (element_hours (maintenance s)) = Some e ->
  let delta := ((now - last_tick s) / 3600)%Q in
  let on := existsb (fun b => truthy (is_on b)) (shelves s) in
  let fits_f := fits_float (fan_hours (maintenance s)) in
  let fits_e := fits_float (element_hours (maintenance s)) in
  (on = false \/ (fits_f = true /\ fits_e = true) ->
   exists s',
     demo_maintenance now s = (s', Ok tt)
     /\ maintenance s' =
          (if on
           then mkMaintenance (VFloat (f + delta)) (VFloat (e + delta))
                  (fan_life_hours (maintenance s)) (element_life_hours (maintenance s))
           else maintenance s)
     /\ last_tick s' = now
     /\ last_update_ts s' = now
     /\ alarms s' = alarms s /\ shelves s' = shelves s /\ logs s' = logs s)
  /\ (on = true -> fits_f = false -> demo_maintenance now s = (s, Raise OverflowError))
  /\ (on = true -> fits_f = true -> fits_e = false ->
      demo_maintenance now s =
        (set_maintenance (fun m =>
           mkMaintenance (VFloat (f + delta)) (element_hours m) (fan_life_hours m)
             (element_life_hours m)) s,
         Raise OverflowError)).
Proof.
  intros Hf He delta on fits_f fits_e. subst on fits_f fits_e.
  unfold demo_maintenance. unfold_m.
  destruct (existsb _ (shelves s)) eqn:Hon; simpl.
  - split; [|split].
    + intros [Hoff|[Hff Hfe]]; [discriminate|].
      rewrite (py_add_num_float _ f _ Hf Hff). simpl.
      rewrite (py_add_num_float _ e _ He Hfe). simpl.
      eexists. split; [reflexivity|]. simpl. by repeat split.
    + intros _ Hff. by rewrite (py_add_num_overflow _ f _ Hf Hff).
    + intros _ Hff Hfe. rewrite (py_add_num_float _ f _ Hf Hff). simpl.
      by rewrite (py_add_num_overflow _ e _ He Hfe).
  - split; [|split]; [|discriminate|discriminate].
    intros _. eexists. split; [reflexivity|]. simpl. by repeat split.
Qed.

Lemma demo_maintenance_accrual_witness :
  (exists s',
     demo_maintenance 3600 (init_state 0) = (s', Ok tt)
     /\ maintenance s' =
          mkMaintenance (VFloat (0 + (3600 - 0) / 3600)) (VFloat (0 + (3600 - 0) / 3600))
            (VFloat 2000) (VFloat 3000)
     /\ last_tick s' = 3600%Q
     /\ last_update_ts s' = 3600%Q)
  /\ demo_maintenance 3600 s_huge_hours = (s_huge_hours, Raise OverflowError).
Proof.
  split.
  - destruct (demo_maintenance_accrual 3600 0 0 (init_state 0) eq_refl eq_refl) as (H & _).
    destruct H as (s' & Hrun & Hm & Ht & Hu & _); [right; split; reflexivity|].
    exists s'. by repeat split.
  - assert (Hf : as_num (fan_hours (maintenance s_huge_hours)) = Some (inject_Z (10 ^ 400)))
      by reflexivity.
    destruct (demo_maintenance_accrual 3600 _ 0 s_huge_hours Hf eq_refl) as (_ & H & _).
    apply H; vm_compute; reflexivity.
Defined.

(** ** Reading a batch *)

Lemma same_but_logs_refl s : same_but_logs s s.
Proof. unfold same_but_logs. by destruct s. Qed.

Lemma same_but_logs_step f s s' :
  same_but_logs (set_logs f s) s' -> same_but_logs s s'.
Proof. unfold same_but_logs. intros ->. by destruct s. Qed.

Lemma read_all_batch_frame now n port s :
  exists s' msgs, read_all now n port s = (s', Ok msgs) /\ same_but_logs s s'.
Proof.
  revert port s. induction n as [|n IH]; intros port s.
  - exists s, []. split; [done | apply same_but_logs_refl].
  - destruct port as [|[|raw|v|e] port]; simpl.
    + exists s, []. split; [done | apply same_but_logs_refl].
    + apply IH.
    + unfold_m.
      destruct (IH port (set_logs (deque_append LOG_LIMIT (now, LogRaw raw)) s))
        as (s' & msgs & Hrun & Hsame).
      exists s', msgs. rewrite Hrun. split; [done | by eapply same_but_logs_step].
    + unfold_m. destruct (IH port s) as (s' & msgs & Hrun & Hsame).
      exists s', (v :: msgs). by rewrite Hrun.
    + unfold_m. eexists _, []. split; [done|].
      eapply same_but_logs_step, same_but_logs_refl.
Qed.

(** X14. [read_all] never raises and changes nothing but the log.
    The messages it returns are a prefix of the decoded lines of the
    port, in order, and at most [max_lines] of them; when the port holds
    no more than [max_lines] lines and no read fails, they are all of
    its decoded lines. *)
Theorem read_all_batch (now : Q) (max_lines : nat) (port : list rx) (s : Session) :
  exists s' msgs,
    read_all now max_lines port s = (s', Ok msgs)
    /\ same_but_logs s s'
    /\ msgs `prefix_of` json_values port
    /\ (length msgs <= max_lines)%nat
    /\ ((length port <= max_lines)%nat -> (forall e, RxFail e ∉ port) ->
        msgs = json_values port).
Proof.
  revert port s. induction max_lines as [|n IH]; intros port s.
  - exists s, []. split; [done|]. split; [apply same_but_logs_refl|].
    split; [apply prefix_nil|]. split; [done|].
    intros Hlen _. destruct port; [done | simpl in Hlen; lia].
  - destruct port as [|[|raw|v|e] port]; simpl.
    + exists s, []. split; [done|]. split; [apply same_but_logs_refl|].
      split; [apply prefix_nil|]. split; [simpl; lia | done].
    + destruct (IH port s) as (s' & msgs & Hrun & Hsame & Hpre & Hlen & Hall).
      exists s', msgs. split; [done|]. split; [done|]. split; [done|].
      split; [lia|]. intros Hl Hf. apply Hall; [simpl in Hl; lia|].
      intros e He. apply (Hf e). by right.
    + unfold_m.
      destruct (IH port (set_logs (deque_append LOG_LIMIT (now, LogRaw raw)) s))
        as (s' & msgs & Hrun & Hsame & Hpre & Hlen & Hall).
      exists s', msgs. rewrite Hrun. split; [done|].
      split; [by eapply same_but_logs_step|]. split; [done|]. split; [lia|].
      intros Hl Hf. apply Hall; [simpl in Hl; lia|].
      intros e He. apply (Hf e). by right.
    + unfold_m. destruct (IH port s) as (s' & msgs & Hrun & Hsame & Hpre & Hlen & Hall).
      exists s', (v :: msgs). rewrite Hrun. split; [done|]. split; [done|].
      split; [by apply prefix_cons|]. split; [simpl; lia|].
      intros Hl Hf. f_equal. apply Hall; [simpl in Hl; lia|].
      intros e He. apply (Hf e). by right.
    + unfold_m. eexists _, []. split; [done|].
      split; [eapply same_but_logs_step, same_but_logs_refl|].
      split; [apply prefix_nil|]. split; [simpl; lia|].
      intros _ Hf. exfalso. apply (Hf e). by left.
Qed.

Lemma read_all_batch_witness :
  let port := [RxJson msg_live_90; RxRaw "garbage"; RxBlank; RxJson msg_both_alarms] in
  (length port <= 200)%nat
  /\ (forall e, RxFail e ∉ port)
  /\ exists s' msgs,
       read_all 5 200 port (init_state 0) = (s', Ok msgs)
       /\ same_but_logs (init_state 0) s'
       /\ msgs `prefix_of` json_values port
       /\ (length msgs <= 200)%nat
       /\ ((length port <= 200)%nat -> (forall e, RxFail e ∉ port) ->
           msgs = json_values port).
Proof.
  intros port. split; [vm_compute; lia|]. split.
  - intros e He. repeat (apply elem_of_cons in He as [He|He]; [discriminate|]).
    by apply elem_of_nil in He.
  - apply (read_all_batch 5 200 port (init_state 0)).
Defined.

(** ** Messages that are not telemetry *)

Lemma process_msg_unrecognized now d s :
  unrecognized d -> process_msg now (VDict d) s = (s, Ok tt).
Proof.
  intros (H1 & H2 & H3 & H4).
  unfold process_msg. unfold_m.
  change (py_get (VDict d) "type" VNone) with (Ok (default VNone (assoc "type" d))).
  cbv beta iota. by rewrite H1, H2, H3, H4.
Qed.

(** X15. A decoded JSON object whose "type" is none of STATUS,
    LIVE_TEMP, ALARM_STATE and LOG, or that has no "type" at all, is
    ignored: [process_msg] returns with the session unchanged, and such
    an object anywhere in a batch does not change what the batch does. *)
Theorem unrecognized_message_ignored (now : Q) (d : list (string * value)) (s : Session) :
  unrecognized d ->
  process_msg now (VDict d) s = (s, Ok tt)
  /\ forall before after,
       for_each (process_msg now) (before ++ VDict d :: after) s
       = for_each (process_msg now) (before ++ after) s.
Proof.
  intros Hd. split; [by apply process_msg_unrecognized|].
  intros before after. rewrite !for_each_app.
  destruct (for_each (process_msg now) before s) as [s1 [[]|e]]; [|done].
  by rewrite for_each_cons, process_msg_unrecognized.
Qed.

Lemma unrecognized_message_ignored_witness :
  process_msg 5 (VDict fields_ping) (init_state 0) = (init_state 0, Ok tt)
  /\ forall before after,
       for_each (process_msg 5) (before ++ VDict fields_ping :: after) (init_state 0)
       = for_each (process_msg 5) (before ++ after) (init_state 0).
Proof.
  apply (unrecognized_message_ignored 5 fields_ping (init_state 0)).
  repeat split; reflexivity.
Defined.

Lemma read_all_json_cons now n v port s :
  read_all now (S n) (RxJson v :: port) s =
  match read_all now n port s with
  | (s', Ok msgs) => (s', Ok (v :: msgs))
  | (s', Raise e) => (s', Raise e)
  end.
Proof. done. Qed.

(** X16. [process_msg] calls [msg.get] before anything else, so a
    decoded value that is not a JSON object (a number, a string, a list,
    [null], a boolean) makes it raise [AttributeError] with the session
    untouched; [read_from_pi] does not catch it, so the messages that
    follow it in the batch are not processed. *)
Theorem non_object_message_raises (now : Q) (v : value) (s : Session) :
  (forall d, v ≠ VDict d) ->
  process_msg now v s = (s, Raise AttributeError)
  /\ (forall rest, for_each (process_msg now) (v :: rest) s = (s, Raise AttributeError))
  /\ (link_open s = true ->
      forall port,
        snd (read_from_pi now (RxJson v :: port) s) = Raise AttributeError
        /\ same_but_logs s (fst (read_from_pi now (RxJson v :: port) s))).
Proof.
  intros Hv.
  assert (Hp : forall s0, process_msg now v s0 = (s0, Raise AttributeError)).
  { intros s0. unfold process_msg. unfold_m. destruct v; try done. by destruct (Hv d). }
  split; [apply Hp|]. split.
  - intros rest. by rewrite for_each_cons, Hp.
  - intros Hopen port. unfold read_from_pi. unfold_m. rewrite Hopen.
    rewrite read_all_json_cons.
    destruct (read_all_batch_frame now 199 port s) as (s' & msgs & Hrun & Hsame).
    rewrite Hrun. rewrite for_each_cons, Hp. simpl. by split.
Qed.

Lemma non_object_message_raises_witness :
  process_msg 5 (VInt 42) (init_state 0) = (init_state 0, Raise AttributeError)
  /\ (forall rest,
        for_each (process_msg 5) (VInt 42 :: rest) (init_state 0)
        = (init_state 0, Raise AttributeError)).
Proof.
  assert (Hv : forall d, VInt 42 ≠ VDict d) by discriminate.
  destruct (non_object_message_raises 5 (VInt 42) (init_state 0) Hv) as (H1 & H2 & _).
  by split.
Defined.

(** ** What a message never touches *)

Lemma process_msg_alarm_state now d s :
  assoc "type" d = Some (VStr "ALARM_STATE") ->
  process_msg now (VDict d) s = process_alarm_state now (VDict d) s.
Proof. intros Ht. unfold process_msg. unfold_m. simpl. by rewrite Ht. Qed.

Lemma process_msg_log now d s :
  assoc "type" d = Some (VStr "LOG") ->
  process_msg now (VDict d) s = process_log now (VDict d) s.
Proof. intros Ht. unfold process_msg. unfold_m. simpl. by rewrite Ht. Qed.

Lemma process_msg_control {A} (f : Session -> A) now msg v :
  (forall s g, f (set_alarms g s) = f s) ->
  (forall s g, f (set_logs g s) = f s) ->
  (forall s g, f (set_shelves g s) = f s) ->
  (forall s g, f (set_hist g s) = f s) ->
  (forall s g, f (set_latest_temp g s) = f s) ->
  (forall s g, f (set_maintenance g s) = f s) ->
  (forall s t, f (set_last_update_ts t s) = f s) ->
  (forall s c, f (resize c s) = f s) ->
  preserves (fun s => f s = v) (process_msg now msg).
Proof.
  intros Ha Hl Hs Hh Ht Hm Hu Hr.
  unfold process_msg, process_status, process_live_temp, process_alarm_state, process_log,
    status_maintenance, status_entry, status_alarms, status_alarm, alarm_state_alarm.
  inv_go ltac:(first
    [ apply preserves_latest_temp_store; intros s0 g <-; apply Ht
    | apply preserves_shelf_store; intros s0 g <-; apply Hs
    | apply preserves_hist_append; intros s0 g <-; apply Hh
    | apply preserves_add_alarm; [intros s0 g <-; apply Ha | intros s0 g <-; apply Hl]
    | apply preserves_drop_shelf_alarms; intros s0 g <-; apply Ha
    | apply preserves_modify; intros s0 <-;
      first [ apply Hr | apply Hm | apply Hu | apply Hl ] ]).
Qed.

Lemma resize_keeps {A} (f : Session -> A) c s :
  (forall n sh h lt, f (mkSession (demo_mode s) n sh h lt (alarms s) (logs s) (maintenance s)
                          (link_open s) (outbox s) (last_update_ts s) (last_tick s)) = f s) ->
  f (resize c s) = f s.
Proof. intros H. unfold resize. destruct (negb _); [apply H | done]. Qed.

(** X17. Handling a message, whatever it is and however it ends,
    never switches between demo and live mode, never opens or closes the
    link, writes nothing to the serial port and leaves the tick time
    alone. Beyond that a LOG message changes nothing but the log; an
    ALARM_STATE message leaves the shelf count, bounds, readings,
    histories and the maintenance record as they were; and a LIVE_TEMP
    message leaves the shelf count, bounds, alarm registry, log and
    maintenance record as they were. *)
Theorem message_footprint (now : Q) (msg : value) (s : Session) :
  let s' := fst (process_msg now msg s) in
  (demo_mode s' = demo_mode s /\ link_open s' = link_open s
   /\ outbox s' = outbox s /\ last_tick s' = last_tick s)
  /\ (forall d, msg = VDict d -> assoc "type" d = Some (VStr "LOG") ->
      same_but_logs s s')
  /\ (forall d, msg = VDict d -> assoc "type" d = Some (VStr "ALARM_STATE") ->
      num_shelves s' = num_shelves s /\ shelves s' = shelves s /\ hist s' = hist s
      /\ latest_temp s' = latest_temp s /\ maintenance s' = maintenance s)
  /\ (forall d, msg = VDict d -> assoc "type" d = Some (VStr "LIVE_TEMP") ->
      num_shelves s' = num_shelves s /\ shelves s' = shelves s /\ alarms s' = alarms s
      /\ logs s' = logs s /\ maintenance s' = maintenance s).
Proof.
  intros s'. subst s'. split; [|split; [|split]].
  - repeat split.
    + apply (process_msg_control demo_mode now msg (demo_mode s)); try done.
      intros; by apply resize_keeps.
    + apply (process_msg_control link_open now msg (link_open s)); try done.
      intros; by apply resize_keeps.
    + apply (process_msg_control outbox now msg (outbox s)); try done.
      intros; by apply resize_keeps.
    + apply (process_msg_control last_tick now msg (last_tick s)); try done.
      intros; by apply resize_keeps.
  - intros d -> Ht. rewrite (process_msg_log _ _ _ Ht).
    unfold process_log. unfold_m. simpl.
    destruct (localtime now _); simpl; [|apply same_but_logs_refl].
    eapply same_but_logs_step. apply same_but_logs_refl.
  - intros d -> Ht. rewrite (process_msg_alarm_state _ _ _ Ht).
    assert (Hgen : forall {A} (f : Session -> A),
               (forall s0 g, f (set_alarms g s0) = f s0) ->
               (forall s0 g, f (set_logs g s0) = f s0) ->
               (forall s0 t, f (set_last_update_ts t s0) = f s0) ->
               f (fst (process_alarm_state now (VDict d) s)) = f s).
    { intros A f Ha Hl Hu.
      apply (preserves_run (fun x => f x = f s) (process_alarm_state now (VDict d)) s
               _ (snd (process_alarm_state now (VDict d) s))); [|done|by destruct (process_alarm_state _ _ _)].
      unfold process_alarm_state, alarm_state_alarm.
      inv_go ltac:(first
        [ apply preserves_add_alarm; [intros s0 g <-; apply Ha | intros s0 g <-; apply Hl]
        | apply preserves_drop_shelf_alarms; intros s0 g <-; apply Ha
        | apply preserves_modify; intros s0 <-; apply Hu ]). }
    repeat split; by apply Hgen.
  - intros d -> Ht. rewrite (process_msg_live_temp _ _ _ Ht).
    assert (Hgen : forall {A} (f : Session -> A),
               (forall s0 g, f (set_latest_temp g s0) = f s0) ->
               (forall s0 g, f (set_hist g s0) = f s0) ->
               (forall s0 t, f (set_last_update_ts t s0) = f s0) ->
               f (fst (process_live_temp now (VDict d) s)) = f s).
    { intros A f Ht' Hh Hu.
      apply (preserves_run (fun x => f x = f s) (process_live_temp now (VDict d)) s
               _ (snd (process_live_temp now (VDict d) s))); [|done|by destruct (process_live_temp _ _ _)].
      unfold process_live_temp.
      inv_go ltac:(first
        [ apply preserves_latest_temp_store; intros s0 g <-; apply Ht'
        | apply preserves_hist_append; intros s0 g <-; apply Hh
        | apply preserves_modify; intros s0 <-; apply Hu ]). }
    repeat split; by apply Hgen.
Qed.

Lemma message_footprint_witness :
  let s' := fst (process_msg 5 msg_snapshot s_two_alarms) in
  num_shelves s' = num_shelves s_two_alarms /\ shelves s' = shelves s_two_alarms
  /\ hist s' = hist s_two_alarms /\ latest_temp s' = latest_temp s_two_alarms
  /\ maintenance s' = maintenance s_two_alarms.
Proof.
  destruct (message_footprint 5 msg_snapshot s_two_alarms) as (_ & _ & H & _).
  apply (H [("type", VStr "ALARM_STATE"); ("shelf", VInt 1); ("alarms", VList snapshot_items)]);
    reflexivity.
Defined.

(** ** The prototype's registry ([dashboard.py]) *)

(** X18. The prototype keys its alarms by shelf and name only. When
    the shelf has a list, [add_alarm] returns. When no record of that
    shelf has the name, one unacknowledged record with the given severity,
    description and the current time is appended and one log line is
    written; when a record has the name, whatever its severity, nothing
    changes, neither the registry nor the log. So a second raise of the
    name with another severity or description changes nothing and the
    first severity stays. The names of a shelf therefore stay pairwise
    distinct, and other shelves are untouched. A shelf without a list
    raises [KeyError]. *)
Theorem prototype_add_alarm_by_name (now now' : Q) (shelf : Z)
    (nm sev sev' description description' : string) (s : Prototype.State) :
  match Prototype.alarms s !! shelf with
  | None =>
      Prototype.add_alarm now shelf nm sev description s = (s, Raise KeyError)
  | Some arr =>
      let s1 := fst (Prototype.add_alarm now shelf nm sev description s) in
      snd (Prototype.add_alarm now shelf nm sev description s) = Ok tt
      /\ (In nm (map Prototype.name arr) -> s1 = s)
      /\ (~ In nm (map Prototype.name arr) ->
          Prototype.alarms s1 !! shelf =
            Some (arr ++ [Prototype.mkAlarm nm sev false description now])
          /\ Prototype.logs s1 =
               deque_append 300 (now, Prototype.Triggered shelf nm sev) (Prototype.logs s))
      /\ Prototype.add_alarm now' shelf nm sev' description' s1 = (s1, Ok tt)
      /\ (NoDup (map Prototype.name arr) ->
          forall arr1, Prototype.alarms s1 !! shelf = Some arr1 ->
                       NoDup (map Prototype.name arr1))
      /\ (forall shelf', shelf' ≠ shelf ->
          Prototype.alarms s1 !! shelf' = Prototype.alarms s !! shelf')
  end.
Proof.
  destruct (Prototype.alarms s !! shelf) as [arr|] eqn:Hb.
  - cbv zeta. rewrite !(prototype_add_alarm_eq now shelf nm sev description s arr Hb).
    destruct (existsb _ arr) eqn:Hex; simpl.
    + split; [done|]. split; [done|]. split.
      { intros Hnin. exfalso. by apply Hnin, existsb_name_In. }
      split.
      { by rewrite (prototype_add_alarm_eq _ _ _ _ _ _ arr Hb), Hex. }
      split; [intros Hnd arr1; rewrite Hb; by intros [= <-] | done].
    + split; [done|]. split.
      { intros Hin. apply existsb_name_In in Hin. congruence. }
      split; [intros _; split; [by rewrite lookup_insert_eq | done]|]. split.
      { rewrite (prototype_add_alarm_eq _ _ _ _ _ _
                   (arr ++ [Prototype.mkAlarm nm sev false description now]));
          [|simpl; by rewrite lookup_insert_eq].
        rewrite existsb_app. simpl. by rewrite String.eqb_refl, orb_true_r. }
      split.
      * intros Hnd arr1. rewrite lookup_insert_eq. intros [= <-].
        rewrite map_app. simpl. apply NoDup_app. split; [done|]. split.
        -- intros x Hx Hx'. apply list_elem_of_singleton in Hx' as ->.
           apply list_elem_of_In, existsb_name_In in Hx. congruence.
        -- apply NoDup_singleton.
      * intros shelf' Hne. by rewrite lookup_insert_ne.
  - unfold Prototype.add_alarm. by rewrite Hb.
Qed.

Lemma prototype_add_alarm_by_name_witness :
  (Prototype.alarms proto_one_alarm !! 0 =
     Some [Prototype.mkAlarm "OVERTEMP" "ERROR" false "Temperature above safe limit" 1]
   /\ Prototype.logs proto_one_alarm =
        deque_append 300 (1%Q, Prototype.Triggered 0 "OVERTEMP" "ERROR")
          (Prototype.logs Prototype.init))
  /\ Prototype.add_alarm 2 0 "OVERTEMP" "CRITICAL" "Manually simulated alarm" proto_one_alarm
     = (proto_one_alarm, Ok tt).
Proof.
  pose proof (prototype_add_alarm_by_name 1 2 0 "OVERTEMP" "ERROR" "CRITICAL"
                "Temperature above safe limit" "Manually simulated alarm" Prototype.init) as H.
  change (Prototype.alarms Prototype.init !! 0) with (Some (@nil Prototype.Alarm)) in H.
  destruct H as (_ & _ & H1 & H2 & _). split; [|exact H2].
  apply H1. simpl. tauto.
Defined.

Lemma ack_named_name nm a : Prototype.name (PrototypeAck.ack_named nm a) = Prototype.name a.
Proof. unfold PrototypeAck.ack_named. by destruct (String.eqb _ _). Qed.

Lemma ack_named_idem nm a :
  PrototypeAck.ack_named nm (PrototypeAck.ack_named nm a) = PrototypeAck.ack_named nm a.
Proof.
  unfold PrototypeAck.ack_named. destruct (String.eqb (Prototype.name a) nm) eqn:H; simpl;
    by rewrite H.
Qed.

(** X19. The prototype's [acknowledge_alarm] on a shelf that has a
    list returns and flags every record of that shelf carrying the name;
    records with another name, every record's name, severity,
    description and time, and the other shelves stay as they were. A
    repeated call leaves the registry as the first one did. No log line
    is written when no record has the name. *)
Theorem prototype_acknowledge_alarm (now now' : Q) (shelf : Z) (nm : string)
    (arr : list Prototype.Alarm) (s : Prototype.State) :
  Prototype.alarms s !! shelf = Some arr ->
  let s1 := fst (PrototypeAck.acknowledge_alarm now shelf nm s) in
  snd (PrototypeAck.acknowledge_alarm now shelf nm s) = Ok tt
  /\ (exists arr1,
        Prototype.alarms s1 !! shelf = Some arr1
        /\ Forall2 (fun a a' =>
                      Prototype.name a' = Prototype.name a
                      /\ Prototype.severity a' = Prototype.severity a
                      /\ Prototype.desc a' = Prototype.desc a
                      /\ Prototype.ts a' = Prototype.ts a
                      /\ Prototype.ack a' =
                           (if String.eqb (Prototype.name a) nm then true else Prototype.ack a))
                   arr arr1)
  /\ (forall shelf', shelf' ≠ shelf ->
      Prototype.alarms s1 !! shelf' = Prototype.alarms s !! shelf')
  /\ Prototype.alarms (fst (PrototypeAck.acknowledge_alarm now' shelf nm s1))
     = Prototype.alarms s1
  /\ (~ In nm (map Prototype.name arr) -> Prototype.logs s1 = Prototype.logs s).
Proof.
  intros Hb s1. subst s1.
  assert (Hrun : PrototypeAck.acknowledge_alarm now shelf nm s =
            (Prototype.mkState
               (<[shelf := map (PrototypeAck.ack_named nm) arr]> (Prototype.alarms s))
               (PrototypeAck.ack_logs now shelf nm arr (Prototype.logs s)), Ok tt)).
  { unfold PrototypeAck.acknowledge_alarm. by rewrite Hb. }
  rewrite !Hrun. simpl.
  split; [done|]. split; [|split; [|split]].
  - eexists. rewrite lookup_insert_eq. split; [done|].
    clear Hb Hrun. induction arr as [|a arr IH]; simpl; constructor; [|done].
    unfold PrototypeAck.ack_named. by destruct (String.eqb (Prototype.name a) nm).
  - intros shelf' Hne. by rewrite lookup_insert_ne.
  - unfold PrototypeAck.acknowledge_alarm. simpl. rewrite lookup_insert_eq. simpl.
    rewrite insert_insert_eq. f_equal. rewrite map_map. apply map_ext.
    intros a. apply ack_named_idem.
  - intros Hnin. unfold PrototypeAck.ack_logs. generalize (Prototype.logs s).
    clear Hb Hrun. induction arr as [|a arr IH]; intros lg; [done|]. simpl.
    destruct (String.eqb (Prototype.name a) nm) eqn:Heq.
    + exfalso. apply Hnin. left. by apply String.eqb_eq.
    + apply IH. intros Hin. apply Hnin. by right.
Qed.

Lemma prototype_acknowledge_alarm_witness :
  exists arr1,
    Prototype.alarms (fst (PrototypeAck.acknowledge_alarm 2 0 "OVERTEMP" proto_one_alarm)) !! 0
      = Some arr1
    /\ Forall2 (fun a a' =>
                  Prototype.name a' = Prototype.name a
                  /\ Prototype.severity a' = Prototype.severity a
                  /\ Prototype.desc a' = Prototype.desc a
                  /\ Prototype.ts a' = Prototype.ts a
                  /\ Prototype.ack a' =
                       (if String.eqb (Prototype.name a) "OVERTEMP" then true
                        else Prototype.ack a))
               [Prototype.mkAlarm "OVERTEMP" "ERROR" false "Temperature above safe limit" 1]
               arr1.
Proof.
  assert (Hb : Prototype.alarms proto_one_alarm !! 0
               = Some [Prototype.mkAlarm "OVERTEMP" "ERROR" false
                         "Temperature above safe limit" 1]) by reflexivity.
  destruct (prototype_acknowledge_alarm 2 3 0 "OVERTEMP" _ proto_one_alarm Hb)
    as (_ & H & _).
  exact H.
Defined.

(** ** Barcode counts *)

(** X20. Submitting a scan with a SKU that is not blank sets its
    count to one more when loading and to one less, but not below zero,
    when unloading; no count ever becomes negative. So unloading right
    after loading restores the count, and unloading at zero leaves zero.
    A SKU that is empty or all white space changes nothing, and the
    counts of other SKUs are never touched. *)
Theorem barcode_counts_floor (m : Barcode.mode) (sku : string) (counts : gmap string Z) :
  (forall k v, counts !! k = Some v -> 0 <= v) ->
  (forall k v, Barcode.submit m sku counts !! k = Some v -> 0 <= v)
  /\ (Barcode.blank sku = false ->
      Barcode.count (Barcode.submit Barcode.LOAD sku counts) sku = Barcode.count counts sku + 1
      /\ Barcode.count (Barcode.submit Barcode.UNLOAD sku counts) sku
         = Z.max 0 (Barcode.count counts sku - 1))
  /\ Barcode.count
       (Barcode.submit Barcode.UNLOAD sku (Barcode.submit Barcode.LOAD sku counts)) sku
     = Barcode.count counts sku
  /\ (Barcode.count counts sku = 0 ->
      Barcode.count (Barcode.submit Barcode.UNLOAD sku counts) sku = 0)
  /\ (Barcode.blank sku = true -> Barcode.submit m sku counts = counts)
  /\ (forall k, k ≠ sku -> Barcode.submit m sku counts !! k = counts !! k).
Proof.
  intros Hpos.
  assert (Hc : 0 <= Barcode.count counts sku).
  { unfold Barcode.count. destruct (counts !! sku) eqn:Hk; simpl; [by eapply Hpos | lia]. }
  split; [|split; [|split; [|split; [|split]]]].
  - intros k v. unfold Barcode.submit. destruct (Barcode.blank sku); [apply Hpos|].
    destruct (decide (sku = k)) as [<-|Hne].
    + destruct m; rewrite lookup_insert_eq; intros [= <-]; lia.
    + destruct m; rewrite lookup_insert_ne by done; apply Hpos.
  - intros Hb. unfold Barcode.submit. rewrite Hb. split.
    + unfold Barcode.count at 1. by rewrite lookup_insert_eq.
    + unfold Barcode.count at 1. by rewrite lookup_insert_eq.
  - unfold Barcode.submit. destruct (Barcode.blank sku); [done|].
    unfold Barcode.count at 1. rewrite lookup_insert_eq. simpl.
    unfold Barcode.count at 1. rewrite lookup_insert_eq. simpl. lia.
  - intros H0. unfold Barcode.submit. destruct (Barcode.blank sku); [done|].
    unfold Barcode.count at 1. rewrite lookup_insert_eq. simpl. rewrite H0. done.
  - intros Hb. unfold Barcode.submit. by rewrite Hb.
  - intros k Hne. unfold Barcode.submit. destruct (Barcode.blank sku); [done|].
    destruct m; by rewrite lookup_insert_ne.
Qed.

Lemma barcode_counts_floor_witness :
  (Barcode.count (Barcode.submit Barcode.LOAD "SKU-1" ∅) "SKU-1" = 0 + 1
   /\ Barcode.count (Barcode.submit Barcode.UNLOAD "SKU-1" ∅) "SKU-1" = Z.max 0 (0 - 1))
  /\ Barcode.submit Barcode.LOAD (" " +:+ encode 12288) ∅ = ∅.
Proof.
  assert (Hpos : forall k v, (∅ : gmap string Z) !! k = Some v -> 0 <= v).
  { intros k v. by rewrite lookup_empty. }
  destruct (barcode_counts_floor Barcode.LOAD "SKU-1" ∅ Hpos) as (_ & H & _).
  destruct (barcode_counts_floor Barcode.LOAD (" " +:+ encode 12288) ∅ Hpos)
    as (_ & _ & _ & _ & H' & _).
  split; [apply H | apply H']; vm_compute; reflexivity.
Defined.

(** ** A resize leaves the registry alone *)

Lemma py_eq_int_as_int j v i :
  as_int v = Some i -> j ≠ i -> py_eq (VInt j) v = false.
Proof.
  intros Hv Hne.
  assert (Hq : Qeq_bool (inject_Z j) (inject_Z i) = false).
  { apply not_true_is_false. intros H. apply Qeq_bool_iff in H.
    unfold Qeq in H. simpl in H. lia. }
  destruct v; simpl in Hv; try discriminate; injection Hv as <-; simpl; exact Hq.
Qed.

Lemma norm_index_orphan count idx k j :
  norm_index count idx = Ok k -> Z.of_nat count <= j -> py_eq (VInt j) idx = false.
Proof.
  unfold norm_index. destruct (as_int idx) as [i|] eqn:Hi; [|discriminate].
  intros Hk Hj. apply (py_eq_int_as_int j idx i Hi).
  destruct ((0 <=? i) && (i <? Z.of_nat count)) eqn:H1.
  - apply andb_true_iff in H1 as [_ H1]. lia.
  - destruct ((- Z.of_nat count <=? i) && (i <? 0)) eqn:H2; [|discriminate].
    apply andb_true_iff in H2 as [_ H2]. lia.
Qed.

Lemma orphans_kept_grow count s x x' :
  orphans_kept count s x ->
  (forall sev, exists new, bucket sev x' = bucket sev x ++ new) ->
  orphans_kept count s x'.
Proof.
  intros Hx Hg sev a j Ha Hsh Hj. destruct (Hg sev) as [new ->].
  apply elem_of_app. left. by eapply Hx.
Qed.

Lemma orphans_kept_add_alarm count s now sev shelf name desc ack :
  preserves (orphans_kept count s) (add_alarm now sev shelf name desc ack).
Proof.
  intros x Hx. eapply orphans_kept_grow; [exact Hx|]. intros sev'.
  destruct (add_alarm now sev shelf name desc ack x) as [x' r] eqn:Hrun.
  destruct (add_alarm_grows _ _ _ _ _ _ _ _ _ sev' Hrun) as (_ & new & Hb & _).
  by exists new.
Qed.

Lemma orphans_kept_drop count s idx k :
  norm_index count idx = Ok k ->
  preserves (orphans_kept count s) (drop_shelf_alarms idx).
Proof.
  intros Hk. unfold drop_shelf_alarms. apply preserves_for_each. intros sev x Hx.
  unfold mbind, M_bind, bind, bucket_item, modify.
  destruct (alarms x !! sev) as [arr|] eqn:Hb; [|done]. simpl.
  intros sev' a j Ha Hsh Hj. destruct (decide (sev = sev')) as [<-|Hne].
  - rewrite bucket_insert_eq. apply list_elem_of_In, List.filter_In. split.
    + apply list_elem_of_In. specialize (Hx sev a j Ha Hsh Hj).
      unfold bucket in Hx. by rewrite Hb in Hx.
    + unfold other_shelf. rewrite Hsh. by rewrite (norm_index_orphan _ _ _ _ Hk Hj).
  - rewrite bucket_insert_ne by done. by eapply Hx.
Qed.

(** The invariant of the entry loop: the reading array keeps its
    length and the orphaned records stay. *)
Lemma status_entry_orphans now e count s :
  preserves (fun x => length (latest_temp x) = count /\ orphans_kept count s x)
            (status_entry now e).
Proof.
  destruct e as [k sh]. unfold status_entry.
  apply preserves_bind; [apply preserves_lift|]. intros incoming.
  apply preserves_bind; [apply preserves_lift|]. intros idx.
  apply preserves_bind; [apply preserves_lift|]. intros temp.
  apply preserves_bind; [apply preserves_lift|]. intros sp_arr.
  apply preserves_bind; [apply preserves_lift|]. intros n.
  apply preserves_bind; [apply preserves_lift|]. intros sp.
  apply preserves_bind; [apply preserves_lift|]. intros up.
  apply preserves_bind; [apply preserves_lift|]. intros lo.
  destruct (norm_index count idx) as [i|err] eqn:Hk.
  - apply preserves_bind.
    { intros x [Hl Ho]. unfold latest_temp_store. rewrite Hl, Hk. simpl.
      split; [by rewrite length_insert | done]. }
    intros _. unfold status_alarms, status_alarm.
    inv_go ltac:(first
      [ by apply preserves_shelf_store
      | by apply preserves_hist_append
      | apply preserves_and;
          [ by apply preserves_drop_shelf_alarms
          | by eapply orphans_kept_drop ]
      | apply preserves_and;
          [ by apply preserves_add_alarm
          | apply orphans_kept_add_alarm ] ]).
  - intros x [Hl Ho]. unfold mbind, M_bind, bind, latest_temp_store. by rewrite Hl, Hk.
Qed.

(** X21. A STATUS message never removes an alarm record of a shelf
    index at or beyond the number of shelves it reports: the resize
    reallocates the shelf arrays only, and the entries can only replace
    the alarms of indices inside the new range. So when the store
    shrinks, the records of the shelves that went away stay in the
    registry, however the processing of the message ends. *)
Theorem status_keeps_orphan_alarms (now : Q) (d : list (string * value))
    (entries : list value) (s : Session) :
  assoc "type" d = Some (VStr "STATUS") ->
  assoc "shelves" d = Some (VList entries) ->
  length (latest_temp s) = num_shelves s ->
  orphans_kept (length entries) s (fst (process_msg now (VDict d) s)).
Proof.
  intros Ht Hsh Hlen. rewrite (process_msg_status _ _ _ Ht).
  unfold process_status. unfold mbind at 1, M_bind, bind, lift. simpl. rewrite Hsh.
  unfold mbind at 1, M_bind, bind, lift. simpl.
  unfold mbind at 1, M_bind, bind, modify.
  unfold mbind at 1, M_bind, bind, lift. simpl.
  set (count := length entries).
  assert (H0 : length (latest_temp (resize count s)) = count
               /\ orphans_kept count s (resize count s)).
  { split.
    - unfold resize. destruct (count =? num_shelves s)%nat eqn:Heq; simpl.
      + apply Nat.eqb_eq in Heq. lia.
      + apply length_replicate.
    - intros sev a j Ha _ _. unfold resize. by destruct (negb _). }
  revert H0. generalize (resize count s). intros s1 H1.
  change (orphans_kept count s
            (fst ((for_each (status_entry now) (enumerate entries) ;;
                   status_maintenance (VDict d) ;; modify (set_last_update_ts now)) s1))).
  apply (preserves_bind (fun x => length (latest_temp x) = count /\ orphans_kept count s x)
           (for_each (status_entry now) (enumerate entries))
           (fun _ => status_maintenance (VDict d) ;; modify (set_last_update_ts now)));
    [| |exact H1].
  - apply preserves_for_each. intros e. apply status_entry_orphans.
  - intros _. unfold status_maintenance. inv_go fail.
Qed.

Lemma status_keeps_orphan_alarms_witness :
  (exists a, a ∈ bucket "ERROR" s_three_shelves /\ alarm_shelf a = VInt 2)
  /\ num_shelves (fst (process_msg 2 (VDict fields_two_shelves) s_three_shelves)) = 2%nat
  /\ orphans_kept 2 s_three_shelves
       (fst (process_msg 2 (VDict fields_two_shelves) s_three_shelves)).
Proof.
  split; [|split].
  - exists (mkAlarm (VInt 2) (VStr "FAN_FAIL") (VStr "FAN_FAIL") 1 (VBool false)).
    split; [|reflexivity]. vm_compute. left.
  - vm_compute. reflexivity.
  - apply (status_keeps_orphan_alarms 2 fields_two_shelves
             [VDict [("shelf", VInt 1)]; VDict [("shelf", VInt 2)]] s_three_shelves);
      vm_compute; reflexivity.
Defined.

(** ** Entries and snapshots that fault *)

Lemma bind_lift {A B} (r : res A) (k : A -> M B) s :
  (lift r ≫= k) s = match r with Ok a => k a s | Raise e => (s, Raise e) end.
Proof. by destruct r. Qed.

Ltac bounds_clash :=
  intros ? ? ? (? & ? & ? & ? & ? & ? & ?);
  repeat match goal with
         | E : ?l = _, H : ?l = Ok _ |- _ =>
             rewrite E in H; first [ discriminate | injection H as <- ]
         end.

Lemma status_entry_fault now k d n s :
  length (latest_temp s) = num_shelves s ->
  py_get (VDict d) "shelf" (VInt (Z.of_nat k)) = Ok (VInt n) ->
  Z.of_nat (num_shelves s) < n \/ n <= - Z.of_nat (num_shelves s) ->
  exists e, status_entry now (k, VDict d) s = (s, Raise e)
            /\ (forall sp up lo, entry_bounds_ok d sp up lo -> e = IndexError).
Proof.
  intros Hlen Hid Hn. unfold status_entry.
  assert (Hsub : py_sub (VInt n) (VInt 1) = Ok (VInt (n - 1))) by reflexivity.
  assert (Htemp : py_get (VDict d) "temp" VNone = Ok (default VNone (assoc "temp" d)))
    by reflexivity.
  rewrite bind_lift, Hid. rewrite bind_lift, Hsub. rewrite bind_lift, Htemp.
  rewrite bind_lift.
  destruct (py_get (VDict d) "setpoint" _) as [sp_arr|e] eqn:E1;
    [|exists e; split; [done|]; bounds_clash].
  rewrite bind_lift.
  destruct (py_len sp_arr) as [m|e] eqn:E2;
    [|exists e; split; [done|]; bounds_clash].
  rewrite bind_lift.
  destruct (if (0 <? m)%nat then _ else _) as [sp|e] eqn:E3;
    [|exists e; split; [done|]; bounds_clash].
  rewrite bind_lift.
  destruct (if (1 <? m)%nat then _ else _) as [up|e] eqn:E4;
    [|exists e; split; [done|]; bounds_clash].
  rewrite bind_lift.
  destruct (if (2 <? m)%nat then _ else _) as [lo|e] eqn:E5;
    [|exists e; split; [done|]; bounds_clash].
  exists IndexError. split; [|done].
  unfold mbind at 1, M_bind, bind, latest_temp_store.
  rewrite Hlen, norm_index_outside by lia. done.
Qed.

(** X22. There is no range check on the shelf identity of a STATUS
    entry either. An entry whose identity lies above the shelf count (or
    so far below zero that the index falls off the front) raises before
    it has changed anything, [IndexError] when its setpoint array is
    readable, and the entries after it are not processed. *)
Theorem status_entry_out_of_range (now : Q) (k : nat) (d : list (string * value))
    (n : Z) (s : Session) :
  length (latest_temp s) = num_shelves s ->
  py_get (VDict d) "shelf" (VInt (Z.of_nat k)) = Ok (VInt n) ->
  Z.of_nat (num_shelves s) < n \/ n <= - Z.of_nat (num_shelves s) ->
  (forall sp up lo, entry_bounds_ok d sp up lo ->
     status_entry now (k, VDict d) s = (s, Raise IndexError))
  /\ (forall rest, exists e,
        for_each (status_entry now) ((k, VDict d) :: rest) s = (s, Raise e)).
Proof.
  intros Hlen Hid Hn.
  destruct (status_entry_fault now k d n s Hlen Hid Hn) as (e & He & Hix).
  split.
  - intros sp up lo Hb. by rewrite He, (Hix sp up lo Hb).
  - intros rest. exists e. by rewrite for_each_cons, He.
Qed.

Lemma status_entry_out_of_range_witness :
  status_entry 5 (0%nat, VDict fields_entry_5) (init_state 0) = (init_state 0, Raise IndexError).
Proof.
  refine (proj1 (status_entry_out_of_range 5 0 fields_entry_5 5 (init_state 0) eq_refl eq_refl _)
            (VFloat 75) (VFloat 77) (VFloat 73) _).
  - left. vm_compute. reflexivity.
  - exists (VList [VFloat 75; VFloat 77; VFloat 73]), 3%nat. vm_compute. by repeat split.
Defined.

(** X23. An ALARM_STATE snapshot is not applied atomically. The shelf's
    CRITICAL and ERROR records are dropped first; when the first element
    of the list then cannot be read (an active element without a name,
    a severity that is not a string), the message raises with the
    shelf's records gone, none of the later elements raised, and the
    last-update time not refreshed. *)
Theorem alarm_snapshot_not_atomic (now : Q) (d : list (string * value)) (i : Z)
    (bad : value) (rest : list value) (e : exn) (s : Session) (crit err : list Alarm) :
  assoc "type" d = Some (VStr "ALARM_STATE") ->
  py_get (VDict d) "shelf" (VInt 1) = Ok (VInt (i + 1)) ->
  assoc "alarms" d = Some (VList (bad :: rest)) ->
  alarm_state_args bad = Raise e ->
  alarms s !! "CRITICAL" = Some crit ->
  alarms s !! "ERROR" = Some err ->
  process_msg now (VDict d) s =
    (set_alarms (fun m => <["ERROR" := List.filter (other_shelf (VInt i)) err]>
                            (<["CRITICAL" := List.filter (other_shelf (VInt i)) crit]> m)) s,
     Raise e).
Proof.
  intros Ht Hid Hal Hbad Hc He.
  rewrite (process_msg_alarm_state _ _ _ Ht). unfold process_alarm_state.
  assert (Hsub : py_sub (VInt (i + 1)) (VInt 1) = Ok (VInt i))
    by (change (Ok (VInt (i + 1 - 1)) = Ok (VInt i)); do 2 f_equal; lia).
  assert (Hget : py_get (VDict d) "alarms" (VList []) = Ok (VList (bad :: rest)))
    by (simpl; by rewrite Hal).
  rewrite bind_lift, Hid. rewrite bind_lift, Hsub.
  unfold mbind at 1, M_bind, bind. rewrite (drop_shelf_alarms_ok _ _ _ _ Hc He).
  rewrite bind_lift, Hget. rewrite bind_lift. simpl py_iter. cbv beta iota.
  unfold mbind at 1, M_bind, bind.
  rewrite for_each_cons, alarm_state_alarm_eq, Hbad. done.
Qed.

Lemma alarm_snapshot_not_atomic_witness :
  exists crit err,
    process_msg 5 (VDict fields_nameless) s_two_alarms =
      (set_alarms (fun m => <["ERROR" := List.filter (other_shelf (VInt 0)) err]>
                              (<["CRITICAL" := List.filter (other_shelf (VInt 0)) crit]> m))
         s_two_alarms,
       Raise KeyError).
Proof.
  exists [mkAlarm (VInt 0) (VStr "OVERHEAT") (VStr "old") 1 (VBool true)],
         [mkAlarm (VInt 0) (VStr "OVERTEMP") (VStr "old") 1 (VBool false);
          mkAlarm (VInt 1) (VStr "OVERTEMP") (VStr "old") 1 (VBool false)].
  apply (alarm_snapshot_not_atomic 5 fields_nameless 0
           (VDict [("active", VBool true)])
           [VDict [("name", VStr "FAN_FAIL"); ("active", VBool true)]]
           KeyError s_two_alarms);
    vm_compute; reflexivity.
Defined.

(** ** The prototype's simulator *)

Lemma gtb_true x y : PrototypeTick.gtb x y = true <-> (y < x)%Q.
Proof.
  unfold PrototypeTick.gtb. rewrite negb_true_iff. split.
  - intros H. apply Qnot_le_lt. intros Hle. apply Qle_bool_iff in Hle. congruence.
  - intros H. destruct (Qle_bool x y) eqn:Hb; [|done].
    apply Qle_bool_iff in Hb. by apply Qlt_not_le in H.
Qed.

Lemma raise_if_spec c now i nm description s arr :
  Prototype.alarms (PrototypeTick.core s) !! i = Some arr ->
  exists new lg,
    PrototypeTick.raise_if c now i nm description s =
      (PrototypeTick.mkSim (PrototypeTick.temps s) (PrototypeTick.bounds s)
         (PrototypeTick.history s)
         (Prototype.mkState (<[i := arr ++ new]> (Prototype.alarms (PrototypeTick.core s))) lg),
       Ok tt)
    /\ (new = [] \/ (c = true /\ new = [Prototype.mkAlarm nm "ERROR" false description now]))
    /\ (c = true -> Exists (PrototypeTick.named nm) (arr ++ new)).
Proof.
  intros Hb. unfold PrototypeTick.raise_if. destruct c.
  - rewrite (prototype_add_alarm_eq _ _ _ _ _ _ arr Hb).
    destruct (existsb _ arr) eqn:Hex.
    + exists [], (Prototype.logs (PrototypeTick.core s)).
      rewrite app_nil_r, insert_id by done. split; [by destruct s as [? ? ? []]|].
      split; [by left|]. intros _. apply Exists_exists.
      apply existsb_exists in Hex as (a & Ha & Hn). exists a.
      split; [by apply list_elem_of_In|]. by apply String.eqb_eq in Hn.
    + eexists [_], _. split; [reflexivity|]. split; [by right|]. intros _.
      apply Exists_app. right. by constructor.
  - exists [], (Prototype.logs (PrototypeTick.core s)).
    rewrite app_nil_r, insert_id by done. split; [by destruct s as [? ? ? []]|].
    split; [by left | done].
Qed.

Lemma shelf_step_spec now delta i s :
  PrototypeTick.shaped s ->
  (i < Prototype.NUM_SHELVES)%nat ->
  exists s',
    PrototypeTick.shelf_step now delta i s = (s', Ok tt)
    /\ PrototypeTick.shaped s'
    /\ PrototypeTick.ticked now delta (PrototypeTick.shelf_view i s)
         (PrototypeTick.shelf_view i s')
    /\ (forall j, j <> i -> PrototypeTick.shelf_view j s' = PrototypeTick.shelf_view j s).
Proof.
  intros (Ht & Hb & Hh & Ha) Hi.
  destruct (lookup_lt_is_Some_2 (PrototypeTick.temps s) i) as [t0 Ht0]; [lia|].
  destruct (lookup_lt_is_Some_2 (PrototypeTick.bounds s) i) as [b Hb0]; [lia|].
  destruct (Hh i Hi) as [h Hh0]. destruct (Ha i Hi) as [arr Ha0].
  unfold PrototypeTick.shelf_step, PrototypeTick.ticked, PrototypeTick.shelf_view.
  rewrite Hb0, Ht0, Hh0, Ha0. destruct (PrototypeTick.isOn b) eqn:Hon; simpl negb; cbv iota.
  2:{ exists s. rewrite Hb0, Ht0, Hh0, Ha0. by repeat split. }
  cbv zeta. simpl PrototypeTick.history. rewrite Hh0.
  set (t := (t0 + delta)%Q).
  set (s2 := PrototypeTick.mkSim _ _ _ _).
  destruct (raise_if_spec (PrototypeTick.gtb t (PrototypeTick.upper b + 3)) now (Z.of_nat i)
              "OVERTEMP" "Temperature above safe limit" s2 arr Ha0)
    as (new1 & lg1 & -> & Hnew1 & Hex1).
  set (s3 := PrototypeTick.mkSim _ _ _ _).
  destruct (raise_if_spec (PrototypeTick.gtb (PrototypeTick.lower b - 3) t) now (Z.of_nat i)
              "UNDERTEMP" "Temperature below safe limit" s3 (arr ++ new1))
    as (new2 & lg2 & -> & Hnew2 & Hex2); [by simpl; rewrite lookup_insert_eq|].
  subst s3 s2. eexists. split; [reflexivity|]. simpl. rewrite insert_insert_eq.
  split; [|split].
  - unfold PrototypeTick.shaped. simpl.
    split; [by rewrite length_insert|]. split; [done|]. split.
    + intros j Hj. apply lookup_insert_is_Some'. right. by apply Hh.
    + intros j Hj. apply lookup_insert_is_Some'. right. by apply Ha.
  - simpl. rewrite list_lookup_insert_eq by lia. rewrite !lookup_insert_eq.
    exists (new1 ++ new2). rewrite app_assoc. split; [by rewrite Hb0|]. split; [|split].
    + apply Forall_app. split.
      * destruct Hnew1 as [->|[Hc ->]]; [done|]. constructor; [|done].
        apply gtb_true in Hc. repeat split; try done. by left.
      * destruct Hnew2 as [->|[Hc ->]]; [done|]. constructor; [|done].
        apply gtb_true in Hc. repeat split; try done. by right.
    + intros Hgt. apply gtb_true in Hgt. apply Exists_app. left. by apply Hex1.
    + intros Hlt. apply gtb_true in Hlt. by apply Hex2.
  - intros j Hj. unfold PrototypeTick.shelf_view. simpl.
    rewrite list_lookup_insert_ne by done.
    rewrite !lookup_insert_ne by lia. done.
Qed.

Lemma ticked_views now delta v1 v1' v2 v2' :
  v1 = v2 -> v1' = v2' ->
  PrototypeTick.ticked now delta v1 v1' -> PrototypeTick.ticked now delta v2 v2'.
Proof. by intros -> ->. Qed.

Lemma run_shelves_spec now draws l :
  NoDup l ->
  (forall i, i ∈ l -> (i < Prototype.NUM_SHELVES)%nat) ->
  forall s, PrototypeTick.shaped s ->
  exists s',
    PrototypeTick.run_shelves now draws l s = (s', Ok tt)
    /\ PrototypeTick.shaped s'
    /\ (forall i, i ∈ l ->
          PrototypeTick.ticked now (draws i) (PrototypeTick.shelf_view i s)
            (PrototypeTick.shelf_view i s'))
    /\ (forall j, j ∉ l -> PrototypeTick.shelf_view j s' = PrototypeTick.shelf_view j s).
Proof.
  induction l as [|i l IH]; intros Hnd Hlt s Hs.
  - exists s. split; [done|]. split; [done|]. split; [|done].
    intros i Hi. by apply elem_of_nil in Hi.
  - apply NoDup_cons in Hnd as [Hi Hnd].
    destruct (shelf_step_spec now (draws i) i s Hs) as (s1 & Hrun1 & Hs1 & Htick1 & Hframe1).
    { apply Hlt. by left. }
    destruct (IH Hnd (fun j Hj => Hlt j (list_elem_of_further _ _ _ Hj)) s1 Hs1)
      as (s' & Hrun & Hs' & Htick & Hframe).
    exists s'. simpl. rewrite Hrun1. split; [done|]. split; [done|]. split.
    + intros j Hj. apply elem_of_cons in Hj as [->|Hj].
      * apply (ticked_views now (draws i) _ _ _ _ eq_refl (eq_sym (Hframe i Hi)) Htick1).
      * assert (Hne : j <> i) by (intros ->; done).
        apply (ticked_views now (draws j) _ _ _ _ (Hframe1 j Hne) eq_refl (Htick j Hj)).
    + intros j Hj. apply not_elem_of_cons in Hj as [Hne Hj].
      by rewrite (Hframe j Hj), (Hframe1 j Hne).
Qed.

Lemma prototype_init_shaped : PrototypeTick.shaped PrototypeTick.init.
Proof.
  split; [done|]. split; [done|].
  split; intros i Hi; unfold Prototype.NUM_SHELVES in Hi;
    (destruct i as [|[|i]]; [by eexists | by eexists | lia]).
Qed.

Lemma sim_one_off_shaped : PrototypeTick.shaped sim_one_off.
Proof.
  split; [done|]. split; [done|].
  split; intros i Hi; unfold Prototype.NUM_SHELVES in Hi;
    (destruct i as [|[|i]]; [by eexists | by eexists | lia]).
Qed.

(** X24. One run of the prototype's [update_dummy_data] over a store
    that has every shelf's temperature, bounds, history and alarm list
    returns and leaves such a store. A shelf that is switched off keeps
    its temperature, history and alarms. A shelf that is on moves by its
    draw, has the new temperature appended to its 120-sample history,
    and its alarm list only grows: every record added is an
    unacknowledged ERROR stamped with the current time, named OVERTEMP
    only when the new temperature exceeds upper + 3 and UNDERTEMP only
    when it is below lower - 3, and in those two cases the list holds a
    record of that name afterwards. Nothing is ever cleared. *)
Theorem prototype_update_dummy_data (now : Q) (draws : nat -> Q) (s : PrototypeTick.Sim) :
  PrototypeTick.shaped s ->
  exists s',
    PrototypeTick.update_dummy_data now draws s = (s', Ok tt)
    /\ PrototypeTick.shaped s'
    /\ (forall i, (i < Prototype.NUM_SHELVES)%nat ->
          PrototypeTick.ticked now (draws i) (PrototypeTick.shelf_view i s)
            (PrototypeTick.shelf_view i s')).
Proof.
  intros Hs.
  destruct (run_shelves_spec now draws (seq 0 Prototype.NUM_SHELVES)) with (s := s)
    as (s' & Hrun & Hs' & Htick & _); [apply NoDup_seq| |done|].
  { intros i Hi. apply elem_of_seq in Hi. lia. }
  exists s'. split; [done|]. split; [done|].
  intros i Hi. apply Htick, elem_of_seq. lia.
Qed.

Lemma prototype_update_dummy_data_witness :
  exists s',
    PrototypeTick.update_dummy_data 5 (fun _ => 4%Q) sim_one_off = (s', Ok tt)
    /\ PrototypeTick.shaped s'
    /\ (forall i, (i < Prototype.NUM_SHELVES)%nat ->
          PrototypeTick.ticked 5 4 (PrototypeTick.shelf_view i sim_one_off)
            (PrototypeTick.shelf_view i s')).
Proof.
  apply (prototype_update_dummy_data 5 (fun _ => 4%Q) sim_one_off sim_one_off_shaped).
Defined.

Example prototype_tick_run :
  let s' := fst (PrototypeTick.update_dummy_data 5 (fun _ => 4%Q) sim_one_off) in
  PrototypeTick.temps s' = [72%Q; (80 + 4)%Q]
  /\ Prototype.alarms (PrototypeTick.core s') !! 0 = Some []
  /\ Prototype.alarms (PrototypeTick.core s') !! 1 =
       Some [Prototype.mkAlarm "OVERTEMP" "ERROR" false "Temperature above safe limit" 5].
Proof. repeat split; vm_compute; reflexivity. Qed.


(** * Claims about resizes, shelf identities and batches *)

(** ** A resize and the registry *)

Lemma process_status_entries now d entries s :
  assoc "type" d = Some (VStr "STATUS") ->
  assoc "shelves" d = Some (VList entries) ->
  process_msg now (VDict d) s
  = status_rest now (VDict d) entries (resize (length entries) s).
Proof.
  intros Ht Hsh. rewrite (process_msg_status _ _ _ Ht). unfold process_status, status_rest.
  assert (Hget : py_get (VDict d) "shelves" (VList []) = Ok (VList entries))
    by (simpl; by rewrite Hsh).
  rewrite bind_lift, Hget. rewrite bind_lift. simpl py_len. cbv beta iota.
  unfold mbind at 1, M_bind, bind, modify. by rewrite bind_lift.
Qed.

Lemma status_rest_inv (I : Session -> Prop) now msg entries :
  (forall e, preserves I (status_entry now e)) ->
  (forall x f, I x -> I (set_maintenance f x)) ->
  (forall x t, I x -> I (set_last_update_ts t x)) ->
  preserves I (status_rest now msg entries).
Proof.
  intros He Hm Ht. unfold status_rest, status_maintenance.
  apply preserves_bind; [by apply preserves_for_each|]. intros _.
  apply preserves_bind.
  - apply preserves_bind; [apply preserves_lift|]. intros m.
    destruct m as [| | | | |[|m0 [|m1 l]]|];
      first [ apply preserves_ret | apply preserves_modify; intros x; apply Hm ].
  - intros _. apply preserves_modify. intros x. apply Ht.
Qed.

Lemma kept_under_add_alarm sev s now sv shelf name desc ack :
  preserves (kept_under sev s) (add_alarm now sv shelf name desc ack).
Proof.
  intros x [new Hx].
  destruct (add_alarm now sv shelf name desc ack x) as [x' r] eqn:Hrun.
  destruct (add_alarm_grows _ _ _ _ _ _ _ _ _ sev Hrun) as (_ & new' & Hb & _).
  exists (new ++ new'). simpl. by rewrite Hb, Hx, app_assoc.
Qed.

Lemma kept_under_drop sev s idx :
  covered sev = false -> preserves (kept_under sev s) (drop_shelf_alarms idx).
Proof.
  intros Hcov. unfold drop_shelf_alarms. apply preserves_for_each_in. intros sv Hsv.
  assert (Hne : sv ≠ sev).
  { intros ->. unfold covered in Hcov.
    apply elem_of_cons in Hsv as [->|Hsv]; [done|].
    apply elem_of_cons in Hsv as [->|Hsv]; [done|]. by apply elem_of_nil in Hsv. }
  unfold mbind, M_bind, bind, bucket_item, modify. intros x Hx.
  destruct (alarms x !! sv) as [arr|]; [|done]. simpl.
  unfold kept_under. by rewrite bucket_insert_ne.
Qed.

Lemma kept_under_status_entry sev s now e :
  covered sev = false -> preserves (kept_under sev s) (status_entry now e).
Proof.
  intros Hcov. destruct e as [k sh]. unfold status_entry, status_alarms, status_alarm.
  inv_go ltac:(first
    [ by apply preserves_latest_temp_store
    | by apply preserves_shelf_store
    | by apply preserves_hist_append
    | by apply kept_under_drop
    | apply kept_under_add_alarm ]).
Qed.

(** C1 (as the code has it). A STATUS message whose shelf count
    differs from the store's sets the count, resets every shelf's bounds
    to the defaults and empties all histories and latest readings before
    its entries are processed, and that is all the resize does: the alarm
    registry, the log and the maintenance record are as they were. So,
    however the processing of the message ends, every record under a
    severity other than CRITICAL and ERROR is still in its bucket, and so
    is every record of a shelf index at or beyond the new count. *)
Theorem status_resize_keeps_registry (now : Q) (d : list (string * value))
    (entries : list value) (s : Session) :
  assoc "type" d = Some (VStr "STATUS") ->
  assoc "shelves" d = Some (VList entries) ->
  let count := length entries in
  let s' := fst (process_msg now (VDict d) s) in
  (count ≠ num_shelves s ->
   exists s1,
     process_msg now (VDict d) s = status_rest now (VDict d) entries s1
     /\ num_shelves s1 = count
     /\ shelves s1 = replicate count default_shelf
     /\ latest_temp s1 = replicate count VNone
     /\ (forall i : Z,
           hist s1 !! i = if decide (0 <= i < Z.of_nat count) then Some [] else None)
     /\ alarms s1 = alarms s /\ logs s1 = logs s /\ maintenance s1 = maintenance s)
  /\ (forall sev, covered sev = false -> kept_under sev s s')
  /\ (length (latest_temp s) = num_shelves s -> orphans_kept count s s').
Proof.
  intros Ht Hsh count s'. subst s'.
  rewrite (process_status_entries now d entries s Ht Hsh). fold count.
  split; [|split].
  - intros Hne. exists (resize count s). split; [done|].
    unfold resize. apply Nat.eqb_neq in Hne. rewrite Hne. simpl.
    split; [done|]. split; [done|]. split; [done|]. split; [|done].
    intros i. apply fresh_hist_lookup.
  - intros sev Hcov.
    apply (status_rest_inv (kept_under sev s) now (VDict d) entries).
    + intros e. by apply kept_under_status_entry.
    + intros x f Hx. exact Hx.
    + intros x t Hx. exact Hx.
    + unfold resize. destruct (negb _); exists []; by rewrite app_nil_r.
  - intros Hlen.
    apply (status_rest_inv (fun x => length (latest_temp x) = count /\ orphans_kept count s x)
             now (VDict d) entries).
    + intros e. apply status_entry_orphans.
    + intros x f Hx. exact Hx.
    + intros x t Hx. exact Hx.
    + split.
      * unfold resize. destruct (count =? num_shelves s)%nat eqn:Heq; simpl.
        -- apply Nat.eqb_eq in Heq. lia.
        -- apply length_replicate.
      * intros sev a j Ha _ _. unfold resize. by destruct (negb _).
Qed.

Lemma status_resize_keeps_registry_witness :
  exists s1,
    process_msg 2 (VDict fields_three_shelves) s_three_severities
    = status_rest 2 (VDict fields_three_shelves)
        [VDict [("shelf", VInt 1)]; VDict [("shelf", VInt 2)]; VDict [("shelf", VInt 3)]] s1
    /\ num_shelves s1 = 3%nat
    /\ shelves s1 = replicate 3 default_shelf
    /\ latest_temp s1 = replicate 3 VNone
    /\ (forall i : Z, hist s1 !! i = if decide (0 <= i < Z.of_nat 3) then Some [] else None)
    /\ alarms s1 = alarms s_three_severities /\ logs s1 = logs s_three_severities
    /\ maintenance s1 = maintenance s_three_severities.
Proof.
  apply (status_resize_keeps_registry 2 fields_three_shelves
           [VDict [("shelf", VInt 1)]; VDict [("shelf", VInt 2)]; VDict [("shelf", VInt 3)]]
           s_three_severities eq_refl eq_refl).
  vm_compute. lia.
Defined.

(** C1 (as stated) fails. A store of three shelves with an alarm on
    shelf index 2 receives a STATUS message for two shelves: it then holds
    two shelves and the alarm of index 2 is still registered. And a store
    of two shelves with a WARNING on shelf index 0 receives a STATUS
    message for three shelves: it then holds three shelves and the warning
    is still registered. *)
Lemma status_resize_keeps_alarms :
  (num_shelves s_three_shelves = 3%nat
   /\ num_shelves (fst (process_msg 2 (VDict fields_two_shelves) s_three_shelves)) = 2%nat
   /\ snd (process_msg 2 (VDict fields_two_shelves) s_three_shelves) = Ok tt
   /\ bucket "ERROR" (fst (process_msg 2 (VDict fields_two_shelves) s_three_shelves))
      = [mkAlarm (VInt 2) (VStr "FAN_FAIL") (VStr "FAN_FAIL") 1 (VBool false)])
  /\ (num_shelves s_three_severities = 2%nat
      /\ num_shelves (fst (process_msg 2 (VDict fields_three_shelves) s_three_severities))
         = 3%nat
      /\ snd (process_msg 2 (VDict fields_three_shelves) s_three_severities) = Ok tt
      /\ bucket "WARNING" (fst (process_msg 2 (VDict fields_three_shelves) s_three_severities))
         = [mkAlarm (VInt 0) (VStr "DOOR_OPEN") (VStr "door") 1 (VBool false)]).
Proof. repeat split; vm_compute; reflexivity. Qed.

(** ** Shelf identities beyond the store *)







(** ** A batch with a value that is not an object *)

Lemma read_all_json_all now vals :
  forall n s, (length vals <= n)%nat -> read_all now n (map RxJson vals) s = (s, Ok vals).
Proof.
  induction vals as [|v vals IH]; intros n s Hn.
  - by destruct n.
  - destruct n as [|n]; [simpl in Hn; lia|]. simpl map.
    rewrite read_all_json_cons, IH; [done | simpl in Hn; lia].
Qed.

(** C7. A line that decodes to a JSON value other than an object
    stops the batch: [process_msg] raises [AttributeError] on it,
    [read_from_pi] does not catch that, and so the messages before it
    are applied and the well-formed messages after it never are. *)
Theorem batch_stops_at_non_object (now : Q) (v : value) (s : Session) :
  (forall d, v ≠ VDict d) ->
  (forall before after,
      for_each (process_msg now) (before ++ v :: after) s
      = stops_with now AttributeError before s)
  /\ (link_open s = true ->
      forall before after,
        (length (before ++ v :: after) <= 200)%nat ->
        read_from_pi now (map RxJson (before ++ v :: after)) s
        = stops_with now AttributeError before s).
Proof.
  intros Hv.
  assert (Hp : forall s0, process_msg now v s0 = (s0, Raise AttributeError)).
  { intros s0. unfold process_msg. unfold_m. destruct v; try done. by destruct (Hv d). }
  assert (Hbatch : forall before after,
            for_each (process_msg now) (before ++ v :: after) s
            = stops_with now AttributeError before s).
  { intros before after. unfold stops_with. rewrite for_each_app.
    destruct (for_each (process_msg now) before s) as [s1 [[]|e]]; [|done].
    by rewrite for_each_cons, Hp. }
  split; [exact Hbatch|].
  intros Hopen before after Hlen. rewrite <- Hbatch with (after := after).
  unfold read_from_pi. unfold mbind at 1, M_bind, bind, gets. rewrite Hopen.
  unfold mbind, M_bind, bind. by rewrite (read_all_json_all now _ 200 s Hlen).
Qed.

Lemma batch_stops_at_non_object_witness :
  read_from_pi 5 (map RxJson ([] ++ VInt 42 :: [live_msg 1 (VFloat 70)])) s_connected
  = (s_connected, Raise AttributeError).
Proof.
  assert (Hv : forall d, VInt 42 ≠ VDict d) by discriminate.
  destruct (batch_stops_at_non_object 5 (VInt 42) s_connected Hv) as [_ H].
  apply (H eq_refl [] [live_msg 1 (VFloat 70)]). vm_compute. lia.
Defined.

Example batch_without_the_number :
  latest_temp (fst (read_from_pi 5 (map RxJson [live_msg 1 (VFloat 70)]) s_connected))
  = [VFloat 70; VNone].
Proof. vm_compute. reflexivity. Qed.
